(** * clipvive: storage accounting and retention

    A shallow embedding of the accounting and retention core of the
    clipvive backend, in its two variants:

    - [Worker]: [backend.bak.1763490862/app] ([tasks.py], [main.py]), the
      variant with a job table, a usage ledger and a quota check;
    - [Backend]: [backend/app/tasks.py], the variant that writes payloads
      through a temporary file and sweeps the storage directory itself.

    Python exceptions are explicit ([res]), the file system, the user table
    and the job table are an explicit [World] threaded through a small
    state-and-exception monad, and what the operating system or the
    database may refuse is given by an oracle ([Faults]).

    Conventions of the model:
    - timestamps are integers (seconds since the epoch); Python holds them
      as floats, the code only subtracts and compares them;
    - a text payload is held as its UTF-8 encoding, so the length of a
      string is its length in bytes;
    - Python integers are unbounded ([Z]). *)

From stdpp Require Import gmap strings list fin_maps.
From Stdlib Require Import ZArith Lia.

Open Scope Z_scope.

(** ** Exceptions, results, values *)

Inductive exn :=
| FileNotFoundError
| PermissionError
| OSError (errno : Z)
| OverflowError
| ValueError
| OperationalError
| IntegrityError
| HTTPException (status_code : Z) (detail : string).

Definition ENOSPC : Z := 28.
Definition EIO : Z := 5.
Definition EISDIR : Z := 21.

(** [str(e)], as far as the model distinguishes messages. *)
Definition str_exn (e : exn) : string :=
  match e with
  | FileNotFoundError => "No such file or directory"
  | PermissionError => "Permission denied"
  | OSError _ => "OSError"
  | OverflowError => "OverflowError"
  | ValueError => "ValueError"
  | OperationalError => "OperationalError"
  | IntegrityError => "IntegrityError"
  | HTTPException _ d => d
  end.

Inductive res (A : Type) :=
| Ret (a : A)
| Raise (e : exn).
Arguments Ret {A} a.
Arguments Raise {A} e.

Definition raises {A} (r : res A) : Prop := ∃ e, r = Raise e.

(** Python values of the result dictionaries. *)
Inductive pyval :=
| PInt (n : Z)
| PStr (s : string)
| PBool (b : bool).

Definition pydict := list (string * pyval).

Fixpoint dict_get {V} (d : list (string * V)) (k : string) : option V :=
  match d with
  | [] => None
  | (k', v) :: d' => if String.eqb k' k then Some v else dict_get d' k
  end.

(** [d.get(k, dflt)] *)
Definition dict_get_default {V} (d : list (string * V)) (k : string) (dflt : V) : V :=
  default dflt (dict_get d k).

(** ** A state-and-exception monad

    A raised exception keeps the state reached so far: nothing the code
    did to the disk or to the database before the exception is undone. *)

Definition M (S A : Type) : Type := S → res A * S.

Definition ret {S A} (a : A) : M S A := λ s, (Ret a, s).
Definition raise {S A} (e : exn) : M S A := λ s, (Raise e, s).
Definition bind {S A B} (m : M S A) (k : A → M S B) : M S B :=
  λ s, match m s with
       | (Ret a, s') => k a s'
       | (Raise e, s') => (Raise e, s')
       end.
Definition get {S} : M S S := λ s, (Ret s, s).
Definition modify {S} (f : S → S) : M S unit := λ s, (Ret tt, f s).
(** [try: m except Exception as e: h e] *)
Definition try_except {S A} (m : M S A) (h : exn → M S A) : M S A :=
  λ s, match m s with
       | (Ret a, s') => (Ret a, s')
       | (Raise e, s') => h e s'
       end.
(** An operation the environment may refuse. *)
Definition may_fail {S} (f : option exn) : M S unit :=
  match f with
  | Some e => raise e
  | None => ret tt
  end.

Declare Scope prog_scope.
Delimit Scope prog_scope with prog.
Notation "'let*' x ':=' m 'in' k" := (bind m (λ x, k))
  (at level 10, x name, m at level 100, k at level 200) : prog_scope.
Notation "m ;;; k" := (bind m (λ _, k))
  (at level 100, k at level 200, right associativity) : prog_scope.
Open Scope prog_scope.

(** [for x in l: body x] *)
Fixpoint for_each {S A} (l : list A) (body : A → M S unit) : M S unit :=
  match l with
  | [] => ret tt
  | x :: l' => body x ;;; for_each l' body
  end.

(** ** Data model ([models.py]) *)

Inductive Status := Created | Processing | Done | Failed | Deleted.

Global Instance Status_eq_dec : EqDecision Status.
Proof. solve_decision. Defined.

Record User := {
  plan : option string;
  storage_used_bytes : option Z
}.

Record Job := {
  job_id : string;
  owner_id : option Z;
  filename : option string;
  size_bytes : option Z;
  status : Status;
  created_at : Z;
  processed_at : option Z
}.

Definition set_storage_used_bytes (v : Z) (u : User) : User :=
  {| plan := plan u; storage_used_bytes := Some v |}.

Definition set_status (s : Status) (j : Job) : Job :=
  {| job_id := job_id j; owner_id := owner_id j; filename := filename j;
     size_bytes := size_bytes j; status := s; created_at := created_at j;
     processed_at := processed_at j |}.

(** An entry of the storage directory: a regular file or something else
    (a subdirectory), its bytes and its modification time. *)
Record File := {
  is_reg : bool;
  content : string;
  st_mtime : Z
}.

Definition st_size (f : File) : Z := Z.of_nat (String.length (content f)).

Definition regular (data : string) (mtime : Z) : File :=
  {| is_reg := true; content := data; st_mtime := mtime |}.

(** The world the code acts on. [fs] is the flat file store (every key is
    a path of the storage directory), [fs_seen] the states the store went
    through before the current one, most recent first: what a concurrent
    reader could have observed. *)
Record World := {
  fs : gmap string File;
  fs_seen : list (gmap string File);
  storage_dir : bool;
  users : gmap Z User;
  jobs : list Job
}.

Definition set_fs (m : gmap string File) (w : World) : World :=
  {| fs := m; fs_seen := fs w :: fs_seen w; storage_dir := storage_dir w;
     users := users w; jobs := jobs w |}.

Definition set_storage_dir (b : bool) (w : World) : World :=
  {| fs := fs w; fs_seen := fs_seen w; storage_dir := b;
     users := users w; jobs := jobs w |}.

Definition set_users (m : gmap Z User) (w : World) : World :=
  {| fs := fs w; fs_seen := fs_seen w; storage_dir := storage_dir w;
     users := m; jobs := jobs w |}.

Definition set_jobs (l : list Job) (w : World) : World :=
  {| fs := fs w; fs_seen := fs_seen w; storage_dir := storage_dir w;
     users := users w; jobs := l |}.

(** Every state of the store a reader may have seen up to now. *)
Definition observed (w : World) : list (gmap string File) := fs w :: fs_seen w.

(** What the environment refuses: each field says which exception, if any,
    the corresponding call raises. The store itself only changes through
    the modelled calls. [fault_s3_client] is read at the endpoint the S3
    client is built for, [fault_s3_upload] at the endpoint, the bucket and
    the name of the object of a transfer. *)
Record Faults := {
  fault_stat : string → option exn;
  fault_is_file : string → option exn;
  fault_unlink : string → option exn;
  fault_iterdir : option exn;
  fault_makedirs : option exn;
  fault_open : string → option exn;
  fault_write : string → option (nat * exn);
  fault_replace : string → option exn;
  fault_db_session : option exn;
  fault_db_insert : string → option exn;
  fault_db_query : option exn;
  fault_db_ledger : Z → option exn;
  fault_db_commit : string → option exn;
  fault_db_commit_all : option exn;
  fault_s3_client : string → option exn;
  fault_s3_upload : string → string → string → option exn
}.

Definition no_faults : Faults :=
  {| fault_stat := λ _, None; fault_is_file := λ _, None;
     fault_unlink := λ _, None; fault_iterdir := None;
     fault_makedirs := None; fault_open := λ _, None;
     fault_write := λ _, None; fault_replace := λ _, None;
     fault_db_session := None; fault_db_insert := λ _, None;
     fault_db_query := None; fault_db_ledger := λ _, None;
     fault_db_commit := λ _, None; fault_db_commit_all := None;
     fault_s3_client := λ _, None; fault_s3_upload := λ _ _ _, None |}.

(** Python truthiness of an optional integer and of an optional string. *)
Definition truthy_int (x : option Z) : bool :=
  match x with
  | Some n => negb (n =? 0)
  | None => false
  end.

Definition truthy_str (x : option string) : bool :=
  match x with
  | Some s => negb (String.eqb s "")
  | None => false
  end.

(** [x or 0], [x or "free"] *)
Definition int_or (x : option Z) (d : Z) : Z :=
  if truthy_int x then default d x else d.
Definition str_or (x : option string) (d : string) : string :=
  if truthy_str x then default d x else d.

(** SQL [COALESCE(x, d)] and [GREATEST(a, b)]. *)
Definition COALESCE (x : option Z) (d : Z) : Z := default d x.
Definition GREATEST (a b : Z) : Z := Z.max a b.

(** Configuration read from the environment. *)
Record Config := {
  STORAGE_DIR : string;
  RETENTION_DAYS : Z;
  REMOVE_LOCAL_AFTER_UPLOAD : bool;
  PLAN_FREE_BYTES : Z;
  PLAN_BASIC_BYTES : Z;
  PLAN_PRO_BYTES : Z;
  S3_ENDPOINT : string;
  S3_BUCKET : string;
  S3_ACCESS_KEY : string;
  S3_SECRET_KEY : string
}.

Definition slash : Ascii.ascii := Ascii.ascii_of_nat 47.

Definition starts_with_slash (s : string) : bool :=
  match s with
  | String c _ => Ascii.eqb c slash
  | EmptyString => false
  end.

Fixpoint ends_with_slash (s : string) : bool :=
  match s with
  | EmptyString => false
  | String c EmptyString => Ascii.eqb c slash
  | String _ s' => ends_with_slash s'
  end.

(** [os.path.join(a, b)] and [Path(a) / b]: an absolute [b] replaces
    [a]; otherwise one separator stands between the two. *)
Definition os_path_join (a b : string) : string :=
  if starts_with_slash b then b
  else if String.eqb a "" then b
  else if ends_with_slash a then a +:+ b
  else a +:+ "/" +:+ b.

(** A state with one more local variable, and the calls on the world
    seen from it. *)
Definition lift {L A} (m : M World A) : M (World * L) A :=
  λ '(w, l), match m w with (r, w') => (r, (w', l)) end.

(** A block that owns a local variable initialised to [init]; the result
    carries its final value. *)
Definition with_local {L A} (init : L) (m : M (World * L) A) : M World (A * L) :=
  λ w, match m (w, init) with
       | (Ret a, (w', l)) => (Ret (a, l), w')
       | (Raise e, (w', _)) => (Raise e, w')
       end.

(** ** Primitive calls on the world *)

(** [os.path.isfile(p)]: never raises. *)
Definition os_path_isfile (p : string) : M World bool :=
  λ w, (Ret (match fs w !! p with Some f => is_reg f | None => false end), w).

(** [os.path.isdir(STORAGE_DIR)] *)
Definition os_path_isdir : M World bool :=
  λ w, (Ret (storage_dir w), w).

(** [os.stat(p)]: the entry, or the refusal of the environment, or
    [FileNotFoundError] when there is no such entry. *)
Definition os_stat (F : Faults) (p : string) : M World File :=
  λ w, match fault_stat F p with
       | Some e => (Raise e, w)
       | None =>
           match fs w !! p with
           | Some f => (Ret f, w)
           | None => (Raise FileNotFoundError, w)
           end
       end.

(** [os.path.getmtime(p)], [os.path.getsize(p)] *)
Definition os_path_getmtime (F : Faults) (p : string) : M World Z :=
  let* f := os_stat F p in ret (st_mtime f).
Definition os_path_getsize (F : Faults) (p : string) : M World Z :=
  let* f := os_stat F p in ret (st_size f).

(** [os.remove(p)], [Path.unlink()] *)
Definition os_remove (F : Faults) (p : string) : M World unit :=
  λ w, match fault_unlink F p with
       | Some e => (Raise e, w)
       | None =>
           match fs w !! p with
           | Some _ => (Ret tt, set_fs (delete p (fs w)) w)
           | None => (Raise FileNotFoundError, w)
           end
       end.

(** [open(p, "w")]: creates the file or truncates it. *)
Definition open_w (F : Faults) (now : Z) (p : string) : M World unit :=
  may_fail (fault_open F p) ;;;
  modify (λ w, set_fs (<[p := regular "" now]> (fs w)) w).

(** [f.write(data)] on the file opened at [p]: the bytes are appended;
    when the environment refuses the write after [k] bytes, those [k]
    bytes are on the disk and the exception is raised. *)
Definition file_write (F : Faults) (now : Z) (p data : string) : M World unit :=
  λ w,
    let old := match fs w !! p with Some f => content f | None => "" end in
    match fault_write F p with
    | Some (k, e) =>
        (Raise e, set_fs (<[p := regular (old +:+ String.substring 0 k data) now]> (fs w)) w)
    | None =>
        (Ret tt, set_fs (<[p := regular (old +:+ data) now]> (fs w)) w)
    end.

(** [src.replace(dst)], the atomic rename of POSIX. *)
Definition path_replace (F : Faults) (src dst : string) : M World unit :=
  λ w, match fault_replace F src with
       | Some e => (Raise e, w)
       | None =>
           match fs w !! src with
           | Some f => (Ret tt, set_fs (<[dst := f]> (delete src (fs w))) w)
           | None => (Raise FileNotFoundError, w)
           end
       end.

(** Conversion of a Python integer to a float, as [float - int] does it:
    [OverflowError] beyond the range of a double. *)
Definition int_to_float (n : Z) : res Z :=
  if Z.abs n <? 2 ^ 1024 - 2 ^ 970 then Ret n else Raise OverflowError.

(** The newline character. *)
Definition nl : string := String (Ascii.ascii_of_nat 10) EmptyString.

Definition lift_res {S A} (r : res A) : M S A := λ s, (r, s).

(** * The worker variant: [backend.bak.1763490862/app] *)

Module Worker.

(** ** Usage ledger ([tasks.py], lines 46-54) *)

(** UPDATE "user" SET storage_used_bytes =
      COALESCE(storage_used_bytes,0) + :d WHERE id = :uid *)
Definition sql_inc (uid d : Z) (us : gmap Z User) : gmap Z User :=
  alter (λ u, set_storage_used_bytes (COALESCE (storage_used_bytes u) 0 + d) u) uid us.

(** UPDATE "user" SET storage_used_bytes =
      GREATEST(COALESCE(storage_used_bytes,0) - :d, 0) WHERE id = :uid *)
Definition sql_dec (uid d : Z) (us : gmap Z User) : gmap Z User :=
  alter (λ u, set_storage_used_bytes
                (GREATEST (COALESCE (storage_used_bytes u) 0 - d) 0) u) uid us.

Definition _inc_user_storage (F : Faults) (user_id delta : Z) : M World unit :=
  may_fail (fault_db_ledger F user_id) ;;;
  modify (λ w, set_users (sql_inc user_id delta (users w)) w).

Definition _dec_user_storage (F : Faults) (user_id delta : Z) : M World unit :=
  may_fail (fault_db_ledger F user_id) ;;;
  modify (λ w, set_users (sql_dec user_id delta (users w)) w).

(** The balance of an owner as the code reads it. *)
Definition balance (us : gmap Z User) (uid : Z) : Z :=
  match us !! uid with
  | Some u => COALESCE (storage_used_bytes u) 0
  | None => 0
  end.

(** ** Quota guard ([main.py], lines 93-108) *)

Definition quotas (cfg : Config) : list (string * Z) :=
  [("free", PLAN_FREE_BYTES cfg); ("basic", PLAN_BASIC_BYTES cfg);
   ("pro", PLAN_PRO_BYTES cfg)].

(** [quotas.get(plan, quotas["free"])] for [plan = user.plan or "free"] *)
Definition plan_quota (cfg : Config) (user : User) : Z :=
  let plan := str_or (plan user) "free" in
  dict_get_default (quotas cfg) plan (PLAN_FREE_BYTES cfg).

(** [max(len(payload.text.encode('utf-8')) + 1024, 1024)] *)
Definition estimated_size (text : string) : Z :=
  Z.max (Z.of_nat (String.length text) + 1024) 1024.

(** The condition of line 103:
    [(user.storage_used_bytes or 0) + estimated_size > quota] *)
Definition quota_exceeded (cfg : Config) (user : User) (estimate : Z) : bool :=
  plan_quota cfg user <? int_or (storage_used_bytes user) 0 + estimate.

Definition quota_detail : string :=
  "Enqueue would exceed your storage quota. Consider upgrading plan.".

(** What [enqueue] hands to the queue: the arguments of [process_task]. *)
Record Task := {
  task_text : string;
  task_job_id : string;
  task_owner_id : option Z
}.

(** [enqueue]: [uuid] is the fresh identifier drawn by [uuid.uuid4()],
    [uid] the id of the authenticated user. The result is the response
    and the task put on the queue. *)
Definition enqueue (cfg : Config) (text : string) (uid : Z) (user : User)
    (uuid : string) : res (pydict * Task) :=
  if quota_exceeded cfg user (estimated_size text)
  then Raise (HTTPException 403 quota_detail)
  else Ret ([("enqueued", PBool true); ("job_id", PStr uuid); ("rq_id", PStr uuid)],
            {| task_text := text; task_job_id := uuid; task_owner_id := Some uid |}).

(** ** The job table *)

(** [session.get(Job, job_id)] *)
Definition get_job (id : string) (js : list Job) : option Job :=
  List.find (λ j, String.eqb (job_id j) id) js.

(** The UPDATE a commit flushes for a job object changed in memory: the
    row with that primary key takes the changed columns. *)
Definition update_job (id : string) (f : Job → Job) (js : list Job) : list Job :=
  map (λ j, if String.eqb (job_id j) id then f j else j) js.

(** INSERT of a new row; the primary key refuses a second row with the
    same [job_id]. *)
Definition insert_job (F : Faults) (j : Job) : M World unit :=
  may_fail (fault_db_insert F (job_id j)) ;;;
  λ w, match get_job (job_id j) (jobs w) with
       | Some _ => (Raise IntegrityError, w)
       | None => (Ret tt, set_jobs (jobs w ++ [j]) w)
       end.

(** [session.add(j); session.commit()] for the job object of key [id]
    changed in memory by [f]. *)
Definition commit_job (F : Faults) (id : string) (f : Job → Job) : M World unit :=
  may_fail (fault_db_commit F id) ;;;
  modify (λ w, set_jobs (update_job id f (jobs w)) w).

(** [session.exec(select(Job).where(Job.status == "done")).all()] *)
Definition select_done (F : Faults) : M World (list Job) :=
  may_fail (fault_db_query F) ;;;
  λ w, (Ret (filter (λ j, status j = Done) (jobs w)), w).

(** ** S3 upload ([tasks.py], lines 22-44) *)

Record Upload := {
  uploaded : bool;
  upload_info : string   (* "url" when uploaded, "reason" otherwise *)
}.

Definition is_empty (s : string) : bool := String.eqb s "".

Fixpoint rstrip_slash (s : string) : string :=
  match s with
  | EmptyString => EmptyString
  | String c s' =>
      let r := rstrip_slash s' in
      if is_empty r && Ascii.eqb c (Ascii.ascii_of_nat 47) then EmptyString else String c r
  end.

Definition s3_configured (cfg : Config) : bool :=
  negb (is_empty (S3_ENDPOINT cfg)) && negb (is_empty (S3_ACCESS_KEY cfg))
  && negb (is_empty (S3_SECRET_KEY cfg)) && negb (is_empty (S3_BUCKET cfg)).

(** [upload_to_s3(local_path, object_name)]. [_s3_client()] is called
    before the [try]: when the four settings are there and the library
    refuses to build a client for the endpoint, the exception leaves the
    function. The transfer reads the local file; whatever it raises is
    reported in the result. *)
Definition upload_to_s3 (cfg : Config) (F : Faults) (local_path object_name : string)
  : M World Upload :=
  if negb (s3_configured cfg)
  then ret {| uploaded := false; upload_info := "no_s3_config" |}
  else
    may_fail (fault_s3_client F (S3_ENDPOINT cfg)) ;;;
    try_except
      (let* w := get in
       match fs w !! local_path with
       | None => raise FileNotFoundError
       | Some f =>
           if negb (is_reg f) then raise (OSError EISDIR)
           else
             may_fail (fault_s3_upload F (S3_ENDPOINT cfg) (S3_BUCKET cfg)
                         object_name) ;;;
             ret {| uploaded := true;
                    upload_info := rstrip_slash (S3_ENDPOINT cfg) +:+ "/"
                                   +:+ S3_BUCKET cfg +:+ "/" +:+ object_name |}
       end)
      (λ e, ret {| uploaded := false; upload_info := str_exn e |}).

(** ** The processing step ([tasks.py], lines 56-109) *)

(** [j.size_bytes = size; j.status = "done"; j.processed_at = t] *)
Definition set_processed (size t : Z) (j : Job) : Job :=
  {| job_id := job_id j; owner_id := owner_id j; filename := filename j;
     size_bytes := Some size; status := Done; created_at := created_at j;
     processed_at := Some t |}.

Record TaskResult := {
  r_job_id : string;
  r_local_path : string;
  r_s3 : Upload
}.

(** [os.makedirs(STORAGE_DIR, exist_ok=True)] *)
Definition os_makedirs (F : Faults) : M World unit :=
  may_fail (fault_makedirs F) ;;; modify (set_storage_dir true).

(** [process_task(text, job_id, owner_id)]. [now] is the clock when the
    task starts, [isoformat] renders the timestamp line of the file; the
    task sleeps one second before it looks at the size. *)
Definition process_task (cfg : Config) (F : Faults) (now : Z)
    (isoformat : Z → string) (text id : string) (owner : option Z)
  : M World TaskResult :=
  os_makedirs F ;;;
  let fname := os_path_join (STORAGE_DIR cfg) (id +:+ ".txt") in
  (* create job record in DB as 'processing' *)
  try_except
    (insert_job F {| job_id := id; owner_id := owner; filename := Some fname;
                     size_bytes := Some 0; status := Processing;
                     created_at := now; processed_at := None |})
    (λ _, ret tt) ;;;
  open_w F now fname ;;;
  file_write F now fname ("job_id: " +:+ id +:+ nl) ;;;
  file_write F now fname ("timestamp: " +:+ isoformat now +:+ nl +:+ nl) ;;;
  file_write F now fname (text +:+ nl) ;;;
  (* get file size *)
  let* size := try_except (os_path_getsize F fname) (λ _, ret 0) in
  (* if owner_id provided, increment storage atomically and update job size *)
  (if truthy_int owner then
     _inc_user_storage F (default 0 owner) size ;;;
     try_except
       (may_fail (fault_db_session F) ;;;
        let* w := get in
        match get_job id (jobs w) with
        | Some _ => commit_job F id (set_processed size (now + 1))
        | None => ret tt
        end)
       (λ _, ret tt)
   else ret tt) ;;;
  (* attempt upload to S3 (optional) *)
  let s3_obj := "outputs/" +:+ id +:+ ".txt" in
  let* upload_result := upload_to_s3 cfg F fname s3_obj in
  (if uploaded upload_result && REMOVE_LOCAL_AFTER_UPLOAD cfg
   then try_except (os_remove F fname) (λ _, ret tt)
   else ret tt) ;;;
  ret {| r_job_id := id; r_local_path := fname; r_s3 := upload_result |}.

(** ** The retention sweep ([tasks.py], lines 111-144) *)

(** The body of the loop over the done jobs, [deleted] being the local
    counter. *)
Definition sweep_job (F : Faults) (cutoff_ts : Z) (job : Job) : M (World * Z) unit :=
  try_except
    (if negb (truthy_str (filename job)) then ret tt
     else
       let fname := default "" (filename job) in
       let* isf := lift (os_path_isfile fname) in
       if negb isf then ret tt
       else
         let* mtime := lift (os_path_getmtime F fname) in
         if mtime <? cutoff_ts then
           let* size := lift (os_path_getsize F fname) in
           lift (os_remove F fname) ;;;
           modify (λ '(w, deleted), (w, deleted + 1)) ;;;
           (* decrement owner's storage *)
           (if truthy_int (owner_id job)
            then lift (_dec_user_storage F (default 0 (owner_id job)) size)
            else ret tt) ;;;
           (* mark job deleted *)
           lift (commit_job F (job_id job) (set_status Deleted))
         else ret tt)
    (λ _, ret tt).

(** [cleanup_local_storage()]; [now] is the value of
    [datetime.utcnow().timestamp()], which is the epoch time when the
    local time zone of the host is UTC. *)
Definition cleanup_local_storage (cfg : Config) (F : Faults) (now : Z)
  : M World pydict :=
  try_except
    (let* secs := lift_res (int_to_float (RETENTION_DAYS cfg * 86400)) in
     let cutoff_ts := now - secs in
     let* isdir := os_path_isdir in
     if negb isdir then ret [("deleted", PInt 0); ("reason", PStr "no_dir")]
     else
       let* r := with_local 0
                   (let* js := lift (select_done F) in
                    for_each js (sweep_job F cutoff_ts)) in
       ret [("deleted", PInt (snd r))])
    (λ e, ret [("error", PStr (str_exn e))]).

End Worker.

(** * The current variant: [backend/app/tasks.py] *)

Module Backend.

(** The range of [datetime]: years 1 to 9999, in seconds since the epoch. *)
Definition DATETIME_MIN : Z := -62135596800.
Definition DATETIME_MAX : Z := 253402300799.

(** [timedelta(days=n)]: [OverflowError] beyond 999999999 days. The
    result is in seconds. *)
Definition timedelta_days (n : Z) : res Z :=
  if Z.abs n <=? 999999999 then Ret (n * 86400) else Raise OverflowError.

(** [t - delta] on a [datetime]: [OverflowError] outside its range. *)
Definition datetime_sub (t delta : Z) : res Z :=
  let r := t - delta in
  if (DATETIME_MIN <=? r) && (r <=? DATETIME_MAX) then Ret r else Raise OverflowError.

(** [datetime.fromtimestamp(ts, timezone.utc)] *)
Definition datetime_fromtimestamp (ts : Z) : res Z :=
  if (DATETIME_MIN <=? ts) && (ts <=? DATETIME_MAX) then Ret ts else Raise ValueError.

(** [p.is_file()] of pathlib: no entry is [False]; what the environment
    refuses is raised. *)
Definition path_is_file (F : Faults) (p : string) : M World bool :=
  may_fail (fault_is_file F p) ;;; os_path_isfile p.

(** [Path(STORAGE_PATH).iterdir()]: the entries of the storage directory. *)
Definition path_iterdir (F : Faults) : M World (list string) :=
  may_fail (fault_iterdir F) ;;;
  λ w, (Ret (map fst (map_to_list (fs w))), w).

(** *** Paths as [pathlib] holds them *)

(** [s.split("/")] *)
Fixpoint split_slash (s : string) : list string :=
  match s with
  | EmptyString => [EmptyString]
  | String c s' =>
      if Ascii.eqb c slash then EmptyString :: split_slash s'
      else match split_slash s' with
           | h :: t => String c h :: t
           | [] => [String c EmptyString]
           end
  end.

(** The components of a path: the empty ones and [.] are dropped, [..]
    is kept. *)
Definition parts (s : string) : list string :=
  filter (λ c, c ≠ "" ∧ c ≠ ".") (split_slash s).

Fixpoint join_slash (l : list string) : string :=
  match l with
  | [] => ""
  | [x] => x
  | x :: l' => x +:+ "/" +:+ join_slash l'
  end.

(** A path: whether it is absolute, and its components. *)
Definition Path : Type := bool * list string.

Definition render_path (p : Path) : string :=
  (if fst p then "/" else "") +:+ join_slash (snd p).

(** [Path(STORAGE_PATH)] and [Path(STORAGE_PATH) / name]: an absolute
    [name] replaces the directory. *)
Definition storage_path (cfg : Config) : Path :=
  (starts_with_slash (STORAGE_DIR cfg), parts (STORAGE_DIR cfg)).

Definition path_under (cfg : Config) (name : string) : Path :=
  if starts_with_slash name then (true, parts name)
  else (fst (storage_path cfg), snd (storage_path cfg) ++ parts name).

Fixpoint strip_prefix (pre l : list string) : option (list string) :=
  match pre with
  | [] => Some l
  | x :: pre' =>
      match l with
      | y :: l' => if String.eqb x y then strip_prefix pre' l' else None
      | [] => None
      end
  end.

(** What a path denotes in the world: the storage directory or a
    directory above it, or an entry of the store under its key. A path
    below the storage directory has the key the code gives the entry when
    it writes or lists it; any other path is a key of its own. Steps up
    from the storage directory stay above it; a [..] elsewhere is not
    resolved. *)
Inductive place :=
| Above
| Key (k : string).

Definition place_of (cfg : Config) (p : Path) : place :=
  let dir := storage_path cfg in
  if negb (Bool.eqb (fst p) (fst dir)) then Key (render_path p)
  else
    match strip_prefix (snd dir) (snd p) with
    | Some rest =>
        if forallb (String.eqb "..") rest then Above
        else Key (os_path_join (STORAGE_DIR cfg) (join_slash rest))
    | None =>
        if bool_decide (is_Some (strip_prefix (snd p) (snd dir))) then Above
        else Key (render_path p)
    end.

(** The errors [Path.exists()] takes for an absent file: ENOENT,
    ENOTDIR, EBADF, ELOOP and [ValueError]; any other is raised. *)
Definition ignored_by_exists (e : exn) : bool :=
  match e with
  | FileNotFoundError | ValueError => true
  | OSError n => bool_decide (n = 2 ∨ n = 20 ∨ n = 9 ∨ n = 40)
  | _ => false
  end.

(** [(Path(STORAGE_PATH) / name).exists()], as the sweep calls it once it
    has listed the storage directory: the directory and those above it are
    there. *)
Definition path_exists (cfg : Config) (F : Faults) (name : string) : M World bool :=
  let p := path_under cfg name in
  let key := match place_of cfg p with
             | Above => render_path p
             | Key k => k
             end in
  match fault_stat F key with
  | Some e => if ignored_by_exists e then ret false else raise e
  | None =>
      match place_of cfg p with
      | Above => ret true
      | Key k => λ w, (Ret (bool_decide (is_Some (fs w !! k))), w)
      end
  end.

(** [[f(x) for x in l]] for an [f] that may raise. *)
Fixpoint map_m {S A B} (f : A → M S B) (l : list A) : M S (list B) :=
  match l with
  | [] => ret []
  | x :: l' => let* y := f x in let* ys := map_m f l' in ret (y :: ys)
  end.

(** [_safe_db_session()]: [have_db] says whether [app.db] and
    [app.models] could be imported ([_get_session is not None]); the
    result says whether there is a session. *)
Definition _safe_db_session (have_db : bool) (F : Faults) : M World bool :=
  if negb have_db then ret false
  else may_fail (fault_db_session F) ;;; ret true.

(** ** Payload store ([save_job_payload], lines 65-106) *)

Record Saved := {
  s_job_id : string;
  s_filename : string;
  s_size_bytes : Z
}.

(** [(u.storage_used_bytes or 0) + size], under [with_for_update]. *)
Definition add_usage (uid size : Z) (us : gmap Z User) : gmap Z User :=
  alter (λ u, set_storage_used_bytes (int_or (storage_used_bytes u) 0 + size) u) uid us.

(** The final location and the temporary path of a payload.
    [with_suffix(".tmp")] swaps the suffix [".txt"] of the name. *)
Definition final_path (cfg : Config) (prefix : string) : string :=
  os_path_join (STORAGE_DIR cfg) (prefix +:+ ".txt").
Definition tmp_path (cfg : Config) (prefix : string) : string :=
  os_path_join (STORAGE_DIR cfg) (prefix +:+ ".tmp").

(** Lines 76-83: the payload is written to the temporary path, which is
    then renamed to the final location. *)
Definition write_then_rename (F : Faults) (now : Z) (tmp filepath payload : string)
  : M World unit :=
  open_w F now tmp ;;;
  file_write F now tmp payload ;;;
  path_replace F tmp filepath.

(** Lines 87-104: the best-effort attribution of the bytes to the owner. *)
Definition attribute_usage (have_db : bool) (F : Faults) (owner : option Z) (size : Z)
  : M World unit :=
  try_except
    (let* session := _safe_db_session have_db F in
     if session && truthy_int owner then
       try_except
         (may_fail (fault_db_ledger F (default 0 owner)) ;;;
          modify (λ w, set_users (add_usage (default 0 owner) size (users w)) w))
         (λ _, ret tt)
     else ret tt)
    (λ _, ret tt).

(** [save_job_payload(payload_text, owner_id, filename_prefix)]; [uuid]
    is the identifier drawn by [uuid.uuid4()], [now] the clock. *)
Definition save_job_payload (cfg : Config) (have_db : bool) (F : Faults) (now : Z)
    (uuid : string) (payload_text : string) (owner : option Z)
    (filename_prefix : option string) : M World Saved :=
  let prefix := str_or filename_prefix uuid in
  let fname := prefix +:+ ".txt" in
  let filepath := final_path cfg prefix in
  let tmp := tmp_path cfg prefix in
  write_then_rename F now tmp filepath payload_text ;;;
  let* st := os_stat F filepath in
  let size := st_size st in
  attribute_usage have_db F owner size ;;;
  ret {| s_job_id := uuid; s_filename := fname; s_size_bytes := size |}.

(** ** The retention sweep ([cleanup_local_storage], lines 108-158) *)

(** The body of the loop over the directory entries. *)
Definition sweep_entry (F : Faults) (cutoff : Z) (p : string)
  : M (World * Z) unit :=
  try_except
    (let* isf := lift (path_is_file F p) in
     if negb isf then ret tt
     else
       let* st := lift (os_stat F p) in
       let* mtime := lift_res (datetime_fromtimestamp (st_mtime st)) in
       if mtime <? cutoff then
         lift (os_remove F p) ;;;
         modify (λ '(w, deleted), (w, deleted + 1))
       else ret tt)
    (λ e, match e with
          | FileNotFoundError => ret tt
          | PermissionError => ret tt
          | _ => raise e
          end).

(** The best-effort reconciliation of the job table: the jobs with a
    filename whose file is gone are marked deleted. The rows are changed in
    the session and reach the table with the commit; whatever is raised
    before it rolls them back, so the order in which the query hands out
    the rows does not show in the outcome. *)
Definition reconcile_jobs (cfg : Config) (have_db : bool) (F : Faults)
  : M World unit :=
  try_except
    (let* session := _safe_db_session have_db F in
     if session then
       try_except
         (may_fail (fault_db_query F) ;;;
          let* w := get in
          let* rows :=
            map_m (λ r, match filename r with
                        | Some f =>
                            let* there := path_exists cfg F f in
                            ret (if negb there then set_status Deleted r else r)
                        | None => ret r
                        end) (jobs w) in
          may_fail (fault_db_commit_all F) ;;;
          modify (set_jobs rows))
         (λ _, ret tt)
     else ret tt)
    (λ _, ret tt).

(** [cleanup_local_storage()]; [now] is [datetime.now(timezone.utc)]. *)
Definition cleanup_local_storage (cfg : Config) (have_db : bool) (F : Faults)
    (now : Z) : M World pydict :=
  (if RETENTION_DAYS cfg <=? 0
   then ret tt   (* special: delete nothing ... : [pass] *)
   else ret tt) ;;;
  let* delta := lift_res (timedelta_days (RETENTION_DAYS cfg)) in
  let* cutoff := lift_res (datetime_sub now delta) in
  let* r := try_except
              (let* r := with_local 0
                           (let* ps := lift (path_iterdir F) in
                            for_each ps (sweep_entry F cutoff)) in
               ret (Some (snd r)))
              (λ _, ret None) in
  match r with
  | None => ret [("deleted", PInt 0)]
  | Some deleted =>
      reconcile_jobs cfg have_db F ;;;
      ret [("deleted", PInt deleted)]
  end.

End Backend.

(** * The HTTP surface of the worker variant: [backend.bak.1763490862/app/main.py] *)

Module WorkerApi.

(** ** [GET /api/storage] (lines 37-46) *)



(** ** [GET /api/files] (lines 49-63) *)

Record FileEntry := {
  e_job_id : string;
  e_filename : option string;
  e_size_bytes : option Z;
  e_status : Status;
  e_created_at : option string;
  e_processed_at : option string
}.

(** One element of [out]; a [datetime] is always truthy, so [created_at]
    is always rendered. [isoformat] renders the timestamps of the rows,
    which carry no time zone. *)
Definition file_entry (isoformat : Z → string) (j : Job) : FileEntry :=
  {| e_job_id := job_id j; e_filename := filename j; e_size_bytes := size_bytes j;
     e_status := status j;
     e_created_at := Some (isoformat (created_at j));
     e_processed_at := isoformat <$> processed_at j |}.

(** [select(Job).where(Job.owner_id == user.id)]: a NULL owner equals no
    id. The query has no ORDER BY: [db_order] is the order in which the
    database hands out the rows it selected. *)
Definition list_files (F : Faults) (db_order : list Job → list Job)
    (isoformat : Z → string) (uid : Z) : M World (list FileEntry) :=
  may_fail (fault_db_query F) ;;;
  λ w, (Ret (map (file_entry isoformat)
                 (db_order (filter (λ j, owner_id j = Some uid) (jobs w)))), w).

(** ** [DELETE /api/files/{job_id}] (lines 66-82) *)

Definition not_found : exn := HTTPException 404 "File not found".
Definition could_not_delete : exn := HTTPException 500 "Could not delete file".

(** [delete_file(job_id, user, session)] for the user of id [uid]. The
    UPDATE of the counter is executed in the transaction of the session
    and reaches the table with the commit of the status; [fault_db_ledger]
    is the refusal of that [session.execute] (an unreachable database, or
    a raw SQL string where the library wants [text(...)]). *)
Definition delete_file (F : Faults) (id : string) (uid : Z) : M World pydict :=
  may_fail (fault_db_session F) ;;;
  let* w0 := get in
  match Worker.get_job id (jobs w0) with
  | None => raise not_found
  | Some job =>
      if negb (bool_decide (owner_id job = Some uid)) then raise not_found
      else
        try_except
          (let* pending :=
             (if truthy_str (filename job) then
                let fname := default "" (filename job) in
                let* isf := os_path_isfile fname in
                if isf then
                  let* size := os_path_getsize F fname in
                  os_remove F fname ;;;
                  (* decrement user storage *)
                  may_fail (fault_db_ledger F uid) ;;;
                  ret (Some size)
                else ret None
              else ret None) in
           may_fail (fault_db_commit F id) ;;;
           modify (λ w,
             set_jobs (Worker.update_job id (set_status Deleted) (jobs w))
               (match pending with
                | Some size => set_users (Worker.sql_dec uid size (users w)) w
                | None => w
                end)))
          (λ _, raise could_not_delete) ;;;
        ret [("deleted", PBool true); ("job_id", PStr id)]
  end.

End WorkerApi.

(** * The HTTP surface of the current variant: [backend/app/main.py] *)

Module BackendApi.

(** ** [_get_owner_from_auth] (lines 124-137) *)

(** [c.lower()] on a character of the header, which the framework decodes
    as Latin-1: the ASCII capitals and the capitals from U+00C0 to U+00DE
    (U+00D7, the multiplication sign, is no letter). *)
Definition ascii_lower (c : Ascii.ascii) : Ascii.ascii :=
  let n := Ascii.nat_of_ascii c in
  if ((65 <=? n)%nat && (n <=? 90)%nat)
     || ((192 <=? n)%nat && (n <=? 222)%nat && negb (n =? 215)%nat)
  then Ascii.ascii_of_nat (n + 32) else c.

Fixpoint lower (s : string) : string :=
  match s with
  | EmptyString => EmptyString
  | String c s' => String (ascii_lower c) (lower s')
  end.

(** [s.startswith(p)] *)
Definition startswith (s p : string) : bool := String.prefix p s.

Definition space : Ascii.ascii := Ascii.ascii_of_nat 32.

(** [s.split(" ", 1)] *)
Fixpoint split_space_once (s : string) : list string :=
  match s with
  | EmptyString => [EmptyString]
  | String c s' =>
      if Ascii.eqb c space then [EmptyString; s']
      else match split_space_once s' with
           | h :: t => String c h :: t
           | [] => [String c EmptyString]
           end
  end.

(** The result of the function: the owner it returns, or the
    [IndexError] of an index outside the list of the split. *)
Inductive auth_result :=
| Owner (owner : option Z)
| IndexError.

Definition _get_owner_from_auth (authorization : option string) : auth_result :=
  if negb (truthy_str authorization) then Owner None
  else
    let a := default "" authorization in
    if startswith (lower a) "bearer " then
      match split_space_once a !! 1%nat with
      | None => IndexError
      | Some token =>
          (* dev token format: devtoken-<hex> *)
          if startswith token "devtoken-" then Owner (Some 1) else Owner None
      end
    else Owner None.

(** ** [POST /api/enqueue] (lines 139-151) *)

(** What the framework gets back: a response, or an exception no
    handler of the function caught. *)
Inductive http_result :=
| Responded (status_code : Z) (body : pydict)
| Unhandled.

Definition internal_server_error : http_result :=
  Responded 500 [("detail", PStr "Internal Server Error")].

(** [api_enqueue(req, Authorization)]; [text] is [req.text]. *)
Definition api_enqueue (cfg : Config) (have_db : bool) (F : Faults) (now : Z)
    (uuid text : string) (authorization : option string)
  : World → http_result * World :=
  λ w,
    match _get_owner_from_auth authorization with
    | IndexError => (Unhandled, w)
    | Owner owner =>
        match Backend.save_job_payload cfg have_db F now uuid text owner None w with
        | (Ret res, w') =>
            (Responded 200 [("enqueued", PBool true);
                            ("job_id", PStr (Backend.s_job_id res));
                            ("rq_id", PStr (Backend.s_job_id res))], w')
        | (Raise _, w') => (internal_server_error, w')
        end
    end.

End BackendApi.

(** * Vocabulary of the properties *)

(** ** Usage ledger *)

Inductive ledger_op :=
| Increment (uid delta : Z)
| Decrement (uid delta : Z).

Definition run_ledger_op (F : Faults) (op : ledger_op) : M World unit :=
  match op with
  | Increment uid d => Worker._inc_user_storage F uid d
  | Decrement uid d => Worker._dec_user_storage F uid d
  end.

(** A sequence of ledger operations; an operation the database refuses
    raises to its caller and the next one is applied to the world it left. *)
Definition run_ledger_ops (F : Faults) (ops : list ledger_op) (w : World) : World :=
  fold_left (λ w op, snd (run_ledger_op F op w)) ops w.

(** The deltas the callers pass are sizes of files: an increment adds a
    byte count. *)
Definition byte_delta (op : ledger_op) : Prop :=
  match op with
  | Increment _ d => 0 ≤ d
  | Decrement _ _ => True
  end.

(** Every counter of the user table, as the code reads it, is a
    non-negative integer. *)
Definition ledger_ok (us : gmap Z User) : Prop :=
  map_Forall (λ _ u, 0 ≤ COALESCE (storage_used_bytes u) 0) us.

Global Instance ledger_ok_dec us : Decision (ledger_ok us).
Proof. unfold ledger_ok. apply _. Defined.

(** A table with one counter set and one NULL. *)
Definition ledger_world : World :=
  {| fs := ∅; fs_seen := []; storage_dir := true;
     users := {[ 1 := {| plan := Some "free"; storage_used_bytes := Some 100 |};
                 2 := {| plan := None; storage_used_bytes := None |} ]};
     jobs := [] |}.

(** ** Quota guard *)

(** A configuration with the default plan ceilings of [main.py]. *)
Definition default_config : Config :=
  {| STORAGE_DIR := "/data/storage"; RETENTION_DAYS := 7;
     REMOVE_LOCAL_AFTER_UPLOAD := false;
     PLAN_FREE_BYTES := 524288000; PLAN_BASIC_BYTES := 5368709120;
     PLAN_PRO_BYTES := 21474836480;
     S3_ENDPOINT := ""; S3_BUCKET := ""; S3_ACCESS_KEY := ""; S3_SECRET_KEY := "" |}.

(** [PLAN_FREE_BYTES=1000] in the environment. *)
Definition quota1000 : Config :=
  {| STORAGE_DIR := "/data/storage"; RETENTION_DAYS := 7;
     REMOVE_LOCAL_AFTER_UPLOAD := false;
     PLAN_FREE_BYTES := 1000; PLAN_BASIC_BYTES := 5368709120;
     PLAN_PRO_BYTES := 21474836480;
     S3_ENDPOINT := ""; S3_BUCKET := ""; S3_ACCESS_KEY := ""; S3_SECRET_KEY := "" |}.

Definition user_with (p : option string) (used : option Z) : User :=
  {| plan := p; storage_used_bytes := used |}.

(** The request is denied: [enqueue] raises the 403 of the quota guard. *)
Definition denied {A} (r : res A) : Prop :=
  r = Raise (HTTPException 403 Worker.quota_detail).

(** ** The worker sweep, one candidate at a time *)

Definition refused {A} (f : option A) : bool :=
  match f with Some _ => true | None => false end.

(** The file a done job names can be removed by the sweep: the name is
    set, the entry is a regular file older than the cutoff, and the
    environment refuses neither its [stat] nor its removal. *)
Definition removable (F : Faults) (cutoff : Z) (m : gmap string File) (job : Job) : bool :=
  truthy_str (filename job) &&
  match m !! default "" (filename job) with
  | Some f => is_reg f && negb (refused (fault_stat F (default "" (filename job))))
              && (st_mtime f <? cutoff)
              && negb (refused (fault_unlink F (default "" (filename job))))
  | None => false
  end.

(** The effect of one pass of the loop body of [Worker.sweep_job] on the
    world and on the counter, as a function. *)
Definition sweep_step (F : Faults) (cutoff : Z) (job : Job) (st : World * Z) : World * Z :=
  let '(w, n) := st in
  if removable F cutoff (fs w) job then
    let fname := default "" (filename job) in
    let size := match fs w !! fname with Some f => st_size f | None => 0 end in
    let w1 := set_fs (delete fname (fs w)) w in
    let uid := default 0 (owner_id job) in
    if truthy_int (owner_id job) && refused (fault_db_ledger F uid) then (w1, n + 1)
    else
      let w2 := if truthy_int (owner_id job)
                then set_users (Worker.sql_dec uid size (users w1)) w1 else w1 in
      if refused (fault_db_commit F (job_id job)) then (w2, n + 1)
      else (set_jobs (Worker.update_job (job_id job) (set_status Deleted) (jobs w2)) w2,
            n + 1)
  else (w, n).

(** The loop over a list of candidates. *)
Definition sweep_fold (F : Faults) (cutoff : Z) (js : list Job) (st : World * Z)
  : World * Z :=
  fold_left (λ st j, sweep_step F cutoff j st) js st.

(** The loop of the worker sweep over the done jobs, from counter 0. *)
Definition sweep_all (F : Faults) (cutoff : Z) (w : World) : World * Z :=
  sweep_fold F cutoff (filter (λ j, status j = Done) (jobs w)) (w, 0).

(** A row of the job table after a sweep: as it was, or marked deleted. *)
Definition kept_or_deleted (j j' : Job) : Prop :=
  j' = j ∨ j' = set_status Deleted j.

(** The sweep-level calls of the worker sweep go through: the retention
    period converts to a float, the storage directory is there and the
    database answers the query. *)
Definition sweep_level_ok (cfg : Config) (F : Faults) (w : World) : Prop :=
  int_to_float (RETENTION_DAYS cfg * 86400) = Ret (RETENTION_DAYS cfg * 86400)
  ∧ storage_dir w = true
  ∧ fault_db_query F = None.

(** The cutoff of the worker sweep. *)
Definition cutoff_ts (cfg : Config) (now : Z) : Z := now - RETENTION_DAYS cfg * 86400.

(** ** Sequences of sweeps and frames *)

(** Sweeps run one after the other, each with its own configuration,
    its own refusals of the environment and its own clock. *)
Definition run_sweeps (l : list (Config * Faults * Z)) (w : World) : World :=
  fold_left (λ w '(cfg, F, now), snd (Worker.cleanup_local_storage cfg F now w)) l w.

(** A program leaves a component of the state as it found it, whatever
    it returns or raises. *)
Definition preserves {S A X} (proj : S → X) (m : M S A) : Prop :=
  ∀ s, proj (snd (m s)) = proj s.

(** The file of a job of the worker variant and the row [process_task]
    inserts for it. *)
Definition job_file (cfg : Config) (id : string) : string :=
  os_path_join (STORAGE_DIR cfg) (id +:+ ".txt").

Definition processing_row (cfg : Config) (now : Z) (id : string) (owner : option Z) : Job :=
  {| job_id := id; owner_id := owner; filename := Some (job_file cfg id);
     size_bytes := Some 0; status := Processing; created_at := now;
     processed_at := None |}.

(** No done job of the table names the path [p]. *)
Definition no_done_job_names (p : string) (js : list Job) : Prop :=
  ∀ j, j ∈ js → status j = Done → filename j ≠ Some p.

(** ** Example worlds *)

Definition empty_world : World :=
  {| fs := ∅; fs_seen := []; storage_dir := true; users := ∅; jobs := [] |}.

Definition iso_example (t : Z) : string := "2025-11-18T18:34:22+00:00".

Definition day : Z := 86400.

(** ** The life of a job *)

(** The stages of the status: {created, processing}, then {done,
    failed}, then {deleted}. *)
Definition stage (s : Status) : Z :=
  match s with
  | Created | Processing => 0
  | Done | Failed => 1
  | Deleted => 2
  end.

(** A status is as it was or has moved to a later stage. *)
Definition forward (s s' : Status) : Prop := s' = s ∨ stage s < stage s'.

(** What the worker variant does to the world: a sweep, or the
    processing of a task whose identifier is not in the table yet (the
    identifier [enqueue] draws is fresh). *)
Inductive step : World → World → Prop :=
| step_sweep cfg F now w :
    step w (snd (Worker.cleanup_local_storage cfg F now w))
| step_process cfg F now isoformat text id owner w :
    Worker.get_job id (jobs w) = None →
    step w (snd (Worker.process_task cfg F now isoformat text id owner w)).

(** The table after some steps: the rows it had, each kept or marked
    deleted, followed by the rows added since. *)
Definition table_forward (js js' : list Job) : Prop :=
  ∃ old new, js' = old ++ new ∧ Forall2 kept_or_deleted js old.

(** The world without the rows of the deleted jobs. *)
Definition without_deleted (w : World) : World :=
  set_jobs (filter (λ j, status j ≠ Deleted) (jobs w)) w.

(** A program keeps a property of the job table, whatever it returns or
    raises. *)
Definition maintains {A} (P : list Job → Prop) (m : M World A) : Prop :=
  ∀ w, P (jobs w) → P (jobs (snd (m w))).

(** The table [js0] followed by rows of key [id]. *)
Definition appended (js0 : list Job) (id : string) (js : list Job) : Prop :=
  ∃ new, js = js0 ++ new ∧ Forall (λ j, job_id j = id) new.

(** Two worlds with the same files, the same ledger and the same
    storage directory. *)
Definition same_store (w1 w2 : World) : Prop :=
  fs w1 = fs w2 ∧ users w1 = users w2 ∧ storage_dir w1 = storage_dir w2.

Definition job_row (id : string) (owner : option Z) (st : Status) : Job :=
  {| job_id := id; owner_id := owner;
     filename := Some (job_file default_config id);
     size_bytes := Some 0; status := st; created_at := 0; processed_at := None |}.

(** A deleted job whose path holds a file again, next to a done job. *)
Definition life_world : World :=
  {| fs := {[ job_file default_config "a" := regular "aaaa" 0;
              job_file default_config "b" := regular "bb" 0 ]};
     fs_seen := []; storage_dir := true;
     users := {[ 1 := user_with (Some "free") (Some 10) ]};
     jobs := [job_row "a" (Some 1) Deleted; job_row "b" (Some 1) Done] |}.

(** ** The sweep of the current variant, one entry at a time *)

(** The exceptions the loop body of [Backend.cleanup_local_storage]
    catches. *)
Definition caught (e : exn) : bool :=
  match e with
  | FileNotFoundError | PermissionError => true
  | _ => false
  end.

(** The entry [p] can be removed by the sweep: it is a regular file older
    than the cutoff and the environment refuses none of the calls on it. *)
Definition entry_removable (F : Faults) (cutoff : Z) (m : gmap string File) (p : string)
  : bool :=
  negb (refused (fault_is_file F p)) &&
  match m !! p with
  | Some f => is_reg f && negb (refused (fault_stat F p)) && (st_mtime f <? cutoff)
              && negb (refused (fault_unlink F p))
  | None => false
  end.

Definition entry_step (F : Faults) (cutoff : Z) (p : string) (st : World * Z) : World * Z :=
  let '(w, n) := st in
  if entry_removable F cutoff (fs w) p then (set_fs (delete p (fs w)) w, n + 1)
  else (w, n).

Definition entry_fold (F : Faults) (cutoff : Z) (ps : list string) (st : World * Z)
  : World * Z :=
  fold_left (λ st p, entry_step F cutoff p st) ps st.

(** What the environment refuses on single entries is a vanished file or
    a permission error. *)
Definition benign (F : Faults) : Prop :=
  ∀ p e, (fault_is_file F p = Some e ∨ fault_stat F p = Some e
          ∨ fault_unlink F p = Some e) → caught e = true.

(** The modification times of the store are dates [datetime] can hold. *)
Definition mtimes_in_range (m : gmap string File) : Prop :=
  map_Forall (λ _ f, Backend.DATETIME_MIN ≤ st_mtime f ≤ Backend.DATETIME_MAX) m.

Global Instance mtimes_in_range_dec m : Decision (mtimes_in_range m).
Proof. unfold mtimes_in_range. apply _. Defined.

(** The cutoff of the sweep of the current variant is computed: no
    overflow of [timedelta] or [datetime]. *)
Definition cutoff_is (cfg : Config) (now cutoff : Z) : Prop :=
  ∃ delta, Backend.timedelta_days (RETENTION_DAYS cfg) = Ret delta
           ∧ Backend.datetime_sub now delta = Ret cutoff.

(** ** Worlds with refusals *)

(** Four files, three of them older than seven days at time [100 * day];
    each has a done job of owner 1. *)
Definition batch_world : World :=
  {| fs := {[ job_file default_config "a" := regular "aaaa" (10 * day);
              job_file default_config "b" := regular "bbb" (20 * day);
              job_file default_config "c" := regular "cc" (30 * day);
              job_file default_config "d" := regular "d" (99 * day) ]};
     fs_seen := []; storage_dir := true;
     users := {[ 1 := user_with (Some "free") (Some 10) ]};
     jobs := [job_row "a" (Some 1) Done; job_row "b" (Some 1) Done;
              job_row "c" (Some 1) Done; job_row "d" (Some 1) Done] |}.

(** The file of job b has vanished when the sweep looks at it; nothing
    else is refused. *)
Definition b_vanished : Faults :=
  {| fault_stat := λ p, if String.eqb p (job_file default_config "b")
                        then Some FileNotFoundError else None;
     fault_is_file := λ _, None;
     fault_unlink := λ p, if String.eqb p (job_file default_config "b")
                          then Some FileNotFoundError else None;
     fault_iterdir := None;
     fault_makedirs := None; fault_open := λ _, None;
     fault_write := λ _, None; fault_replace := λ _, None;
     fault_db_session := None; fault_db_insert := λ _, None;
     fault_db_query := None; fault_db_ledger := λ _, None;
     fault_db_commit := λ _, None; fault_db_commit_all := None;
     fault_s3_client := λ _, None; fault_s3_upload := λ _ _ _, None |}.

(** The database is unreachable; the storage directory cannot be listed. *)
Definition db_down : Faults :=
  {| fault_stat := λ _, None; fault_is_file := λ _, None;
     fault_unlink := λ _, None; fault_iterdir := None;
     fault_makedirs := None; fault_open := λ _, None;
     fault_write := λ _, None; fault_replace := λ _, None;
     fault_db_session := Some OperationalError; fault_db_insert := λ _, None;
     fault_db_query := Some OperationalError;
     fault_db_ledger := λ _, Some OperationalError;
     fault_db_commit := λ _, Some OperationalError;
     fault_db_commit_all := Some OperationalError;
     fault_s3_client := λ _, None; fault_s3_upload := λ _ _ _, None |}.

Definition root_unreadable : Faults :=
  {| fault_stat := λ _, None; fault_is_file := λ _, None;
     fault_unlink := λ _, None; fault_iterdir := Some PermissionError;
     fault_makedirs := None; fault_open := λ _, None;
     fault_write := λ _, None; fault_replace := λ _, None;
     fault_db_session := None; fault_db_insert := λ _, None;
     fault_db_query := None; fault_db_ledger := λ _, None;
     fault_db_commit := λ _, None; fault_db_commit_all := None;
     fault_s3_client := λ _, None; fault_s3_upload := λ _ _ _, None |}.

(** The report the specification gives for a sweep-level error:
    [{deleted: 0, error: <description>}]. *)
Definition error_report (d : pydict) : Prop :=
  dict_get d "deleted" = Some (PInt 0) ∧ ∃ s, dict_get d "error" = Some (PStr s).

(** Every sweep-level error is reported in that form, in both variants. *)
Definition sweep_errors_reported_with_count : Prop :=
  (∀ cfg F now w e, storage_dir w = true → fault_db_query F = Some e →
     ∃ d, fst (Worker.cleanup_local_storage cfg F now w) = Ret d ∧ error_report d)
  ∧ (∀ cfg have_db F now w e, fault_iterdir F = Some e →
     ∃ d, fst (Backend.cleanup_local_storage cfg have_db F now w) = Ret d
          ∧ error_report d).

(** [RETENTION_DAYS=d] in the environment. *)
Definition with_retention (d : Z) : Config :=
  {| STORAGE_DIR := "/data/storage"; RETENTION_DAYS := d;
     REMOVE_LOCAL_AFTER_UPLOAD := false;
     PLAN_FREE_BYTES := 524288000; PLAN_BASIC_BYTES := 5368709120;
     PLAN_PRO_BYTES := 21474836480;
     S3_ENDPOINT := ""; S3_BUCKET := ""; S3_ACCESS_KEY := ""; S3_SECRET_KEY := "" |}.

(** A store holding one payload written at time [t]. *)
Definition just_written (t : Z) : World :=
  {| fs := {[ job_file default_config "fresh" := regular "payload" t ]};
     fs_seen := []; storage_dir := true; users := ∅; jobs := [] |}.

(** ** The worker sweep when nothing is refused *)

(** The candidates of a worker sweep: the done jobs, in table order. *)
Definition candidates (w : World) : list Job :=
  filter (λ j, status j = Done) (jobs w).


(** The size of the file a job names, in the store [m]. *)
Definition size_of (m : gmap string File) (j : Job) : Z :=
  match m !! default "" (filename j) with
  | Some f => st_size f
  | None => 0
  end.

(** The job names a regular file of the store older than the cutoff. *)
Definition stale (cutoff : Z) (m : gmap string File) (j : Job) : bool :=
  removable no_faults cutoff m j.







(** A file whose age is exactly the threshold of seven days. *)
Definition threshold_world : World :=
  {| fs := {[ job_file default_config "edge" := regular "eeee" (93 * day) ]};
     fs_seen := []; storage_dir := true;
     users := {[ 1 := user_with (Some "free") (Some 100) ]};
     jobs := [job_row "edge" (Some 1) Done] |}.


(** ** Payload store *)

(** The path [target] holds, in the store [m], what it held in [m0] or
    the complete payload written at [now]. *)
Definition old_or_complete (m0 : gmap string File) (target payload : string) (now : Z)
    (m : gmap string File) : Prop :=
  m !! target = m0 !! target ∨ m !! target = Some (regular payload now).

(** The path is absent or holds the complete payload. *)
Definition absent_or_complete (target payload : string) (m : gmap string File) : Prop :=
  m !! target = None ∨ content <$> m !! target = Some payload.

(** The storage medium refuses the write of the payload with [e]: at the
    creation of the temporary file, while the bytes are written, or at
    the rename. *)
Definition unwritable (F : Faults) (tmp : string) (e : exn) : Prop :=
  fault_open F tmp = Some e
  ∨ (fault_open F tmp = None ∧ ∃ k, fault_write F tmp = Some (k, e))
  ∨ (fault_open F tmp = None ∧ fault_write F tmp = None
     ∧ fault_replace F tmp = Some e).

(** The bytes [process_task] writes for a task. *)
Definition task_content (isoformat : Z → string) (now : Z) (id text : string) : string :=
  (("" +:+ ("job_id: " +:+ id +:+ nl))
   +:+ ("timestamp: " +:+ isoformat now +:+ nl +:+ nl))
  +:+ (text +:+ nl).

(** The claim for the write of the worker variant: at every state the
    store goes through during [process_task], the file of a new job is
    absent or complete. *)
Definition process_task_writes_atomically : Prop :=
  ∀ cfg F now isoformat text id owner w,
    fs w !! job_file cfg id = None →
    ∀ m, m ∈ observed (snd (Worker.process_task cfg F now isoformat text id owner w)) →
         absent_or_complete (job_file cfg id) (task_content isoformat now id text) m.

(** The disk is full after the first three bytes of a write; the storage
    directory is not writable. *)
Definition disk_full : Faults :=
  {| fault_stat := λ _, None; fault_is_file := λ _, None;
     fault_unlink := λ _, None; fault_iterdir := None;
     fault_makedirs := None; fault_open := λ _, None;
     fault_write := λ _, Some (3%nat, OSError ENOSPC); fault_replace := λ _, None;
     fault_db_session := None; fault_db_insert := λ _, None;
     fault_db_query := None; fault_db_ledger := λ _, None;
     fault_db_commit := λ _, None; fault_db_commit_all := None;
     fault_s3_client := λ _, None; fault_s3_upload := λ _ _ _, None |}.

Definition read_only : Faults :=
  {| fault_stat := λ _, None; fault_is_file := λ _, None;
     fault_unlink := λ _, Some PermissionError; fault_iterdir := None;
     fault_makedirs := None; fault_open := λ _, Some PermissionError;
     fault_write := λ _, None; fault_replace := λ _, Some PermissionError;
     fault_db_session := None; fault_db_insert := λ _, None;
     fault_db_query := None; fault_db_ledger := λ _, None;
     fault_db_commit := λ _, None; fault_db_commit_all := None;
     fault_s3_client := λ _, None; fault_s3_upload := λ _ _ _, None |}.

(** ** Triples *)

(** From a world satisfying [P], the program ends in a world satisfying
    [Q] when it returns and [E] when it raises. *)
Definition triple {A} (P : World → Prop) (m : M World A)
    (Q : A → World → Prop) (E : exn → World → Prop) : Prop :=
  ∀ w, P w → match m w with
             | (Ret a, w') => Q a w'
             | (Raise e, w') => E e w'
             end.

(** The program keeps the invariant [I], however it ends. *)
Definition keeps {A} (I : World → Prop) (m : M World A) : Prop :=
  triple I m (λ _, I) (λ _, I).

(** The counters of the user table are non-negative. *)
Definition ledger_inv (w : World) : Prop := ledger_ok (users w).

(** ** The processing step when nothing is refused *)

(** The size of the file [process_task] writes. *)
Definition task_size (isoformat : Z → string) (now : Z) (id text : string) : Z :=
  Z.of_nat (String.length (task_content isoformat now id text)).

(** The row of a processed task. *)
Definition done_row (cfg : Config) (isoformat : Z → string) (now : Z)
    (id text : string) (owner : option Z) : Job :=
  Worker.set_processed (task_size isoformat now id text) (now + 1)
    (processing_row cfg now id owner).

(** The local file is removed after the upload. *)
Definition removes_local (cfg : Config) : bool :=
  Worker.s3_configured cfg && REMOVE_LOCAL_AFTER_UPLOAD cfg.

(** A user table with one owner, and the configuration of a deployment
    that uploads to S3 and removes the local copy. *)
Definition owner_world : World :=
  {| fs := ∅; fs_seen := []; storage_dir := true;
     users := {[ 7 := user_with (Some "free") (Some 100) ]}; jobs := [] |}.

Definition s3_config : Config :=
  {| STORAGE_DIR := "/data/storage"; RETENTION_DAYS := 7;
     REMOVE_LOCAL_AFTER_UPLOAD := true;
     PLAN_FREE_BYTES := 524288000; PLAN_BASIC_BYTES := 5368709120;
     PLAN_PRO_BYTES := 21474836480;
     S3_ENDPOINT := "https://s3.example.org/"; S3_BUCKET := "clips";
     S3_ACCESS_KEY := "key"; S3_SECRET_KEY := "secret" |}.

(** No done job of the world names a file that is there. *)
Definition done_files_gone (w : World) : Prop :=
  ∀ j, j ∈ candidates w → fs w !! default "" (filename j) = None.

(** ** Deletion by the owner *)

(** The response of a successful [delete_file]. *)
Definition deleted_response (id : string) : pydict :=
  [("deleted", PBool true); ("job_id", PStr id)].

(** The regular file a job names, if it is there. *)
Definition job_regular_file (m : gmap string File) (job : Job) : option File :=
  if truthy_str (filename job) then
    match m !! default "" (filename job) with
    | Some f => if is_reg f then Some f else None
    | None => None
    end
  else None.

(** One deleted job and one done job of owner 1, a job of owner 2, all
    with their files. *)
Definition delete_world : World :=
  {| fs := {[ job_file default_config "a" := regular "aaaa" 0;
              job_file default_config "b" := regular "bb" 0;
              job_file default_config "c" := regular "ccc" 0 ]};
     fs_seen := []; storage_dir := true;
     users := {[ 1 := user_with (Some "free") (Some 10);
                 2 := user_with (Some "free") (Some 10) ]};
     jobs := [job_row "a" (Some 1) Deleted; job_row "b" (Some 1) Done;
              job_row "c" (Some 2) Done; job_row "anon" None Processing] |}.

(** The database refuses the update of the counters, nothing else. *)
Definition db_ledger_down : Faults :=
  {| fault_stat := λ _, None; fault_is_file := λ _, None;
     fault_unlink := λ _, None; fault_iterdir := None;
     fault_makedirs := None; fault_open := λ _, None;
     fault_write := λ _, None; fault_replace := λ _, None;
     fault_db_session := None; fault_db_insert := λ _, None;
     fault_db_query := None; fault_db_ledger := λ _, Some OperationalError;
     fault_db_commit := λ _, None; fault_db_commit_all := None;
     fault_s3_client := λ _, None; fault_s3_upload := λ _ _ _, None |}.

(** ** Listing *)

(** The identifiers of the jobs of the user [uid], as the table holds
    them. *)
Definition listed_ids (uid : Z) (w : World) : list string :=
  map job_id (filter (λ j, owner_id j = Some uid) (jobs w)).

(** The database hands out the rows of a query in some order: all of
    them, each once. *)
Definition rearranges (db_order : list Job → list Job) : Prop :=
  ∀ l, db_order l ≡ₚ l.

(** ** Attribution of a saved payload *)

(** The database takes the attribution of a payload to [owner]: it is
    there, the owner is set, and neither the session nor the update of
    the counter is refused. *)
Definition attributed (have_db : bool) (F : Faults) (owner : option Z) : bool :=
  have_db && truthy_int owner && negb (refused (fault_db_session F))
  && negb (refused (fault_db_ledger F (default 0 owner))).

(** Two environments that refuse the same calls on the temporary path and
    on the final location of a payload. *)
Definition same_storage_faults (F F' : Faults) (tmp target : string) : Prop :=
  fault_open F tmp = fault_open F' tmp ∧ fault_write F tmp = fault_write F' tmp
  ∧ fault_replace F tmp = fault_replace F' tmp
  ∧ fault_stat F target = fault_stat F' target.

(** ** Reconciliation of the job table *)

(** The row [j'] is the row [j] after a reconciliation against the store
    [m]: marked deleted when it names a file that is not there, the same
    otherwise. *)
Definition reconciled (cfg : Config) (m : gmap string File) (j j' : Job) : Prop :=
  match filename j with
  | Some f =>
      if bool_decide (is_Some (m !! os_path_join (STORAGE_DIR cfg) f))
      then j' = j else j' = set_status Deleted j
  | None => j' = j
  end.

(** A name of an entry of the storage directory: not empty, no
    separator, neither [.] nor [..]. *)
Fixpoint has_slash (s : string) : bool :=
  match s with
  | EmptyString => false
  | String c s' => Ascii.eqb c slash || has_slash s'
  end.

Definition entry_name (f : string) : bool :=
  negb (has_slash f) && negb (String.eqb f "") && negb (String.eqb f ".")
  && negb (String.eqb f "..").

(** The rows that name a file name an entry of the storage directory. *)
Definition names_entries (js : list Job) : Prop :=
  Forall (λ j, match filename j with Some f => entry_name f = true | None => True end) js.

Global Instance names_entries_dec js : Decision (names_entries js).
Proof.
  unfold names_entries. apply Forall_dec. intros j. destruct (filename j); apply _.
Defined.

(** The database takes the reconciliation. *)
Definition db_reconciles (have_db : bool) (F : Faults) : bool :=
  have_db && negb (refused (fault_db_session F)) && negb (refused (fault_db_query F))
  && negb (refused (fault_db_commit_all F)).

(** No [stat] of a file named by a row is refused; the [stat] of a file
    named by some row is refused with an error [Path.exists()] raises. *)
Definition stats_answer (cfg : Config) (F : Faults) (js : list Job) : Prop :=
  Forall (λ j, match filename j with
               | Some f => fault_stat F (os_path_join (STORAGE_DIR cfg) f) = None
               | None => True
               end) js.

Definition stat_forbidden (cfg : Config) (F : Faults) (js : list Job) : Prop :=
  Exists (λ j, match filename j with
               | Some f =>
                   ∃ e, fault_stat F (os_path_join (STORAGE_DIR cfg) f) = Some e
                        ∧ Backend.ignored_by_exists e = false
               | None => False
               end) js.

(** A file kept by the sweep, three jobs: one names it, one names a file
    that is gone, one names nothing. *)
Definition reconcile_world : World :=
  {| fs := {[ "/data/storage/kept.txt" := regular "k" (99 * day) ]};
     fs_seen := []; storage_dir := true; users := ∅;
     jobs := [ {| job_id := "k"; owner_id := None; filename := Some "kept.txt";
                  size_bytes := Some 1; status := Done; created_at := 0;
                  processed_at := None |};
               {| job_id := "g"; owner_id := None; filename := Some "gone.txt";
                  size_bytes := Some 1; status := Processing; created_at := 0;
                  processed_at := None |};
               {| job_id := "n"; owner_id := None; filename := None;
                  size_bytes := None; status := Created; created_at := 0;
                  processed_at := None |} ] |}.

(** ** Requests *)

Fixpoint has_space (s : string) : bool :=
  match s with
  | EmptyString => false
  | String c s' => Ascii.eqb c BackendApi.space || has_space s'
  end.

(** The write of the payload of a request and the reading of its size go
    through: nothing is refused on the temporary path nor on the final
    location. *)
Definition storage_ok (F : Faults) (tmp target : string) : bool :=
  negb (refused (fault_open F tmp)) && negb (refused (fault_write F tmp))
  && negb (refused (fault_replace F tmp)) && negb (refused (fault_stat F target)).

(** The body of the answer to an accepted request. *)
Definition enqueued_response (id : string) : pydict :=
  [("enqueued", PBool true); ("job_id", PStr id); ("rq_id", PStr id)].

(** ** An unreadable entry *)



(** ** A refused S3 client, a refused transfer *)

(** The library refuses to build a client for the endpoint with [e];
    the transfer is refused with [e]. Nothing else is refused. *)
Definition s3_client_refused (e : exn) : Faults :=
  {| fault_stat := λ _, None; fault_is_file := λ _, None;
     fault_unlink := λ _, None; fault_iterdir := None;
     fault_makedirs := None; fault_open := λ _, None;
     fault_write := λ _, None; fault_replace := λ _, None;
     fault_db_session := None; fault_db_insert := λ _, None;
     fault_db_query := None; fault_db_ledger := λ _, None;
     fault_db_commit := λ _, None; fault_db_commit_all := None;
     fault_s3_client := λ _, Some e; fault_s3_upload := λ _ _ _, None |}.

Definition s3_transfer_refused (e : exn) : Faults :=
  {| fault_stat := λ _, None; fault_is_file := λ _, None;
     fault_unlink := λ _, None; fault_iterdir := None;
     fault_makedirs := None; fault_open := λ _, None;
     fault_write := λ _, None; fault_replace := λ _, None;
     fault_db_session := None; fault_db_insert := λ _, None;
     fault_db_query := None; fault_db_ledger := λ _, None;
     fault_db_commit := λ _, None; fault_db_commit_all := None;
     fault_s3_client := λ _, None; fault_s3_upload := λ _ _ _, Some e |}.

(** * Properties *)

Lemma ledger_ok_alter (f : User → User) uid (us : gmap Z User) :
  ledger_ok us →
  (∀ u, 0 ≤ COALESCE (storage_used_bytes u) 0 →
        0 ≤ COALESCE (storage_used_bytes (f u)) 0) →
  ledger_ok (alter f uid us).
Proof.
  intros Hok Hf k u. rewrite lookup_alter. case_decide as Hk.
  - subst k. destruct (us !! uid) as [u0|] eqn:E; simpl; [|done].
    intros [= <-]. apply Hf. exact (Hok _ _ E).
  - intros E. exact (Hok _ _ E).
Qed.

Lemma run_ledger_op_ok F op w :
  byte_delta op → ledger_ok (users w) → ledger_ok (users (snd (run_ledger_op F op w))).
Proof.
  intros Hd Hok. destruct op as [uid d|uid d]; simpl in *;
    unfold Worker._inc_user_storage, Worker._dec_user_storage, bind, may_fail,
      raise, ret, modify;
    destruct (fault_db_ledger F uid); simpl; try done.
  - apply ledger_ok_alter; [done|]. intros u Hu. simpl. lia.
  - apply ledger_ok_alter; [done|]. intros u Hu. simpl. unfold GREATEST. lia.
Qed.

Lemma run_ledger_ops_ok F ops : ∀ w,
  Forall byte_delta ops → ledger_ok (users w) →
  ledger_ok (users (run_ledger_ops F ops w)).
Proof.
  induction ops as [|op ops IH]; intros w Hd Hok; simpl; [done|].
  inversion Hd; subst. apply IH; [done|]. by apply run_ledger_op_ok.
Qed.

Lemma balance_nonneg (us : gmap Z User) uid :
  ledger_ok us → 0 ≤ Worker.balance us uid.
Proof.
  intros Hok. unfold Worker.balance.
  destruct (us !! uid) as [u|] eqn:E; [exact (Hok _ _ E)|lia].
Qed.

(** C2. From a user table whose counters are non-negative, after every
    prefix of every sequence of ledger increments and decrements (the
    increments adding byte counts, the database refusing whichever calls it
    likes), every owner's [storage_used_bytes] is a non-negative integer;
    and a decrement by more than the current balance leaves the counter
    at zero. *)
Theorem ledger_never_negative (F : Faults) (ops : list ledger_op) (w : World) :
  ledger_ok (users w) →
  Forall byte_delta ops →
  (∀ n uid, 0 ≤ Worker.balance (users (run_ledger_ops F (take n ops) w)) uid)
  ∧ (∀ n, ledger_ok (users (run_ledger_ops F (take n ops) w)))
  ∧ (∀ uid d, fault_db_ledger F uid = None →
       Worker.balance (users w) uid < d →
       Worker.balance (users (snd (Worker._dec_user_storage F uid d w))) uid = 0
       ∧ (is_Some (users w !! uid) →
          storage_used_bytes
            <$> users (snd (Worker._dec_user_storage F uid d w)) !! uid
          = Some (Some 0))).
Proof.
  intros Hok Hd.
  assert (Hpre : ∀ n, ledger_ok (users (run_ledger_ops F (take n ops) w))).
  { intros n. apply run_ledger_ops_ok; [|done]. by apply Forall_take. }
  split; [|split]; [intros n uid; by apply balance_nonneg|done|].
  intros uid d HF Hlt.
  unfold Worker._dec_user_storage, bind, may_fail, ret, modify. rewrite HF. simpl.
  unfold Worker.balance, Worker.sql_dec in *. rewrite lookup_alter_eq.
  destruct (users w !! uid) as [u|] eqn:E; simpl.
  - unfold GREATEST. split; [lia|]. intros _. do 2 f_equal. lia.
  - split; [done|]. by intros [? ?].
Qed.

Lemma ledger_never_negative_witness :
  Worker.balance
    (users (run_ledger_ops no_faults
              (take 3 [Increment 1 50; Decrement 1 400; Decrement 2 7; Increment 2 9])
              ledger_world)) 1 = 0
  ∧ 0 ≤ Worker.balance
          (users (run_ledger_ops no_faults
                    (take 3 [Increment 1 50; Decrement 1 400; Decrement 2 7; Increment 2 9])
                    ledger_world)) 1.
Proof.
  split; [vm_compute; reflexivity|].
  refine (proj1 (ledger_never_negative no_faults
            [Increment 1 50; Decrement 1 400; Decrement 2 7; Increment 2 9]
            ledger_world _ _) 3%nat 1).
  - apply (bool_decide_unpack _). vm_compute. exact I.
  - repeat constructor; simpl; lia.
Defined.

(** ** Quota guard *)

Lemma int_or_0 (x : option Z) : int_or x 0 = COALESCE x 0.
Proof.
  unfold int_or, truthy_int, COALESCE. destruct x as [n|]; simpl; [|done].
  destruct (Z.eqb_spec n 0); simpl; congruence.
Qed.

(** C3. The guard denies exactly when the owner's current usage plus the
    incoming estimate strictly exceeds the quota of the owner's plan;
    [enqueue] answers 403 exactly when the guard denies its estimate; the
    quota is the ceiling of the plan name in the fixed three-entry table,
    and the ceiling of the free tier for a missing, empty or unrecognised
    plan; with quota 1000 and usage 900 an estimate of 150 is denied, one
    of 50 is allowed, and once those 50 are committed to the ledger an
    estimate of 60 is denied. *)
Theorem quota_guard_admission :
  (∀ cfg user est,
     Worker.quota_exceeded cfg user est = true
     ↔ COALESCE (storage_used_bytes user) 0 + est > Worker.plan_quota cfg user)
  ∧ (∀ cfg text uid user uuid,
       denied (Worker.enqueue cfg text uid user uuid)
       ↔ Worker.quota_exceeded cfg user (Worker.estimated_size text) = true)
  ∧ (∀ cfg text uid user uuid,
       ¬ denied (Worker.enqueue cfg text uid user uuid)
       → ∃ resp, Worker.enqueue cfg text uid user uuid
                 = Ret (resp, {| Worker.task_text := text; Worker.task_job_id := uuid;
                                 Worker.task_owner_id := Some uid |}))
  ∧ (∀ cfg used,
       Worker.plan_quota cfg (user_with (Some "free") used) = PLAN_FREE_BYTES cfg
       ∧ Worker.plan_quota cfg (user_with (Some "basic") used) = PLAN_BASIC_BYTES cfg
       ∧ Worker.plan_quota cfg (user_with (Some "pro") used) = PLAN_PRO_BYTES cfg
       ∧ Worker.plan_quota cfg (user_with None used) = PLAN_FREE_BYTES cfg
       ∧ Worker.plan_quota cfg (user_with (Some "") used) = PLAN_FREE_BYTES cfg)
  ∧ (∀ cfg p used, p ≠ "free" → p ≠ "basic" → p ≠ "pro" →
       Worker.plan_quota cfg (user_with (Some p) used) = PLAN_FREE_BYTES cfg)
  ∧ (let u := user_with (Some "free") (Some 900) in
     let w := {| fs := ∅; fs_seen := []; storage_dir := true;
                 users := {[ 1 := u ]}; jobs := [] |} in
     Worker.plan_quota quota1000 u = 1000
     ∧ Worker.quota_exceeded quota1000 u 150 = true
     ∧ Worker.quota_exceeded quota1000 u 50 = false
     ∧ ∃ u', users (snd (Worker._inc_user_storage no_faults 1 50 w)) !! 1 = Some u'
             ∧ storage_used_bytes u' = Some 950
             ∧ Worker.quota_exceeded quota1000 u' 60 = true).
Proof.
  split; [|split; [|split; [|split; [|split]]]].
  - intros cfg user est. unfold Worker.quota_exceeded. rewrite int_or_0.
    rewrite Z.ltb_lt. lia.
  - intros cfg text uid user uuid. unfold denied, Worker.enqueue.
    destruct (Worker.quota_exceeded _ _ _); split; congruence.
  - intros cfg text uid user uuid. unfold denied, Worker.enqueue.
    destruct (Worker.quota_exceeded _ _ _); [congruence|]. eauto.
  - intros cfg used. repeat split; reflexivity.
  - intros cfg p used Hf Hb Hp.
    unfold Worker.plan_quota, str_or, truthy_str, user_with.
    cbn [plan default negb].
    destruct (String.eqb_spec p ""); [reflexivity|].
    cbn [negb default]. unfold dict_get_default, Worker.quotas, dict_get.
    assert (Hne : ∀ a b : string, a ≠ b → String.eqb a b = false)
      by (intros a b; apply String.eqb_neq).
    change (id p) with p.
    rewrite (Hne "free" p), (Hne "basic" p), (Hne "pro" p) by (intros E; auto).
    reflexivity.
  - simpl. repeat split; try reflexivity.
    eexists. split; [vm_compute; reflexivity|]. split; reflexivity.
Qed.

Lemma quota_guard_admission_witness :
  Worker.plan_quota default_config (user_with (Some "enterprise") (Some 0))
  = 524288000
  ∧ denied (Worker.enqueue quota1000 "hello" 1 (user_with (Some "free") (Some 900))
              "u1").
Proof.
  split.
  - apply (proj1 (proj2 (proj2 (proj2 (proj2 quota_guard_admission))))
             default_config "enterprise" (Some 0)); discriminate.
  - apply (proj1 (proj2 quota_guard_admission)). reflexivity.
Defined.

(** ** The worker sweep *)

Ltac unfold_prog :=
  repeat (progress unfold try_except, bind, lift, lift_res, may_fail, raise, ret,
            get, modify, os_path_isfile, os_path_getmtime, os_path_getsize,
            os_stat, os_remove, os_path_isdir, with_local in * ).

Lemma sweep_job_step F cutoff job st :
  Worker.sweep_job F cutoff job st = (Ret tt, sweep_step F cutoff job st).
Proof.
  destruct st as [w n]. unfold Worker.sweep_job, sweep_step, removable.
  unfold Worker._dec_user_storage, Worker.commit_job. unfold_prog.
  destruct (truthy_str (filename job)); simpl; [|done].
  destruct (fs w !! default "" (filename job)) as [f|] eqn:Ef; simpl; [|done].
  destruct (is_reg f); simpl; [|done].
  destruct (fault_stat F _); simpl; [done|].
  rewrite Ef; simpl.
  destruct (st_mtime f <? cutoff); simpl; [|done].
  rewrite Ef; simpl.
  destruct (fault_unlink F _); simpl; [done|].
  rewrite Ef; simpl.
  destruct (truthy_int (owner_id job)); simpl.
  - destruct (fault_db_ledger F _); simpl; [done|].
    destruct (fault_db_commit F _); simpl; done.
  - destruct (fault_db_commit F _); simpl; done.
Qed.

Lemma sweep_loop F cutoff js : ∀ st,
  for_each js (Worker.sweep_job F cutoff) st
  = (Ret tt, fold_left (λ st j, sweep_step F cutoff j st) js st).
Proof.
  induction js as [|j js IH]; intros st; simpl; [done|].
  unfold bind. rewrite sweep_job_step. apply IH.
Qed.

Lemma cleanup_unfold cfg F now w :
  Worker.cleanup_local_storage cfg F now w =
  match int_to_float (RETENTION_DAYS cfg * 86400) with
  | Raise e => (Ret [("error", PStr (str_exn e))], w)
  | Ret secs =>
      if storage_dir w then
        match fault_db_query F with
        | Some e => (Ret [("error", PStr (str_exn e))], w)
        | None =>
            (Ret [("deleted", PInt (snd (sweep_all F (now - secs) w)))],
             fst (sweep_all F (now - secs) w))
        end
      else (Ret [("deleted", PInt 0); ("reason", PStr "no_dir")], w)
  end.
Proof.
  unfold Worker.cleanup_local_storage, Worker.select_done, sweep_all, sweep_fold.
  unfold_prog.
  destruct (int_to_float _) as [secs|e]; simpl; [|done].
  destruct (storage_dir w); simpl; [|done].
  destruct (fault_db_query F); simpl; [done|].
  rewrite sweep_loop. simpl.
  destruct (fold_left _ _ _) as [w' n']. done.
Qed.

Lemma cleanup_ok cfg F now w :
  sweep_level_ok cfg F w →
  Worker.cleanup_local_storage cfg F now w =
  (Ret [("deleted", PInt (snd (sweep_all F (cutoff_ts cfg now) w)))],
   fst (sweep_all F (cutoff_ts cfg now) w)).
Proof.
  intros (Hf & Hd & Hq). rewrite cleanup_unfold, Hf, Hd, Hq. done.
Qed.

(** *** One candidate *)

Lemma removable_spec F cutoff (m : gmap string File) job :
  removable F cutoff m job = true ↔
  ∃ p f, filename job = Some p ∧ p ≠ "" ∧ m !! p = Some f ∧ is_reg f = true
         ∧ fault_stat F p = None ∧ st_mtime f < cutoff ∧ fault_unlink F p = None.
Proof.
  unfold removable, truthy_str. split.
  - destruct (filename job) as [p|]; simpl; [|done].
    destruct (String.eqb_spec p ""); simpl; [done|].
    destruct (m !! p) as [f|] eqn:Em; [|done].
    intros H. repeat (apply andb_prop in H as [H ?]).
    exists p, f. repeat split; try done.
    + by destruct (fault_stat F p).
    + by apply Z.ltb_lt.
    + by destruct (fault_unlink F p).
  - intros (p & f & -> & Hp & Hf & Hr & Hs & Hm & Hu). simpl.
    rewrite Hf, Hr, Hs, Hu. simpl. apply Z.ltb_lt in Hm. rewrite Hm.
    destruct (String.eqb_spec p ""); done.
Qed.

Lemma sweep_step_fs F cutoff job w n :
  fs (fst (sweep_step F cutoff job (w, n))) =
  if removable F cutoff (fs w) job
  then delete (default "" (filename job)) (fs w) else fs w.
Proof.
  unfold sweep_step. destruct (removable _ _ _ _); [|done].
  repeat (match goal with |- context [if ?b then _ else _] => destruct b end); done.
Qed.

Lemma sweep_step_count F cutoff job w n :
  snd (sweep_step F cutoff job (w, n)) =
  if removable F cutoff (fs w) job then n + 1 else n.
Proof.
  unfold sweep_step. destruct (removable _ _ _ _); [|done].
  repeat (match goal with |- context [if ?b then _ else _] => destruct b end); done.
Qed.


(** The rows of the job table after one candidate: every row is as it
    was or has been marked deleted, and only rows with the key of the
    candidate change. *)
Lemma sweep_step_jobs F cutoff job w n :
  jobs (fst (sweep_step F cutoff job (w, n))) = jobs w
  ∨ (removable F cutoff (fs w) job = true
     ∧ jobs (fst (sweep_step F cutoff job (w, n)))
       = Worker.update_job (job_id job) (set_status Deleted) (jobs w)).
Proof.
  unfold sweep_step. destruct (removable _ _ _ _); [|by left].
  repeat (match goal with |- context [if ?b then _ else _] => destruct b end);
    simpl; auto.
Qed.

Lemma sweep_step_users F cutoff job w n :
  users (fst (sweep_step F cutoff job (w, n))) = users w
  ∨ (∃ f, removable F cutoff (fs w) job = true
          ∧ truthy_int (owner_id job) = true
          ∧ fs w !! default "" (filename job) = Some f
          ∧ users (fst (sweep_step F cutoff job (w, n)))
            = Worker.sql_dec (default 0 (owner_id job)) (st_size f) (users w)).
Proof.
  unfold sweep_step. destruct (removable _ _ _ _) eqn:Hr; [|by left].
  apply removable_spec in Hr as (p & f & Hp & _ & Hf & _).
  rewrite Hp in *. simpl in *. rewrite Hf.
  destruct (truthy_int (owner_id job)); simpl.
  - destruct (refused (fault_db_ledger F _)); simpl; [by left|].
    destruct (refused (fault_db_commit F _)); simpl; right; exists f; done.
  - destruct (refused (fault_db_commit F _)); simpl; by left.
Qed.

(** *** The loop *)

Lemma sweep_fold_cons F cutoff j js st :
  sweep_fold F cutoff (j :: js) st = sweep_fold F cutoff js (sweep_step F cutoff j st).
Proof. reflexivity. Qed.






Lemma update_job_kept id (js : list Job) :
  Forall2 kept_or_deleted js (Worker.update_job id (set_status Deleted) js).
Proof.
  induction js as [|j js IH]; simpl; constructor; [|done].
  destruct (String.eqb _ _); [by right|by left].
Qed.

Lemma kept_or_deleted_trans j1 j2 j3 :
  kept_or_deleted j1 j2 → kept_or_deleted j2 j3 → kept_or_deleted j1 j3.
Proof. intros [->| ->] [->| ->]; unfold kept_or_deleted; auto. Qed.

Lemma Forall2_kept_refl js : Forall2 kept_or_deleted js js.
Proof. induction js; constructor; [by left|done]. Qed.

Lemma Forall2_kept_trans js1 : ∀ js2 js3,
  Forall2 kept_or_deleted js1 js2 → Forall2 kept_or_deleted js2 js3 →
  Forall2 kept_or_deleted js1 js3.
Proof.
  induction js1 as [|j js1 IH]; intros js2 js3 H1 H2.
  - inversion H1; subst. inversion H2; subst. constructor.
  - inversion H1; subst. inversion H2; subst. constructor.
    + eapply kept_or_deleted_trans; eauto.
    + eapply IH; eauto.
Qed.

Lemma sweep_fold_jobs F cutoff js : ∀ w n,
  Forall2 kept_or_deleted (jobs w) (jobs (fst (sweep_fold F cutoff js (w, n)))).
Proof.
  induction js as [|j js IH]; intros w n; [apply Forall2_kept_refl|].
  rewrite sweep_fold_cons.
  destruct (sweep_step F cutoff j (w, n)) as [w1 n1] eqn:E.
  eapply Forall2_kept_trans; [|apply IH].
  assert (E1 : jobs w1 = jobs (fst (sweep_step F cutoff j (w, n)))) by (by rewrite E).
  rewrite E1.
  destruct (sweep_step_jobs F cutoff j w n) as [->|[_ ->]];
    [apply Forall2_kept_refl|apply update_job_kept].
Qed.

Lemma sweep_fold_ledger_ok F cutoff js : ∀ w n,
  ledger_ok (users w) → ledger_ok (users (fst (sweep_fold F cutoff js (w, n)))).
Proof.
  induction js as [|j js IH]; intros w n Hok; [done|].
  rewrite sweep_fold_cons.
  destruct (sweep_step F cutoff j (w, n)) as [w1 n1] eqn:E.
  apply IH.
  assert (E1 : users w1 = users (fst (sweep_step F cutoff j (w, n)))) by (by rewrite E).
  rewrite E1.
  destruct (sweep_step_users F cutoff j w n) as [->|(f & _ & _ & _ & ->)]; [done|].
  apply ledger_ok_alter; [done|]. intros u _. simpl. unfold GREATEST. lia.
Qed.

(** *** Frames *)

Lemma preserves_ret {S A X} (proj : S → X) (a : A) : preserves proj (ret a).
Proof. by intros s. Qed.

Lemma preserves_raise {S A X} (proj : S → X) e : preserves proj (@raise S A e).
Proof. by intros s. Qed.

Lemma preserves_may_fail {S X} (proj : S → X) f : preserves proj (may_fail f).
Proof. destruct f; by intros s. Qed.

Lemma preserves_bind {S A B X} (proj : S → X) (m : M S A) (k : A → M S B) :
  preserves proj m → (∀ a, preserves proj (k a)) → preserves proj (bind m k).
Proof.
  intros Hm Hk s. unfold bind. specialize (Hm s).
  destruct (m s) as [[a|e] s']; simpl in *; [|done].
  by rewrite Hk.
Qed.

Lemma preserves_try_except {S A X} (proj : S → X) (m : M S A) h :
  preserves proj m → (∀ e, preserves proj (h e)) → preserves proj (try_except m h).
Proof.
  intros Hm Hh s. unfold try_except. specialize (Hm s).
  destruct (m s) as [[a|e] s']; simpl in *; [done|].
  by rewrite Hh.
Qed.

Lemma preserves_if {S A X} (proj : S → X) (b : bool) (m1 m2 : M S A) :
  preserves proj m1 → preserves proj m2 → preserves proj (if b then m1 else m2).
Proof. by destruct b. Qed.

Lemma open_w_jobs F now p : preserves jobs (open_w F now p).
Proof. unfold open_w. apply preserves_bind; [apply preserves_may_fail|]. by intros _ s. Qed.

Lemma open_w_users F now p : preserves users (open_w F now p).
Proof. unfold open_w. apply preserves_bind; [apply preserves_may_fail|]. by intros _ s. Qed.

Lemma file_write_jobs F now p d : preserves jobs (file_write F now p d).
Proof. intros s. unfold file_write. by destruct (fault_write F p) as [[k e]|]. Qed.

Lemma file_write_users F now p d : preserves users (file_write F now p d).
Proof. intros s. unfold file_write. by destruct (fault_write F p) as [[k e]|]. Qed.

Lemma os_stat_same F p : ∀ w, snd (os_stat F p w) = w.
Proof. intros w. unfold os_stat. destruct (fault_stat F p); [done|]. by destruct (fs w !! p). Qed.

Lemma os_path_getsize_same F p : ∀ w, snd (os_path_getsize F p w) = w.
Proof.
  intros w. unfold os_path_getsize, bind. pose proof (os_stat_same F p w) as H.
  destruct (os_stat F p w) as [[f|e] w']; simpl in *; by subst.
Qed.

Lemma os_remove_jobs F p : preserves jobs (os_remove F p).
Proof.
  intros w. unfold os_remove. destruct (fault_unlink F p); [done|].
  by destruct (fs w !! p).
Qed.

Lemma os_remove_users F p : preserves users (os_remove F p).
Proof.
  intros w. unfold os_remove. destruct (fault_unlink F p); [done|].
  by destruct (fs w !! p).
Qed.

Lemma os_makedirs_jobs F : preserves jobs (Worker.os_makedirs F).
Proof.
  unfold Worker.os_makedirs. apply preserves_bind; [apply preserves_may_fail|].
  by intros _ s.
Qed.

Lemma os_makedirs_users F : preserves users (Worker.os_makedirs F).
Proof.
  unfold Worker.os_makedirs. apply preserves_bind; [apply preserves_may_fail|].
  by intros _ s.
Qed.

Lemma os_makedirs_fs F : preserves fs (Worker.os_makedirs F).
Proof.
  unfold Worker.os_makedirs. apply preserves_bind; [apply preserves_may_fail|].
  by intros _ s.
Qed.

Lemma insert_job_users F j : preserves users (Worker.insert_job F j).
Proof.
  unfold Worker.insert_job. apply preserves_bind; [apply preserves_may_fail|].
  intros _ w. by destruct (Worker.get_job _ _).
Qed.

Lemma insert_job_fs F j : preserves fs (Worker.insert_job F j).
Proof.
  unfold Worker.insert_job. apply preserves_bind; [apply preserves_may_fail|].
  intros _ w. by destruct (Worker.get_job _ _).
Qed.

(** *** Files no done job names *)

Lemma sweep_fold_untouched F cutoff p js : ∀ w n,
  (∀ j, j ∈ js → filename j ≠ Some p) →
  fs (fst (sweep_fold F cutoff js (w, n))) !! p = fs w !! p.
Proof.
  induction js as [|j js IH]; intros w n Hjs; [done|].
  rewrite sweep_fold_cons.
  destruct (sweep_step F cutoff j (w, n)) as [w1 n1] eqn:E.
  rewrite IH by (intros j' Hj'; apply Hjs; by apply elem_of_cons; right).
  assert (E1 : fs w1 = fs (fst (sweep_step F cutoff j (w, n)))) by (by rewrite E).
  rewrite E1, sweep_step_fs.
  destruct (removable F cutoff (fs w) j) eqn:Hr; [|done].
  apply removable_spec in Hr as (q & f & Hq & _).
  rewrite Hq. simpl. apply lookup_delete_ne. intros ->.
  apply (Hjs j); [by apply elem_of_cons; left|done].
Qed.

Lemma kept_no_done_job_names p js js' :
  Forall2 kept_or_deleted js js' → no_done_job_names p js → no_done_job_names p js'.
Proof.
  intros H Hno j' Hin Hst.
  apply list_elem_of_lookup in Hin as [i Hi].
  destruct (Forall2_lookup_r _ _ _ _ _ H Hi) as (j & Hj & [->| ->]).
  - apply Hno; [|done]. apply list_elem_of_lookup. eauto.
  - done.
Qed.

Lemma cleanup_keeps_unnamed cfg F now w p :
  no_done_job_names p (jobs w) →
  fs (snd (Worker.cleanup_local_storage cfg F now w)) !! p = fs w !! p
  ∧ no_done_job_names p (jobs (snd (Worker.cleanup_local_storage cfg F now w))).
Proof.
  intros Hno. rewrite cleanup_unfold.
  destruct (int_to_float _) as [secs|e]; simpl; [|done].
  destruct (storage_dir w); simpl; [|done].
  destruct (fault_db_query F); simpl; [done|].
  unfold sweep_all. split.
  - apply sweep_fold_untouched. intros j Hj.
    apply list_elem_of_filter in Hj as [Hd Hj]. by apply Hno.
  - eapply kept_no_done_job_names; [apply sweep_fold_jobs|done].
Qed.

Lemma run_sweeps_keep_unnamed p l : ∀ w,
  no_done_job_names p (jobs w) →
  fs (run_sweeps l w) !! p = fs w !! p
  ∧ no_done_job_names p (jobs (run_sweeps l w)).
Proof.
  induction l as [|[[cfg F] now] l IH]; intros w Hno; [done|].
  simpl. destruct (cleanup_keeps_unnamed cfg F now w p Hno) as [Hfs Hno'].
  destruct (IH _ Hno') as [H1 H2]. split; [by rewrite H1|done].
Qed.

(** *** The processing step without an owner *)

Lemma try_insert_job F j w :
  fst (try_except (Worker.insert_job F j) (λ _, ret tt) w) = Ret tt
  ∧ (jobs (snd (try_except (Worker.insert_job F j) (λ _, ret tt) w)) = jobs w
     ∨ (Worker.get_job (job_id j) (jobs w) = None
        ∧ fault_db_insert F (job_id j) = None
        ∧ jobs (snd (try_except (Worker.insert_job F j) (λ _, ret tt) w))
          = jobs w ++ [j])).
Proof.
  unfold Worker.insert_job. unfold_prog.
  destruct (fault_db_insert F (job_id j)); simpl; [by auto|].
  destruct (Worker.get_job _ _); simpl; by auto.
Qed.

Lemma upload_to_s3_same cfg F p o w : snd (Worker.upload_to_s3 cfg F p o w) = w.
Proof.
  unfold Worker.upload_to_s3. destruct (Worker.s3_configured cfg); simpl; [|done].
  unfold_prog. destruct (fault_s3_client F _); simpl; [done|].
  destruct (fs w !! p) as [f|]; simpl; [|done].
  destruct (is_reg f); simpl; [|done].
  by destruct (fault_s3_upload F _ _ _).
Qed.

Lemma upload_to_s3_preserves {X} (proj : World → X) cfg F p o :
  preserves proj (Worker.upload_to_s3 cfg F p o).
Proof. intros w. by rewrite upload_to_s3_same. Qed.

Lemma process_task_tail_jobs cfg F now (isoformat : Z → string) text id fname :
  preserves jobs
    (open_w F now fname ;;;
     file_write F now fname ("job_id: " +:+ id +:+ nl) ;;;
     file_write F now fname ("timestamp: " +:+ isoformat now +:+ nl +:+ nl) ;;;
     file_write F now fname (text +:+ nl) ;;;
     let* size := try_except (os_path_getsize F fname) (λ _, ret 0) in
     ret tt ;;;
     let* up := Worker.upload_to_s3 cfg F fname ("outputs/" +:+ id +:+ ".txt") in
     (if Worker.uploaded up && REMOVE_LOCAL_AFTER_UPLOAD cfg
      then try_except (os_remove F fname) (λ _, ret tt)
      else ret tt) ;;;
     ret {| Worker.r_job_id := id; Worker.r_local_path := fname;
            Worker.r_s3 := up |}).
Proof.
  apply preserves_bind; [apply open_w_jobs|intros _].
  do 3 (apply preserves_bind; [apply file_write_jobs|intros _]).
  apply preserves_bind; [|intros size].
  { apply preserves_try_except; [|intros; apply preserves_ret].
    intros w. by rewrite os_path_getsize_same. }
  apply preserves_bind; [apply preserves_ret|intros _].
  apply preserves_bind; [apply upload_to_s3_preserves|intros up].
  apply preserves_bind; [|intros _; apply preserves_ret].
  apply preserves_if; [|apply preserves_ret].
  apply preserves_try_except; [apply os_remove_jobs|intros; apply preserves_ret].
Qed.

Lemma process_task_tail_users cfg F now (isoformat : Z → string) text id fname :
  preserves users
    (open_w F now fname ;;;
     file_write F now fname ("job_id: " +:+ id +:+ nl) ;;;
     file_write F now fname ("timestamp: " +:+ isoformat now +:+ nl +:+ nl) ;;;
     file_write F now fname (text +:+ nl) ;;;
     let* size := try_except (os_path_getsize F fname) (λ _, ret 0) in
     ret tt ;;;
     let* up := Worker.upload_to_s3 cfg F fname ("outputs/" +:+ id +:+ ".txt") in
     (if Worker.uploaded up && REMOVE_LOCAL_AFTER_UPLOAD cfg
      then try_except (os_remove F fname) (λ _, ret tt)
      else ret tt) ;;;
     ret {| Worker.r_job_id := id; Worker.r_local_path := fname;
            Worker.r_s3 := up |}).
Proof.
  apply preserves_bind; [apply open_w_users|intros _].
  do 3 (apply preserves_bind; [apply file_write_users|intros _]).
  apply preserves_bind; [|intros size].
  { apply preserves_try_except; [|intros; apply preserves_ret].
    intros w. by rewrite os_path_getsize_same. }
  apply preserves_bind; [apply preserves_ret|intros _].
  apply preserves_bind; [apply upload_to_s3_preserves|intros up].
  apply preserves_bind; [|intros _; apply preserves_ret].
  apply preserves_if; [|apply preserves_ret].
  apply preserves_try_except; [apply os_remove_users|intros; apply preserves_ret].
Qed.

Lemma process_task_anonymous cfg F now isoformat text id owner w :
  truthy_int owner = false →
  let w' := snd (Worker.process_task cfg F now isoformat text id owner w) in
  (jobs w' = jobs w ∨ jobs w' = jobs w ++ [processing_row cfg now id owner])
  ∧ users w' = users w.
Proof.
  intros Hown.
  remember (Worker.process_task cfg F now isoformat text id owner w) as r eqn:Er.
  unfold Worker.process_task in Er. rewrite Hown in Er. cbv zeta in Er.
  fold (job_file cfg id) in Er. fold (processing_row cfg now id owner) in Er.
  unfold bind at 1 in Er.
  pose proof (os_makedirs_jobs F w) as Hj0. pose proof (os_makedirs_users F w) as Hu0.
  destruct (Worker.os_makedirs F w) as [[[]|e] w0]; simpl in Hj0, Hu0;
    [|subst r; simpl; auto].
  unfold bind at 1 in Er.
  destruct (try_insert_job F (processing_row cfg now id owner) w0) as [Hr Hj1].
  pose proof (preserves_try_except users _ (λ _ : exn, ret tt)
                (insert_job_users F (processing_row cfg now id owner))
                (λ _, preserves_ret users tt) w0) as Hu1.
  destruct (try_except _ _ w0) as [[[]|e] w1]; simpl in Hr, Hj1, Hu1; [|done].
  subst r. simpl.
  rewrite (process_task_tail_jobs cfg F now isoformat text id (job_file cfg id) w1).
  rewrite (process_task_tail_users cfg F now isoformat text id (job_file cfg id) w1).
  split; [|congruence].
  destruct Hj1 as [->|(_ & _ & ->)]; rewrite Hj0; auto.
Qed.

(** C10. In the worker variant, a task processed without an owner
    ([owner_id] absent or zero) leaves the job table with at most the row
    it inserted, whose status is processing, whose size is the default 0
    and whose [processed_at] is unset, and leaves the ledger alone,
    whatever the environment refuses; and as the sweep enumerates only
    done jobs, no later sweep, at whatever time and under whatever
    configuration, removes the file of that job: the path holds after the
    sweeps what it held after the task, and no job naming it is done. *)
Theorem anonymous_job_never_reclaimed
    (cfg : Config) (F : Faults) (now : Z) (isoformat : Z → string)
    (text id : string) (owner : option Z) (w : World)
    (sweeps : list (Config * Faults * Z)) :
  truthy_int owner = false →
  no_done_job_names (job_file cfg id) (jobs w) →
  let w' := snd (Worker.process_task cfg F now isoformat text id owner w) in
  (jobs w' = jobs w ∨ jobs w' = jobs w ++ [processing_row cfg now id owner])
  ∧ users w' = users w
  ∧ no_done_job_names (job_file cfg id) (jobs w')
  ∧ fs (run_sweeps sweeps w') !! job_file cfg id = fs w' !! job_file cfg id
  ∧ no_done_job_names (job_file cfg id) (jobs (run_sweeps sweeps w')).
Proof.
  intros Hown Hno w'.
  destruct (process_task_anonymous cfg F now isoformat text id owner w Hown)
    as [Hjobs Husers].
  fold w' in Hjobs, Husers.
  assert (Hno' : no_done_job_names (job_file cfg id) (jobs w')).
  { destruct Hjobs as [->| ->]; [done|].
    intros j Hj Hst. apply elem_of_app in Hj as [Hj|Hj]; [by apply Hno|].
    apply list_elem_of_singleton in Hj. subst j. done. }
  destruct (run_sweeps_keep_unnamed (job_file cfg id) sweeps w' Hno') as [H1 H2].
  done.
Qed.

Lemma anonymous_job_never_reclaimed_witness :
  let w' := snd (Worker.process_task default_config no_faults 1000 iso_example
                   "hello" "j1" None empty_world) in
  is_Some (fs w' !! job_file default_config "j1")
  ∧ fs (run_sweeps [(default_config, no_faults, 1000 + 30 * day);
                    (default_config, no_faults, 1000 + 60 * day)] w')
       !! job_file default_config "j1"
    = fs w' !! job_file default_config "j1".
Proof.
  split.
  - vm_compute. eauto.
  - refine (proj1 (proj2 (proj2 (proj2
      (anonymous_job_never_reclaimed default_config no_faults 1000 iso_example
         "hello" "j1" None empty_world _ _ _))))).
    + reflexivity.
    + intros j Hj. simpl in Hj. by apply elem_of_nil in Hj.
Defined.

(** With an owner, the same task is advanced to done, with its size and
    its completion time, and a sweep past the retention period reclaims
    its file. *)
Example owned_job_is_done_and_reclaimed :
  let w0 := {| fs := ∅; fs_seen := []; storage_dir := true;
               users := {[ 7 := user_with (Some "free") (Some 0) ]}; jobs := [] |} in
  let w' := snd (Worker.process_task default_config no_faults 1000 iso_example
                   "hello" "j1" (Some 7) w0) in
  (status <$> Worker.get_job "j1" (jobs w')) = Some Done
  ∧ (size_bytes <$> Worker.get_job "j1" (jobs w')) = Some (Some 55)
  ∧ (processed_at <$> Worker.get_job "j1" (jobs w')) = Some (Some 1001)
  ∧ Worker.balance (users w') 7 = 55
  ∧ fs (run_sweeps [(default_config, no_faults, 1000 + 30 * day)] w')
       !! job_file default_config "j1" = None.
Proof. vm_compute. repeat split; reflexivity. Qed.

(** *** The life of a job *)

Lemma set_status_same j : set_status (status j) j = j.
Proof. by destruct j. Qed.

Lemma kept_or_deleted_forward j j' :
  kept_or_deleted j j' →
  job_id j' = job_id j ∧ forward (status j) (status j')
  ∧ (status j = Deleted → j' = j).
Proof.
  intros [->| ->]; simpl.
  - split; [done|]. split; [by left|done].
  - split; [done|]. split.
    + destruct (status j) eqn:E; unfold forward; simpl; try (right; lia). by left.
    + intros <-. apply set_status_same.
Qed.

Lemma table_forward_refl js : table_forward js js.
Proof. exists js, []. split; [by rewrite app_nil_r|apply Forall2_kept_refl]. Qed.

Lemma table_forward_trans js1 js2 js3 :
  table_forward js1 js2 → table_forward js2 js3 → table_forward js1 js3.
Proof.
  intros (o1 & n1 & -> & H1) (o2 & n2 & -> & H2).
  apply Forall2_app_inv_l in H2 as (o2a & o2b & Ha & Hb & ->).
  exists o2a, (o2b ++ n2). split; [by rewrite app_assoc|].
  eapply Forall2_kept_trans; eauto.
Qed.

Lemma cleanup_table_forward cfg F now w :
  Forall2 kept_or_deleted (jobs w)
    (jobs (snd (Worker.cleanup_local_storage cfg F now w))).
Proof.
  rewrite cleanup_unfold.
  destruct (int_to_float _) as [secs|e]; simpl; [|apply Forall2_kept_refl].
  destruct (storage_dir w); simpl; [|apply Forall2_kept_refl].
  destruct (fault_db_query F); simpl; [apply Forall2_kept_refl|].
  apply sweep_fold_jobs.
Qed.

Lemma maintains_preserves {A} P (m : M World A) : preserves jobs m → maintains P m.
Proof. intros H w HP. by rewrite H. Qed.

Lemma maintains_bind {A B} P (m : M World A) (k : A → M World B) :
  maintains P m → (∀ a, maintains P (k a)) → maintains P (bind m k).
Proof.
  intros Hm Hk w HP. unfold bind. specialize (Hm w HP).
  destruct (m w) as [[a|e] w']; simpl in *; [|done]. by apply Hk.
Qed.

Lemma maintains_try_except {A} P (m : M World A) h :
  maintains P m → (∀ e, maintains P (h e)) → maintains P (try_except m h).
Proof.
  intros Hm Hh w HP. unfold try_except. specialize (Hm w HP).
  destruct (m w) as [[a|e] w']; simpl in *; [done|]. by apply Hh.
Qed.

Lemma get_job_None id js :
  Worker.get_job id js = None → Forall (λ j, job_id j ≠ id) js.
Proof.
  unfold Worker.get_job. induction js as [|j js IH]; simpl; [constructor|].
  destruct (String.eqb_spec (job_id j) id); [done|]. intros H. constructor; auto.
Qed.

Lemma update_job_fresh id f js :
  Forall (λ j, job_id j ≠ id) js → Worker.update_job id f js = js.
Proof.
  induction 1 as [|j js Hj _ IH]; simpl; [done|].
  rewrite IH. by destruct (String.eqb_spec (job_id j) id).
Qed.

Lemma update_job_keys id f js :
  (∀ j, job_id (f j) = job_id j) →
  Forall (λ j, job_id j = id) js →
  Forall (λ j, job_id j = id) (Worker.update_job id f js).
Proof.
  intros Hf. induction 1 as [|j js Hj _ IH]; simpl; constructor; [|done].
  destruct (String.eqb _ _); [by rewrite Hf|done].
Qed.

Lemma process_task_appends cfg F now isoformat text id owner js0 :
  Worker.get_job id js0 = None →
  maintains (appended js0 id)
    (Worker.process_task cfg F now isoformat text id owner).
Proof.
  intros Hfresh. apply get_job_None in Hfresh.
  unfold Worker.process_task. cbv zeta.
  apply maintains_bind; [apply maintains_preserves, os_makedirs_jobs|intros _].
  apply maintains_bind; [|intros _].
  { apply maintains_try_except;
      [|intros; apply maintains_preserves, preserves_ret].
    unfold Worker.insert_job.
    apply maintains_bind; [apply maintains_preserves, preserves_may_fail|intros _].
    intros w (new & Hw & Hnew). destruct (Worker.get_job _ _); simpl; [by exists new|].
    exists (new ++ [{| job_id := id; owner_id := owner;
                       filename := Some (os_path_join (STORAGE_DIR cfg) (id +:+ ".txt"));
                       size_bytes := Some 0; status := Processing; created_at := now;
                       processed_at := None |}]).
    split; [by rewrite Hw, app_assoc|]. apply Forall_app. split; [done|].
    by constructor. }
  apply maintains_bind; [apply maintains_preserves, open_w_jobs|intros _].
  do 3 (apply maintains_bind; [apply maintains_preserves, file_write_jobs|intros _]).
  apply maintains_bind; [|intros size].
  { apply maintains_preserves, preserves_try_except; [|intros; apply preserves_ret].
    intros w. by rewrite os_path_getsize_same. }
  apply maintains_bind; [|intros _].
  { destruct (truthy_int owner); [|apply maintains_preserves, preserves_ret].
    apply maintains_bind; [|intros _].
    { apply maintains_preserves. unfold Worker._inc_user_storage.
      apply preserves_bind; [apply preserves_may_fail|]. by intros _ w. }
    apply maintains_try_except; [|intros; apply maintains_preserves, preserves_ret].
    apply maintains_bind; [apply maintains_preserves, preserves_may_fail|intros _].
    apply maintains_bind; [by apply maintains_preserves|intros w0].
    destruct (Worker.get_job id (jobs w0)); [|apply maintains_preserves, preserves_ret].
    unfold Worker.commit_job.
    apply maintains_bind; [apply maintains_preserves, preserves_may_fail|intros _].
    intros w (new & Hw & Hnew). simpl. rewrite Hw.
    exists (Worker.update_job id (Worker.set_processed size (now + 1)) new).
    unfold Worker.update_job at 1. rewrite map_app.
    fold (Worker.update_job id (Worker.set_processed size (now + 1)) js0).
    fold (Worker.update_job id (Worker.set_processed size (now + 1)) new).
    rewrite update_job_fresh by done. split; [done|].
    by apply update_job_keys. }
  apply maintains_bind; [apply maintains_preserves, upload_to_s3_preserves|intros up].
  apply maintains_bind; [|intros _; apply maintains_preserves, preserves_ret].
  apply maintains_preserves, preserves_if; [|apply preserves_ret].
  apply preserves_try_except; [apply os_remove_jobs|intros; apply preserves_ret].
Qed.

Lemma step_table_forward w w' : step w w' → table_forward (jobs w) (jobs w').
Proof.
  intros [cfg F now w0|cfg F now isoformat text id owner w0 Hfresh].
  - exists (jobs (snd (Worker.cleanup_local_storage cfg F now w0))), [].
    split; [by rewrite app_nil_r|apply cleanup_table_forward].
  - destruct (process_task_appends cfg F now isoformat text id owner (jobs w0) Hfresh w0)
      as (new & Hw & _).
    + exists []. split; [by rewrite app_nil_r|constructor].
    + exists (jobs w0), new. split; [done|apply Forall2_kept_refl].
Qed.

Lemma steps_table_forward w w' : rtc step w w' → table_forward (jobs w) (jobs w').
Proof.
  induction 1 as [w|w1 w2 w3 H12 _ IH]; [apply table_forward_refl|].
  eapply table_forward_trans; [by apply step_table_forward|done].
Qed.

(** *** Deleted jobs play no part in a sweep *)

Lemma sweep_step_same_store F cutoff j w1 w2 n :
  same_store w1 w2 →
  same_store (fst (sweep_step F cutoff j (w1, n))) (fst (sweep_step F cutoff j (w2, n)))
  ∧ snd (sweep_step F cutoff j (w1, n)) = snd (sweep_step F cutoff j (w2, n)).
Proof.
  intros (Hfs & Hus & Hd). unfold sweep_step, same_store. rewrite Hfs.
  destruct (removable F cutoff (fs w2) j); [|done].
  destruct (truthy_int (owner_id j)); simpl.
  - destruct (refused (fault_db_ledger F _)); simpl; [by rewrite ?Hus|].
    destruct (refused (fault_db_commit F _)); simpl; by rewrite ?Hus.
  - destruct (refused (fault_db_commit F _)); simpl; by rewrite ?Hus.
Qed.

Lemma sweep_fold_same_store F cutoff js : ∀ w1 w2 n,
  same_store w1 w2 →
  same_store (fst (sweep_fold F cutoff js (w1, n))) (fst (sweep_fold F cutoff js (w2, n)))
  ∧ snd (sweep_fold F cutoff js (w1, n)) = snd (sweep_fold F cutoff js (w2, n)).
Proof.
  induction js as [|j js IH]; intros w1 w2 n H; [done|].
  rewrite !sweep_fold_cons.
  destruct (sweep_step_same_store F cutoff j w1 w2 n H) as [H1 H2].
  destruct (sweep_step F cutoff j (w1, n)) as [w1' n1].
  destruct (sweep_step F cutoff j (w2, n)) as [w2' n2]. simpl in *. subst n2.
  by apply IH.
Qed.

Lemma filter_done_without_deleted (js : list Job) :
  filter (λ j, status j = Done) (filter (λ j, status j ≠ Deleted) js)
  = filter (λ j, status j = Done) js.
Proof.
  induction js as [|j js IH]; [done|].
  rewrite !filter_cons. destruct (decide (status j = Done)) as [Hd|Hd].
  - rewrite decide_True by congruence. rewrite filter_cons, decide_True by done.
    by rewrite IH.
  - destruct (decide (status j ≠ Deleted)); [|done].
    rewrite filter_cons, decide_False by done. done.
Qed.

Lemma cleanup_without_deleted cfg F now w :
  fst (Worker.cleanup_local_storage cfg F now (without_deleted w))
  = fst (Worker.cleanup_local_storage cfg F now w)
  ∧ same_store (snd (Worker.cleanup_local_storage cfg F now (without_deleted w)))
               (snd (Worker.cleanup_local_storage cfg F now w)).
Proof.
  rewrite !cleanup_unfold. unfold without_deleted at 1 2. simpl.
  destruct (int_to_float _) as [secs|e]; simpl; [|done].
  destruct (storage_dir w); simpl; [|done].
  destruct (fault_db_query F); simpl; [done|].
  unfold sweep_all. simpl. rewrite filter_done_without_deleted.
  destruct (sweep_fold_same_store F (now - secs)
              (filter (λ j, status j = Done) (jobs w)) (without_deleted w) w 0)
    as [H1 H2]; [done|].
  rewrite H2. done.
Qed.

(** C7. In the worker variant, over any succession of sweeps and of
    processings of tasks with fresh identifiers, every row of the job
    table stays in the table at its place with its key, its status as it
    was or moved to a later stage of {created, processing}, {done,
    failed}, {deleted}, and a row whose status is deleted stays exactly as
    it is; and a sweep does not look at deleted jobs: run on the world
    without the deleted rows it returns the same result and leaves the
    same files and the same ledger. *)
Theorem deleted_jobs_stay_deleted :
  (∀ w w', rtc step w w' →
     ∀ i j, jobs w !! i = Some j →
       ∃ j', jobs w' !! i = Some j'
             ∧ job_id j' = job_id j
             ∧ forward (status j) (status j')
             ∧ (status j = Deleted → j' = j))
  ∧ (∀ cfg F now w,
       fst (Worker.cleanup_local_storage cfg F now (without_deleted w))
       = fst (Worker.cleanup_local_storage cfg F now w)
       ∧ same_store (snd (Worker.cleanup_local_storage cfg F now (without_deleted w)))
                    (snd (Worker.cleanup_local_storage cfg F now w)))
  ∧ (∀ cfg F now w j,
       j ∈ jobs w → status j = Deleted →
       (j ∉ filter (λ j, status j = Done) (jobs w))
       ∧ (j ∈ jobs (snd (Worker.cleanup_local_storage cfg F now w)))).
Proof.
  split; [|split].
  - intros w w' Hsteps i j Hi.
    destruct (steps_table_forward w w' Hsteps) as (old & new & Hw' & Hold).
    destruct (Forall2_lookup_l _ _ _ _ _ Hold Hi) as (j' & Hj' & Hkept).
    exists j'. split.
    + rewrite Hw'. by apply lookup_app_l_Some.
    + by apply kept_or_deleted_forward.
  - apply cleanup_without_deleted.
  - intros cfg F now w j Hin Hst. split.
    + intros Hf. apply list_elem_of_filter in Hf as [Hd _]. congruence.
    + apply list_elem_of_lookup in Hin as [i Hi].
      destruct (Forall2_lookup_l _ _ _ _ _ (cleanup_table_forward cfg F now w) Hi)
        as (j' & Hj' & Hkept).
      apply kept_or_deleted_forward in Hkept as (_ & _ & Hsame).
      rewrite (Hsame Hst) in Hj'. apply list_elem_of_lookup. eauto.
Qed.

Lemma deleted_jobs_stay_deleted_witness :
  let w' := snd (Worker.cleanup_local_storage default_config no_faults (100 * day)
                   life_world) in
  (∃ j', jobs w' !! 0%nat = Some j'
         ∧ job_id j' = "a"
         ∧ forward Deleted (status j')
         ∧ (Deleted = Deleted → j' = job_row "a" (Some 1) Deleted))
  ∧ is_Some (fs w' !! job_file default_config "a")
  ∧ fs w' !! job_file default_config "b" = None
  ∧ Worker.balance (users w') 1 = 8.
Proof.
  split.
  - exact (proj1 deleted_jobs_stay_deleted life_world _
             (rtc_once _ _ (step_sweep default_config no_faults (100 * day) life_world))
             0%nat (job_row "a" (Some 1) Deleted) eq_refl).
  - vm_compute. repeat split; eauto.
Defined.

(** ** The sweep of the current variant *)

Lemma reconcile_jobs_ret cfg have_db F w :
  fst (Backend.reconcile_jobs cfg have_db F w) = Ret tt.
Proof.
  unfold Backend.reconcile_jobs, try_except.
  by destruct (bind _ _ w) as [[[]|e] w'].
Qed.

Lemma safe_db_session_same have_db F w :
  snd (Backend._safe_db_session have_db F w) = w.
Proof.
  unfold Backend._safe_db_session. destruct have_db; simpl; [|done].
  unfold_prog. by destruct (fault_db_session F).
Qed.

Lemma path_exists_same cfg F name w : snd (Backend.path_exists cfg F name w) = w.
Proof.
  unfold Backend.path_exists. cbv zeta.
  destruct (fault_stat F _) as [e|]; [by destruct (Backend.ignored_by_exists e)|].
  by destruct (Backend.place_of _ _).
Qed.

Lemma map_m_same {A B} (f : A → M World B) l :
  (∀ x w, snd (f x w) = w) → ∀ w, snd (Backend.map_m f l w) = w.
Proof.
  intros Hf. induction l as [|x l IH]; intros w; [done|].
  simpl. unfold bind at 1. specialize (Hf x w).
  destruct (f x w) as [[y|e] w1]; simpl in Hf; subst w1; [|done].
  unfold bind. specialize (IH w).
  by destruct (Backend.map_m f l w) as [[ys|e] w2].
Qed.

Lemma reconcile_rows_same cfg F js w :
  snd (Backend.map_m
         (λ r, match filename r with
               | Some f =>
                   let* there := Backend.path_exists cfg F f in
                   ret (if negb there then set_status Deleted r else r)
               | None => ret r
               end) js w) = w.
Proof.
  apply map_m_same. intros r w0. destruct (filename r) as [f|]; [|done].
  unfold bind. pose proof (path_exists_same cfg F f w0) as H.
  by destruct (Backend.path_exists cfg F f w0) as [[b|e] w1].
Qed.

Lemma reconcile_jobs_fs cfg have_db F : preserves fs (Backend.reconcile_jobs cfg have_db F).
Proof.
  unfold Backend.reconcile_jobs.
  apply preserves_try_except; [|intros; apply preserves_ret].
  apply preserves_bind; [intros w; by rewrite safe_db_session_same|intros session].
  apply preserves_if; [|apply preserves_ret].
  apply preserves_try_except; [|intros; apply preserves_ret].
  apply preserves_bind; [apply preserves_may_fail|intros _].
  apply preserves_bind; [done|intros w0].
  apply preserves_bind; [intros w; by rewrite reconcile_rows_same|intros rows].
  apply preserves_bind; [apply preserves_may_fail|intros _]. done.
Qed.

Lemma reconcile_jobs_users cfg have_db F :
  preserves users (Backend.reconcile_jobs cfg have_db F).
Proof.
  unfold Backend.reconcile_jobs.
  apply preserves_try_except; [|intros; apply preserves_ret].
  apply preserves_bind; [intros w; by rewrite safe_db_session_same|intros session].
  apply preserves_if; [|apply preserves_ret].
  apply preserves_try_except; [|intros; apply preserves_ret].
  apply preserves_bind; [apply preserves_may_fail|intros _].
  apply preserves_bind; [done|intros w0].
  apply preserves_bind; [intros w; by rewrite reconcile_rows_same|intros rows].
  apply preserves_bind; [apply preserves_may_fail|intros _]. done.
Qed.

Lemma backend_cleanup_unfold cfg have_db F now w :
  Backend.cleanup_local_storage cfg have_db F now w =
  match Backend.timedelta_days (RETENTION_DAYS cfg) with
  | Raise e => (Raise e, w)
  | Ret delta =>
      match Backend.datetime_sub now delta with
      | Raise e => (Raise e, w)
      | Ret cutoff =>
          match fault_iterdir F with
          | Some e => (Ret [("deleted", PInt 0)], w)
          | None =>
              match for_each (map fst (map_to_list (fs w)))
                             (Backend.sweep_entry F cutoff) (w, 0) with
              | (Ret _, (w', n)) =>
                  (Ret [("deleted", PInt n)],
                   snd (Backend.reconcile_jobs cfg have_db F w'))
              | (Raise _, (w', _)) => (Ret [("deleted", PInt 0)], w')
              end
          end
      end
  end.
Proof.
  unfold Backend.cleanup_local_storage, Backend.path_iterdir.
  assert (Hif : (if RETENTION_DAYS cfg <=? 0 then @ret World unit tt else ret tt)
                = ret tt) by (by destruct (_ <=? _)).
  rewrite Hif. unfold_prog.
  destruct (Backend.timedelta_days _) as [delta|e]; simpl; [|done].
  destruct (Backend.datetime_sub _ _) as [cutoff|e]; simpl; [|done].
  destruct (fault_iterdir F); simpl; [done|].
  destruct (for_each _ _ _) as [[[]|e] [w' n]]; simpl; [|done].
  pose proof (reconcile_jobs_ret cfg have_db F w') as Hr.
  destruct (Backend.reconcile_jobs cfg have_db F w') as [[[]|e] w'']; simpl in *; done.
Qed.

Lemma sweep_entry_step F cutoff p w n :
  benign F →
  (∀ f, fs w !! p = Some f →
        Backend.DATETIME_MIN ≤ st_mtime f ≤ Backend.DATETIME_MAX) →
  Backend.sweep_entry F cutoff p (w, n) = (Ret tt, entry_step F cutoff p (w, n)).
Proof.
  intros Hb Hrange.
  unfold Backend.sweep_entry, Backend.path_is_file, entry_step, entry_removable.
  unfold_prog.
  destruct (fault_is_file F p) as [e|] eqn:E1; simpl.
  { pose proof (Hb p e (or_introl E1)) as H. by destruct e. }
  destruct (fs w !! p) as [f|] eqn:Ef; simpl; [|done].
  destruct (is_reg f); simpl; [|done].
  destruct (fault_stat F p) as [e|] eqn:E2; simpl.
  { pose proof (Hb p e (or_intror (or_introl E2))) as H. by destruct e. }
  rewrite Ef. simpl. unfold Backend.datetime_fromtimestamp.
  specialize (Hrange f eq_refl).
  assert (Hin : (Backend.DATETIME_MIN <=? st_mtime f)
                && (st_mtime f <=? Backend.DATETIME_MAX) = true).
  { apply andb_true_intro. split; apply Z.leb_le; lia. }
  rewrite Hin. simpl.
  destruct (st_mtime f <? cutoff); simpl; [|done].
  destruct (fault_unlink F p) as [e|] eqn:E3; simpl.
  { pose proof (Hb p e (or_intror (or_intror E3))) as H. by destruct e. }
  rewrite Ef. done.
Qed.

Lemma entry_step_fs F cutoff p w n :
  fs (fst (entry_step F cutoff p (w, n))) =
  if entry_removable F cutoff (fs w) p then delete p (fs w) else fs w.
Proof. unfold entry_step. by destruct (entry_removable _ _ _ _). Qed.

Lemma entry_step_count F cutoff p w n :
  snd (entry_step F cutoff p (w, n)) =
  if entry_removable F cutoff (fs w) p then n + 1 else n.
Proof. unfold entry_step. by destruct (entry_removable _ _ _ _). Qed.

Lemma entry_step_frame F cutoff p w n :
  users (fst (entry_step F cutoff p (w, n))) = users w
  ∧ jobs (fst (entry_step F cutoff p (w, n))) = jobs w.
Proof. unfold entry_step. by destruct (entry_removable _ _ _ _). Qed.

Lemma entry_removable_Some F cutoff (m : gmap string File) p :
  entry_removable F cutoff m p = true → is_Some (m !! p).
Proof.
  unfold entry_removable. destruct (m !! p); [eauto|].
  rewrite andb_false_r. done.
Qed.

Lemma entry_step_range F cutoff p w n :
  mtimes_in_range (fs w) → mtimes_in_range (fs (fst (entry_step F cutoff p (w, n)))).
Proof.
  intros H q f. rewrite entry_step_fs. destruct (entry_removable _ _ _ _); [|apply H].
  intros Hq. apply lookup_delete_Some in Hq as [_ Hq]. by eapply H.
Qed.

Lemma entry_fold_cons F cutoff p ps st :
  entry_fold F cutoff (p :: ps) st = entry_fold F cutoff ps (entry_step F cutoff p st).
Proof. reflexivity. Qed.

Lemma entry_loop F cutoff ps : ∀ w n,
  benign F → mtimes_in_range (fs w) →
  for_each ps (Backend.sweep_entry F cutoff) (w, n)
  = (Ret tt, entry_fold F cutoff ps (w, n)).
Proof.
  induction ps as [|p ps IH]; intros w n Hb Hr; [done|].
  rewrite entry_fold_cons. cbn [for_each]. unfold bind.
  rewrite sweep_entry_step by (try done; intros f; apply Hr).
  pose proof (entry_step_range F cutoff p w n Hr) as Hr'.
  destruct (entry_step F cutoff p (w, n)) as [w1 n1]. by apply IH.
Qed.

Lemma entry_fold_fs F cutoff ps : ∀ w n p,
  fs (fst (entry_fold F cutoff ps (w, n))) !! p =
  if bool_decide (p ∈ ps) && entry_removable F cutoff (fs w) p
  then None else fs w !! p.
Proof.
  induction ps as [|p0 ps IH]; intros w n p.
  - unfold entry_fold. cbn [fold_left fst].
    rewrite bool_decide_false; [done|]. apply not_elem_of_nil.
  - rewrite entry_fold_cons.
    pose proof (entry_step_fs F cutoff p0 w n) as E1.
    destruct (entry_step F cutoff p0 (w, n)) as [w1 n1]. simpl in E1.
    rewrite IH. destruct (decide (p = p0)) as [->|Hne].
    + rewrite (bool_decide_true (p0 ∈ p0 :: ps)) by (by apply elem_of_cons; left).
      simpl. destruct (entry_removable F cutoff (fs w) p0) eqn:Hr.
      * rewrite E1. unfold entry_removable at 1. rewrite lookup_delete_eq.
        by rewrite !andb_false_r.
      * rewrite E1, Hr. by rewrite andb_false_r.
    + assert (Hl : fs w1 !! p = fs w !! p).
      { rewrite E1. destruct (entry_removable F cutoff (fs w) p0); [|done].
        by apply lookup_delete_ne. }
      assert (Hrm : entry_removable F cutoff (fs w1) p = entry_removable F cutoff (fs w) p).
      { unfold entry_removable. by rewrite Hl. }
      rewrite Hrm, Hl.
      destruct (decide (p ∈ ps)) as [Hin|Hin].
      * rewrite !bool_decide_true; [done| |done]. by apply elem_of_cons; right.
      * rewrite !bool_decide_false; [done| |done].
        intros H. apply elem_of_cons in H as [?|?]; done.
Qed.

Lemma entry_fold_count F cutoff ps : ∀ w n,
  Z.of_nat (size (fs w))
  = Z.of_nat (size (fs (fst (entry_fold F cutoff ps (w, n)))))
    + (snd (entry_fold F cutoff ps (w, n)) - n).
Proof.
  induction ps as [|p ps IH]; intros w n; [simpl; lia|].
  rewrite entry_fold_cons.
  pose proof (entry_step_fs F cutoff p w n) as E1.
  pose proof (entry_step_count F cutoff p w n) as E2.
  destruct (entry_step F cutoff p (w, n)) as [w1 n1]. simpl in E1, E2.
  specialize (IH w1 n1).
  destruct (entry_removable F cutoff (fs w) p) eqn:Hr.
  - apply entry_removable_Some in Hr as [f Hf].
    assert (Hs : size (fs w) = S (size (fs w1))).
    { rewrite E1. rewrite <- (insert_delete_id (fs w) p f Hf) at 1.
      rewrite map_size_insert_None; [done|apply lookup_delete_eq]. }
    lia.
  - rewrite <- E1. lia.
Qed.

Lemma entry_fold_frame F cutoff ps : ∀ w n,
  users (fst (entry_fold F cutoff ps (w, n))) = users w
  ∧ jobs (fst (entry_fold F cutoff ps (w, n))) = jobs w.
Proof.
  induction ps as [|p ps IH]; intros w n; [done|].
  rewrite entry_fold_cons.
  pose proof (entry_step_frame F cutoff p w n) as [E1 E2].
  destruct (entry_step F cutoff p (w, n)) as [w1 n1]. simpl in *.
  destruct (IH w1 n1) as [-> ->]. done.
Qed.

(** The sweep of the current variant when single entries only fail by
    having vanished or by a permission error. *)
Lemma backend_cleanup_benign cfg have_db F now cutoff w :
  cutoff_is cfg now cutoff → fault_iterdir F = None →
  benign F → mtimes_in_range (fs w) →
  ∃ n, fst (Backend.cleanup_local_storage cfg have_db F now w)
       = Ret [("deleted", PInt n)]
       ∧ Z.of_nat (size (fs w))
         = Z.of_nat (size (fs (snd (Backend.cleanup_local_storage cfg have_db F now w))))
           + n
       ∧ (∀ p, fs (snd (Backend.cleanup_local_storage cfg have_db F now w)) !! p
               = if entry_removable F cutoff (fs w) p then None else fs w !! p)
       ∧ users (snd (Backend.cleanup_local_storage cfg have_db F now w)) = users w.
Proof.
  intros (delta & Hd & Hc) Hit Hb Hr.
  rewrite backend_cleanup_unfold, Hd, Hc, Hit, entry_loop by done.
  pose proof (entry_fold_count F cutoff (map fst (map_to_list (fs w))) w 0) as Hcount.
  pose proof (entry_fold_fs F cutoff (map fst (map_to_list (fs w))) w 0) as Hfs.
  pose proof (entry_fold_frame F cutoff (map fst (map_to_list (fs w))) w 0) as [Hus _].
  destruct (entry_fold _ _ _ _) as [w' n]. simpl in *.
  exists n. rewrite reconcile_jobs_fs, reconcile_jobs_users.
  split; [done|]. split; [lia|]. split; [|done].
  intros p. rewrite reconcile_jobs_fs, Hfs.
  destruct (entry_removable F cutoff (fs w) p) eqn:Hrm; [|by rewrite andb_false_r].
  rewrite bool_decide_true; [done|].
  apply entry_removable_Some in Hrm as [f Hf].
  apply list_elem_of_fmap. exists (p, f). split; [done|].
  by apply elem_of_map_to_list.
Qed.

(** *** Which files a worker sweep removes *)



(** ** Failures inside a sweep *)




(** An entry that fails with another error than the two the loop body
    catches ends the sweep of the current variant in its outer handler:
    the result is [{deleted: 0}] although a file was removed before, and
    the entries not yet visited stay. *)
Example backend_other_error_ends_sweep :
  let F := {| fault_stat := λ p, if String.eqb p (job_file default_config "a")
                                 then Some (OSError EIO) else None;
              fault_is_file := λ _, None; fault_unlink := λ _, None;
              fault_iterdir := None; fault_makedirs := None;
              fault_open := λ _, None; fault_write := λ _, None;
              fault_replace := λ _, None; fault_db_session := None;
              fault_db_insert := λ _, None; fault_db_query := None;
              fault_db_ledger := λ _, None; fault_db_commit := λ _, None;
              fault_db_commit_all := None; fault_s3_client := λ _, None;
              fault_s3_upload := λ _ _ _, None |} in
  let r := Backend.cleanup_local_storage default_config false F (100 * day) batch_world in
  fst r = Ret [("deleted", PInt 0)]
  ∧ fs (snd r) !! job_file default_config "c" = None
  ∧ is_Some (fs (snd r) !! job_file default_config "b").
Proof. vm_compute. repeat split; eauto. Qed.


(** ** What a sweep returns *)

(** C8, as amended. A sweep of the worker variant never raises. It
    returns [{deleted: n}] when its sweep-level calls go through,
    [{deleted: 0, reason: "no_dir"}] when the storage directory is missing,
    and [{error: <description>}], without a [deleted] field, when a
    sweep-level call fails (the retention period does not convert, the
    database refuses the query); in the last two cases the world is
    untouched. A sweep of the current variant whose cutoff date is
    representable never raises either and returns [{deleted: n}]; when
    the storage directory cannot be listed it returns [{deleted: 0}],
    without an [error] field, and leaves the world untouched. *)
Theorem sweep_never_raises :
  (∀ cfg F now w,
     (sweep_level_ok cfg F w
      ∧ Worker.cleanup_local_storage cfg F now w
        = (Ret [("deleted", PInt (snd (sweep_all F (cutoff_ts cfg now) w)))],
           fst (sweep_all F (cutoff_ts cfg now) w)))
     ∨ (storage_dir w = false
        ∧ Worker.cleanup_local_storage cfg F now w
          = (Ret [("deleted", PInt 0); ("reason", PStr "no_dir")], w))
     ∨ (∃ e, (int_to_float (RETENTION_DAYS cfg * 86400) = Raise e
              ∨ (storage_dir w = true ∧ fault_db_query F = Some e))
             ∧ Worker.cleanup_local_storage cfg F now w
               = (Ret [("error", PStr (str_exn e))], w)))
  ∧ (∀ cfg F now w, ∃ d, fst (Worker.cleanup_local_storage cfg F now w) = Ret d)
  ∧ (∀ cfg have_db F now cutoff w,
       cutoff_is cfg now cutoff →
       (∃ n, fst (Backend.cleanup_local_storage cfg have_db F now w)
             = Ret [("deleted", PInt n)])
       ∧ (∀ e, fault_iterdir F = Some e →
               Backend.cleanup_local_storage cfg have_db F now w
               = (Ret [("deleted", PInt 0)], w))).
Proof.
  assert (H1 : ∀ cfg F now w,
     (sweep_level_ok cfg F w
      ∧ Worker.cleanup_local_storage cfg F now w
        = (Ret [("deleted", PInt (snd (sweep_all F (cutoff_ts cfg now) w)))],
           fst (sweep_all F (cutoff_ts cfg now) w)))
     ∨ (storage_dir w = false
        ∧ Worker.cleanup_local_storage cfg F now w
          = (Ret [("deleted", PInt 0); ("reason", PStr "no_dir")], w))
     ∨ (∃ e, (int_to_float (RETENTION_DAYS cfg * 86400) = Raise e
              ∨ (storage_dir w = true ∧ fault_db_query F = Some e))
             ∧ Worker.cleanup_local_storage cfg F now w
               = (Ret [("error", PStr (str_exn e))], w))).
  { intros cfg F now w. rewrite cleanup_unfold. unfold sweep_level_ok.
    destruct (int_to_float (RETENTION_DAYS cfg * 86400)) as [secs|e] eqn:Ef.
    - assert (secs = RETENTION_DAYS cfg * 86400) as ->.
      { unfold int_to_float in Ef. destruct (_ <? _); congruence. }
      destruct (storage_dir w) eqn:Ed; [|right; left; done].
      destruct (fault_db_query F) as [e|] eqn:Eq.
      + right; right. exists e. split; [by right|done].
      + left. done.
    - right; right. exists e. split; [by left|done]. }
  split; [exact H1|]. split.
  - intros cfg F now w.
    destruct (H1 cfg F now w) as [[_ ->]|[[_ ->]|(e & _ & ->)]]; simpl; eauto.
  - intros cfg have_db F now cutoff w (delta & Hd & Hc).
    rewrite backend_cleanup_unfold, Hd, Hc. split.
    + destruct (fault_iterdir F); simpl; [eauto|].
      destruct (for_each _ _ _) as [[[]|e] [w' n]]; simpl; eauto.
    + intros e ->. done.
Qed.

Lemma sweep_never_raises_witness :
  (∃ n, fst (Backend.cleanup_local_storage default_config false root_unreadable
               (100 * day) batch_world) = Ret [("deleted", PInt n)])
  ∧ Backend.cleanup_local_storage default_config false root_unreadable
      (100 * day) batch_world
    = (Ret [("deleted", PInt 0)], batch_world).
Proof.
  assert (Hc : cutoff_is default_config (100 * day) (93 * day)).
  { exists (7 * day). split; vm_compute; reflexivity. }
  split.
  - exact (proj1 (proj2 (proj2 sweep_never_raises) default_config false
                    root_unreadable (100 * day) (93 * day) batch_world Hc)).
  - exact (proj2 (proj2 (proj2 sweep_never_raises) default_config false
                    root_unreadable (100 * day) (93 * day) batch_world Hc)
             PermissionError eq_refl).
Defined.

(** C8, as stated, fails: with the database down the worker sweep
    reports [{error: ...}] and no [deleted] field; with the storage
    directory unreadable the current sweep reports [{deleted: 0}] and no
    [error] field. Neither is of the form [{deleted: 0, error: ...}]. *)
Lemma sweep_error_report_counterexample :
  fst (Worker.cleanup_local_storage default_config db_down (100 * day) batch_world)
  = Ret [("error", PStr "OperationalError")]
  ∧ fst (Backend.cleanup_local_storage default_config false root_unreadable
           (100 * day) batch_world)
    = Ret [("deleted", PInt 0)]
  ∧ ¬ error_report [("error", PStr "OperationalError")]
  ∧ ¬ error_report [("deleted", PInt 0)]
  ∧ ¬ sweep_errors_reported_with_count.
Proof.
  split; [vm_compute; reflexivity|]. split; [vm_compute; reflexivity|].
  split; [intros [H _]; discriminate H|]. split; [intros [_ [s H]]; discriminate H|].
  intros [Hw _].
  destruct (Hw default_config db_down (100 * day) batch_world OperationalError
              eq_refl eq_refl) as (d & Hd & Hdel & _).
  vm_compute in Hd. inversion Hd; subst d. discriminate Hdel.
Qed.

(** ** A retention period of zero or less *)

(** C5 (the code at the failing inputs). With [RETENTION_DAYS <= 0] the
    branch of line 113 does nothing and the sweep of the current variant
    goes on: the cutoff is the present or later, and every regular file
    written before the sweep started, however recently, is removed. *)
Theorem nonpositive_retention_deletes_fresh_files
    (cfg : Config) (have_db : bool) (F : Faults) (now cutoff : Z) (w : World)
    (p : string) (f : File) :
  RETENTION_DAYS cfg ≤ 0 →
  cutoff_is cfg now cutoff → fault_iterdir F = None →
  benign F → mtimes_in_range (fs w) →
  fault_is_file F p = None → fault_stat F p = None → fault_unlink F p = None →
  fs w !! p = Some f → is_reg f = true → st_mtime f < now →
  now ≤ cutoff
  ∧ fs (snd (Backend.cleanup_local_storage cfg have_db F now w)) !! p = None.
Proof.
  intros HR Hc Hit Hb Hr H1 H2 H3 Hp Hreg Hm.
  assert (Hcut : now ≤ cutoff).
  { destruct Hc as (delta & Hd & Hs).
    unfold Backend.timedelta_days in Hd. destruct (_ <=? _); [|done].
    unfold Backend.datetime_sub in Hs. destruct (_ && _); [|done].
    inversion Hd. inversion Hs. lia. }
  split; [done|].
  destruct (backend_cleanup_benign cfg have_db F now cutoff w Hc Hit Hb Hr)
    as (n & _ & _ & Hfs & _).
  rewrite Hfs. unfold entry_removable. rewrite H1, H2, H3, Hp, Hreg. simpl.
  assert (Hlt : (st_mtime f <? cutoff) = true) by (apply Z.ltb_lt; lia).
  by rewrite Hlt.
Qed.

Lemma no_faults_benign : benign no_faults.
Proof. intros p e [H|[H|H]]; discriminate H. Qed.

Lemma nonpositive_retention_deletes_fresh_files_witness :
  100 * day ≤ 100 * day
  ∧ fs (snd (Backend.cleanup_local_storage (with_retention 0) false no_faults
               (100 * day) (just_written (100 * day - 1))))
       !! job_file default_config "fresh" = None.
Proof.
  apply (nonpositive_retention_deletes_fresh_files (with_retention 0) false no_faults
           (100 * day) (100 * day) (just_written (100 * day - 1))
           (job_file default_config "fresh") (regular "payload" (100 * day - 1))).
  - simpl. lia.
  - exists 0. split; vm_compute; reflexivity.
  - reflexivity.
  - exact no_faults_benign.
  - apply (bool_decide_unpack _). vm_compute. exact I.
  - reflexivity.
  - reflexivity.
  - reflexivity.
  - vm_compute. reflexivity.
  - reflexivity.
  - vm_compute. reflexivity.
Defined.

(** With a negative retention period even a file whose age is exactly
    zero goes. *)
Example negative_retention_deletes_file_of_age_zero :
  Backend.cleanup_local_storage (with_retention (-1)) false no_faults (100 * day)
    (just_written (100 * day))
  = (Ret [("deleted", PInt 1)],
     set_fs ∅ (just_written (100 * day)))
  ∧ fst (Backend.cleanup_local_storage (with_retention 0) false no_faults (100 * day)
           (just_written (100 * day - 1)))
    = Ret [("deleted", PInt 1)].
Proof. split; vm_compute; reflexivity. Qed.

(** ** The worker sweep when nothing is refused *)


Lemma stale_spec cutoff (m : gmap string File) j :
  stale cutoff m j = true ↔
  ∃ p f, filename j = Some p ∧ p ≠ "" ∧ m !! p = Some f ∧ is_reg f = true
         ∧ st_mtime f < cutoff.
Proof.
  unfold stale. rewrite removable_spec. split.
  - intros (p & f & H1 & H2 & H3 & H4 & _ & H5 & _). by exists p, f.
  - intros (p & f & H1 & H2 & H3 & H4 & H5). by exists p, f.
Qed.

Lemma sweep_step_no_faults cutoff j w n :
  sweep_step no_faults cutoff j (w, n) =
  if stale cutoff (fs w) j then
    (set_jobs (Worker.update_job (job_id j) (set_status Deleted) (jobs w))
       (if truthy_int (owner_id j)
        then set_users (Worker.sql_dec (default 0 (owner_id j)) (size_of (fs w) j)
                          (users w))
                       (set_fs (delete (default "" (filename j)) (fs w)) w)
        else set_fs (delete (default "" (filename j)) (fs w)) w),
     n + 1)
  else (w, n).
Proof.
  unfold sweep_step, stale, size_of. destruct (removable _ _ _ _); [|done].
  simpl. rewrite andb_false_r. by destruct (truthy_int (owner_id j)).
Qed.









Lemma balance_sql_dec (us : gmap Z User) o s uid :
  0 ≤ s →
  Worker.balance (Worker.sql_dec o s us) uid =
  if o =? uid then Z.max (Worker.balance us uid - s) 0 else Worker.balance us uid.
Proof.
  intros Hs. unfold Worker.balance, Worker.sql_dec.
  destruct (Z.eqb_spec o uid) as [->|Hne].
  - rewrite lookup_alter_eq. destruct (us !! uid); simpl; [done|lia].
  - by rewrite lookup_alter_ne.
Qed.











(** ** Payload store *)

Lemma append_inj_l (a b c : string) : a +:+ b = a +:+ c → b = c.
Proof. induction a as [|x a IH]; simpl; [done|]. intros [= H]. auto. Qed.

Lemma starts_with_slash_append (p s1 s2 : string) :
  starts_with_slash s1 = starts_with_slash s2 →
  starts_with_slash (p +:+ s1) = starts_with_slash (p +:+ s2).
Proof. by destruct p. Qed.

Lemma os_path_join_inj a b1 b2 :
  starts_with_slash b1 = starts_with_slash b2 →
  os_path_join a b1 = os_path_join a b2 → b1 = b2.
Proof.
  unfold os_path_join. intros ->. destruct (starts_with_slash b2); [done|].
  destruct (String.eqb a ""); [done|].
  destruct (ends_with_slash a); intros H.
  - by apply append_inj_l in H.
  - apply append_inj_l in H. by apply (append_inj_l "/") in H.
Qed.

Lemma tmp_path_ne_final_path cfg prefix :
  Backend.tmp_path cfg prefix ≠ Backend.final_path cfg prefix.
Proof.
  unfold Backend.tmp_path, Backend.final_path. intros H.
  apply os_path_join_inj in H; [|by apply starts_with_slash_append].
  apply append_inj_l in H. discriminate H.
Qed.

(** The write of the payload, state by state. *)
Lemma write_then_rename_states F now tmp target payload w :
  tmp ≠ target →
  ∃ news,
    observed (snd (Backend.write_then_rename F now tmp target payload w))
    = news ++ observed w
    ∧ Forall (old_or_complete (fs w) target payload now) news
    ∧ users (snd (Backend.write_then_rename F now tmp target payload w)) = users w
    ∧ jobs (snd (Backend.write_then_rename F now tmp target payload w)) = jobs w
    ∧ match fst (Backend.write_then_rename F now tmp target payload w) with
      | Ret _ =>
          fault_open F tmp = None ∧ fault_write F tmp = None
          ∧ fault_replace F tmp = None
          ∧ fs (snd (Backend.write_then_rename F now tmp target payload w)) !! target
            = Some (regular payload now)
          ∧ fs (snd (Backend.write_then_rename F now tmp target payload w)) !! tmp
            = None
      | Raise e =>
          unwritable F tmp e
          ∧ fs (snd (Backend.write_then_rename F now tmp target payload w)) !! target
            = fs w !! target
          ∧ Forall (λ m, m !! target = fs w !! target) news
          ∧ (fault_open F tmp = Some e →
             snd (Backend.write_then_rename F now tmp target payload w) = w)
      end.
Proof.
  intros Hne. unfold Backend.write_then_rename, open_w, file_write, path_replace.
  unfold_prog. unfold unwritable, old_or_complete.
  destruct (fault_open F tmp) as [e|] eqn:Eo; simpl.
  { exists []. repeat split; auto. }
  rewrite lookup_insert_eq. simpl.
  destruct (fault_write F tmp) as [[k e]|] eqn:Ew; simpl.
  { eexists [_; _]. split; [reflexivity|]. split.
    - apply Forall_cons. split; [left; simpl; by rewrite !lookup_insert_ne|].
      apply Forall_cons. split; [left; simpl; by rewrite lookup_insert_ne|].
      by apply Forall_nil.
    - split; [done|]. split; [done|]. split; [eauto|].
      split; [by rewrite !lookup_insert_ne|]. split; [|done].
      apply Forall_cons. split; [simpl; by rewrite !lookup_insert_ne|].
      apply Forall_cons. split; [simpl; by rewrite lookup_insert_ne|].
      by apply Forall_nil. }
  destruct (fault_replace F tmp) as [e|] eqn:Er; simpl.
  { eexists [_; _]. split; [reflexivity|]. split.
    - apply Forall_cons. split; [left; simpl; by rewrite !lookup_insert_ne|].
      apply Forall_cons. split; [left; simpl; by rewrite lookup_insert_ne|].
      by apply Forall_nil.
    - split; [done|]. split; [done|]. split; [auto|].
      split; [by rewrite !lookup_insert_ne|]. split; [|done].
      apply Forall_cons. split; [simpl; by rewrite !lookup_insert_ne|].
      apply Forall_cons. split; [simpl; by rewrite lookup_insert_ne|].
      by apply Forall_nil. }
  rewrite lookup_insert_eq. simpl.
  eexists [_; _; _]. split; [reflexivity|]. split.
  - apply Forall_cons. split; [right; simpl; by rewrite lookup_insert_eq|].
    apply Forall_cons. split; [left; simpl; by rewrite !lookup_insert_ne|].
    apply Forall_cons. split; [left; simpl; by rewrite lookup_insert_ne|].
    by apply Forall_nil.
  - repeat split; auto.
    + by rewrite lookup_insert_eq.
    + rewrite lookup_insert_ne by done. apply lookup_delete_eq.
Qed.

Lemma attribute_usage_fs have_db F owner size :
  preserves observed (Backend.attribute_usage have_db F owner size).
Proof.
  unfold Backend.attribute_usage.
  apply preserves_try_except; [|intros; apply preserves_ret].
  apply preserves_bind; [intros w; by rewrite safe_db_session_same|intros session].
  apply preserves_if; [|apply preserves_ret].
  apply preserves_try_except; [|intros; apply preserves_ret].
  apply preserves_bind; [apply preserves_may_fail|intros _]. done.
Qed.

Lemma attribute_usage_ret have_db F owner size w :
  fst (Backend.attribute_usage have_db F owner size w) = Ret tt.
Proof.
  unfold Backend.attribute_usage, try_except.
  by destruct (bind _ _ w) as [[[]|e] w'].
Qed.

Lemma save_job_payload_unfold cfg have_db F now uuid payload owner prefix w :
  Backend.save_job_payload cfg have_db F now uuid payload owner prefix w =
  let target := Backend.final_path cfg (str_or prefix uuid) in
  match Backend.write_then_rename F now (Backend.tmp_path cfg (str_or prefix uuid))
          target payload w with
  | (Raise e, w1) => (Raise e, w1)
  | (Ret _, w1) =>
      match fault_stat F target with
      | Some e => (Raise e, w1)
      | None =>
          match fs w1 !! target with
          | None => (Raise FileNotFoundError, w1)
          | Some st =>
              (Ret {| Backend.s_job_id := uuid;
                      Backend.s_filename := str_or prefix uuid +:+ ".txt";
                      Backend.s_size_bytes := st_size st |},
               snd (Backend.attribute_usage have_db F owner (st_size st) w1))
          end
      end
  end.
Proof.
  unfold Backend.save_job_payload. cbv zeta. unfold bind at 1.
  destruct (Backend.write_then_rename _ _ _ _ _ w) as [[[]|e] w1]; [|done].
  unfold bind at 1. unfold os_stat.
  destruct (fault_stat F _); [done|].
  destruct (fs w1 !! _) as [st|]; [|done].
  unfold bind. pose proof (attribute_usage_ret have_db F owner (st_size st) w1) as Hr.
  destruct (Backend.attribute_usage _ _ _ _ w1) as [[[]|e] w2]; simpl in *; done.
Qed.

Lemma unwritable_unique F tmp e e' : unwritable F tmp e → unwritable F tmp e' → e = e'.
Proof.
  unfold unwritable.
  intros [H|[[H1 [k H2]]|(H1 & H2 & H3)]] [H'|[[H1' [k' H2']]|(H1' & H2' & H3')]];
    congruence.
Qed.

(** C4, as amended. In the current variant, for every payload and
    whatever the environment refuses, [save_job_payload] writes the bytes
    to the temporary path and renames it to the final location: in every
    state the store goes through during the call the final location holds
    what it held before the call or the complete payload, so, when the
    location was free as it is for a fresh identifier, it is absent or
    complete at every point; and when the call returns, the final
    location holds the complete payload, the temporary path is gone and the
    size returned is the size of the payload. *)
Theorem save_job_payload_atomic
    (cfg : Config) (have_db : bool) (F : Faults) (now : Z) (uuid payload : string)
    (owner : option Z) (prefix : option string) (w : World) :
  let target := Backend.final_path cfg (str_or prefix uuid) in
  let tmp := Backend.tmp_path cfg (str_or prefix uuid) in
  let r := Backend.save_job_payload cfg have_db F now uuid payload owner prefix w in
  (∃ news, observed (snd r) = news ++ observed w
           ∧ Forall (old_or_complete (fs w) target payload now) news
           ∧ (fs w !! target = None →
              Forall (absent_or_complete target payload) news))
  ∧ (∀ s, fst r = Ret s →
          fs (snd r) !! target = Some (regular payload now)
          ∧ fs (snd r) !! tmp = None
          ∧ Backend.s_size_bytes s = Z.of_nat (String.length payload)).
Proof.
  intros target tmp r. unfold r. rewrite save_job_payload_unfold. cbv zeta.
  fold target. fold tmp.
  destruct (write_then_rename_states F now tmp target payload w
              (tmp_path_ne_final_path cfg (str_or prefix uuid)))
    as (news & Hobs & Hall & _ & _ & Hres).
  assert (Hfree : fs w !! target = None →
                  Forall (absent_or_complete target payload) news).
  { intros Hnone. eapply Forall_impl; [exact Hall|].
    intros m [Hm|Hm]; [left; congruence|right; by rewrite Hm]. }
  destruct (Backend.write_then_rename F now tmp target payload w) as [[[]|e] w1];
    simpl in Hobs, Hres.
  - destruct Hres as (_ & _ & _ & Ht & Htmp).
    destruct (fault_stat F target); simpl.
    + split; [by exists news|]. intros s Hs. discriminate Hs.
    + rewrite Ht. simpl. split.
      * exists news. rewrite attribute_usage_fs. done.
      * intros s [= <-]. simpl.
        pose proof (attribute_usage_fs have_db F owner
                      (st_size (regular payload now)) w1) as Hfs.
        unfold observed in Hfs. injection Hfs as Hfs _. rewrite Hfs. done.
  - simpl. split; [by exists news|]. intros s Hs. discriminate Hs.
Qed.

Lemma save_job_payload_atomic_witness :
  let target := Backend.final_path default_config "u1" in
  let r := Backend.save_job_payload default_config false no_faults 1000 "u1" "hello"
             None None empty_world in
  (∃ news, observed (snd r) = news ++ observed empty_world
           ∧ Forall (absent_or_complete target "hello") news)
  ∧ fs (snd r) !! target = Some (regular "hello" 1000)
  ∧ fs (snd r) !! Backend.tmp_path default_config "u1" = None
  ∧ fst r = Ret {| Backend.s_job_id := "u1"; Backend.s_filename := "u1.txt";
                   Backend.s_size_bytes := 5 |}.
Proof.
  intros target r.
  destruct (save_job_payload_atomic default_config false no_faults 1000 "u1" "hello"
              None None empty_world) as [(news & Hobs & _ & Hfree) Hret].
  split; [exists news; split; [exact Hobs|apply Hfree; reflexivity]|].
  destruct (Hret {| Backend.s_job_id := "u1"; Backend.s_filename := "u1.txt";
                    Backend.s_size_bytes := 5 |}) as (H1 & H2 & _).
  { vm_compute. reflexivity. }
  split; [exact H1|]. split; [exact H2|]. vm_compute. reflexivity.
Defined.

(** C6. When the storage medium refuses the write with an error [e] (a
    permission error at the creation of the temporary file, a full disk
    while the bytes are written, a refusal of the rename),
    [save_job_payload] fails with that storage error, raised to its
    caller, and nothing partial reaches the final location: at every
    state the store goes through, and at the end, it holds what it held
    before the call, so the temporary file was never promoted; when
    already its creation was refused the world is untouched; the ledger
    and the job table are untouched in every case. *)
Theorem save_job_payload_unwritable
    (cfg : Config) (have_db : bool) (F : Faults) (now : Z) (uuid payload : string)
    (owner : option Z) (prefix : option string) (w : World) (e : exn) :
  let target := Backend.final_path cfg (str_or prefix uuid) in
  let tmp := Backend.tmp_path cfg (str_or prefix uuid) in
  let r := Backend.save_job_payload cfg have_db F now uuid payload owner prefix w in
  unwritable F tmp e →
  fst r = Raise e
  ∧ fs (snd r) !! target = fs w !! target
  ∧ (∃ news, observed (snd r) = news ++ observed w
             ∧ Forall (λ m, m !! target = fs w !! target) news)
  ∧ users (snd r) = users w
  ∧ jobs (snd r) = jobs w
  ∧ (fault_open F tmp = Some e → snd r = w).
Proof.
  intros target tmp r Hun. unfold r. rewrite save_job_payload_unfold. cbv zeta.
  fold target. fold tmp.
  destruct (write_then_rename_states F now tmp target payload w
              (tmp_path_ne_final_path cfg (str_or prefix uuid)))
    as (news & Hobs & _ & Hus & Hjs & Hres).
  destruct (Backend.write_then_rename F now tmp target payload w) as [[[]|e'] w1];
    simpl in Hobs, Hus, Hjs, Hres.
  - destruct Hres as (H1 & H2 & H3 & _).
    destruct Hun as [H|[[_ [k H]]|(_ & _ & H)]]; congruence.
  - destruct Hres as (Hun' & Ht & Hall & Hopen).
    assert (e' = e) as -> by (by eapply unwritable_unique).
    simpl. split; [done|]. split; [done|]. split; [by exists news|]. done.
Qed.

Lemma save_job_payload_unwritable_witness :
  let target := Backend.final_path default_config "u1" in
  let tmp := Backend.tmp_path default_config "u1" in
  let r := Backend.save_job_payload default_config false disk_full 1000 "u1" "hello"
             None None empty_world in
  fst r = Raise (OSError ENOSPC)
  ∧ fs (snd r) !! target = None
  ∧ fs (snd r) !! tmp = Some (regular "hel" 1000)
  ∧ Backend.save_job_payload default_config false read_only 1000 "u1" "hello"
      None None empty_world
    = (Raise PermissionError, empty_world).
Proof.
  intros target tmp r.
  destruct (save_job_payload_unwritable default_config false disk_full 1000 "u1"
              "hello" None None empty_world (OSError ENOSPC))
    as (H1 & H2 & _).
  { right; left. split; [reflexivity|]. exists 3%nat. reflexivity. }
  split; [exact H1|]. split; [exact H2|]. split; vm_compute; reflexivity.
Defined.

(** C4, as stated, fails on the worker variant: [process_task] opens the
    final file itself and writes it in place, so right after the [open]
    the file of the job exists and is empty, which is neither absent nor
    the complete content. *)
Lemma process_task_write_counterexample :
  let w' := snd (Worker.process_task default_config no_faults 1000 iso_example
                   "hello" "j1" None empty_world) in
  (content <$> fs w' !! job_file default_config "j1")
  = Some (task_content iso_example 1000 "j1" "hello")
  ∧ (∃ m, m ∈ observed w'
          ∧ (content <$> m !! job_file default_config "j1") = Some "")
  ∧ ¬ process_task_writes_atomically.
Proof.
  assert (Hm : {[ job_file default_config "j1" := regular "" 1000 ]}
               ∈ observed (snd (Worker.process_task default_config no_faults 1000
                                  iso_example "hello" "j1" None empty_world))).
  { apply list_elem_of_lookup. exists 3%nat. vm_compute. reflexivity. }
  split; [vm_compute; reflexivity|]. split.
  - eexists. split; [exact Hm|]. vm_compute. reflexivity.
  - intros H.
    destruct (H default_config no_faults 1000 iso_example "hello" "j1" None
                empty_world eq_refl _ Hm) as [Habs|Hfull].
    + vm_compute in Habs. discriminate Habs.
    + vm_compute in Hfull. discriminate Hfull.
Qed.

(** ** Edges of the statements above *)

(** The cutoff of the current variant is computed before its [try]: a
    retention period [timedelta] cannot hold is raised to the caller
    (the loop of [cleaner.py] catches it), where the worker variant
    reports its own overflow as an error result. *)
Example backend_cutoff_overflow_is_raised :
  fst (Backend.cleanup_local_storage (with_retention 1000000000) false no_faults
         (100 * day) batch_world) = Raise OverflowError
  ∧ fst (Worker.cleanup_local_storage (with_retention (2 ^ 1024)) no_faults
           (100 * day) batch_world) = Ret [("error", PStr "OverflowError")].
Proof. split; vm_compute; reflexivity. Qed.

(** The ledger invariant rests on the increments being byte counts: the
    SQL of [_inc_user_storage] does not clamp. *)
Example negative_increment_is_not_clamped :
  Worker.balance
    (users (run_ledger_ops no_faults [Increment 1 (-200)] ledger_world)) 1 = -100.
Proof. vm_compute. reflexivity. Qed.

(** * Further properties of the code *)

(** ** Triples *)

Lemma triple_ret {A} (P : World → Prop) (a : A) (Q : A → World → Prop) E :
  (∀ w, P w → Q a w) → triple P (ret a) Q E.
Proof. intros H w Hw. by apply H. Qed.

Lemma triple_bind {A B} (P : World → Prop) (m : M World A) (k : A → M World B)
    (R : A → World → Prop) (Q : B → World → Prop) E :
  triple P m R E → (∀ a, triple (R a) (k a) Q E) → triple P (bind m k) Q E.
Proof.
  intros Hm Hk w Hw. unfold bind. specialize (Hm w Hw).
  destruct (m w) as [[a|e] w']; [|done]. by apply Hk.
Qed.

Lemma triple_try_except {A} (P : World → Prop) (m : M World A) h
    (Q : A → World → Prop) (E' E : exn → World → Prop) :
  triple P m Q E' → (∀ e, triple (E' e) (h e) Q E) → triple P (try_except m h) Q E.
Proof.
  intros Hm Hh w Hw. unfold try_except. specialize (Hm w Hw).
  destruct (m w) as [[a|e] w']; [done|]. by apply Hh.
Qed.

Lemma triple_conseq {A} (P P' : World → Prop) (m : M World A)
    (Q Q' : A → World → Prop) (E E' : exn → World → Prop) :
  triple P' m Q' E' → (∀ w, P w → P' w) → (∀ a w, Q' a w → Q a w) →
  (∀ e w, E' e w → E e w) → triple P m Q E.
Proof.
  intros Hm HP HQ HE w Hw. specialize (Hm w (HP w Hw)).
  destruct (m w) as [[a|e] w']; auto.
Qed.

Lemma keeps_bind {A B} (I : World → Prop) (m : M World A) (k : A → M World B) :
  keeps I m → (∀ a, keeps I (k a)) → keeps I (bind m k).
Proof. intros Hm Hk. eapply triple_bind; [exact Hm|exact Hk]. Qed.

Lemma keeps_try_except {A} (I : World → Prop) (m : M World A) h :
  keeps I m → (∀ e, keeps I (h e)) → keeps I (try_except m h).
Proof. intros Hm Hh. eapply triple_try_except; [exact Hm|exact Hh]. Qed.

Lemma keeps_ret {A} (I : World → Prop) (a : A) : keeps I (ret a).
Proof. by apply triple_ret. Qed.

Lemma keeps_if {A} (I : World → Prop) (b : bool) (m1 m2 : M World A) :
  keeps I m1 → keeps I m2 → keeps I (if b then m1 else m2).
Proof. by destruct b. Qed.

(** A program that leaves the user table alone keeps the ledger
    invariant. *)
Lemma keeps_ledger_preserves {A} (m : M World A) :
  preserves users m → keeps ledger_inv m.
Proof.
  intros H w Hw. specialize (H w). unfold ledger_inv in *.
  destruct (m w) as [[a|e] w']; simpl in H; by rewrite H.
Qed.

Lemma commit_job_users F id f : preserves users (Worker.commit_job F id f).
Proof.
  unfold Worker.commit_job. apply preserves_bind; [apply preserves_may_fail|].
  by intros _ w.
Qed.

Lemma getsize_nonneg F p :
  triple ledger_inv (try_except (os_path_getsize F p) (λ _, ret 0))
    (λ size w, 0 ≤ size ∧ ledger_inv w) (λ _ _, False).
Proof.
  intros w Hw. unfold os_path_getsize, os_stat. unfold_prog.
  destruct (fault_stat F p); simpl; [split; [lia|done]|].
  destruct (fs w !! p) as [f|]; simpl; (split; [|done]); unfold st_size; lia.
Qed.

Lemma inc_user_storage_keeps F uid size :
  0 ≤ size → keeps ledger_inv (Worker._inc_user_storage F uid size).
Proof.
  intros Hs w Hw. unfold Worker._inc_user_storage. unfold_prog.
  destruct (fault_db_ledger F uid); simpl; [done|].
  unfold ledger_inv. simpl. apply ledger_ok_alter; [done|]. intros u Hu. simpl. lia.
Qed.

Lemma process_task_keeps_ledger cfg F now isoformat text id owner :
  keeps ledger_inv (Worker.process_task cfg F now isoformat text id owner).
Proof.
  unfold Worker.process_task. cbv zeta.
  apply keeps_bind; [apply keeps_ledger_preserves, os_makedirs_users|intros _].
  apply keeps_bind; [|intros _].
  { apply keeps_ledger_preserves, preserves_try_except;
      [apply insert_job_users|intros; apply preserves_ret]. }
  apply keeps_bind; [apply keeps_ledger_preserves, open_w_users|intros _].
  do 3 (apply keeps_bind; [apply keeps_ledger_preserves, file_write_users|intros _]).
  eapply triple_bind.
  { eapply triple_conseq; [apply getsize_nonneg|done|done|]. intros e w []. }
  intros size. simpl.
  eapply triple_conseq with (P' := λ w, 0 ≤ size ∧ ledger_inv w)
                            (Q' := λ _, ledger_inv) (E' := λ _, ledger_inv);
    [|done|done|done].
  intros w [Hsize Hw]. revert w Hw.
  change (keeps ledger_inv
    ((if truthy_int owner
      then Worker._inc_user_storage F (default 0 owner) size;;;
           try_except
             (may_fail (fault_db_session F);;;
              let* w0 := get in
              match Worker.get_job id (jobs w0) with
              | Some _ => Worker.commit_job F id (Worker.set_processed size (now + 1))
              | None => ret ()
              end) (λ _ : exn, ret ())
      else ret ());;;
     let* up := Worker.upload_to_s3 cfg F
                  (os_path_join (STORAGE_DIR cfg) (id +:+ ".txt"))
                  ("outputs/" +:+ id +:+ ".txt") in
     (if Worker.uploaded up && REMOVE_LOCAL_AFTER_UPLOAD cfg
      then try_except (os_remove F (os_path_join (STORAGE_DIR cfg) (id +:+ ".txt")))
             (λ _ : exn, ret ())
      else ret ());;;
     ret {| Worker.r_job_id := id;
            Worker.r_local_path := os_path_join (STORAGE_DIR cfg) (id +:+ ".txt");
            Worker.r_s3 := up |})).
  apply keeps_bind; [|intros _].
  { apply keeps_if; [|apply keeps_ret].
    apply keeps_bind; [by apply inc_user_storage_keeps|intros _].
    apply keeps_ledger_preserves, preserves_try_except; [|intros; apply preserves_ret].
    apply preserves_bind; [apply preserves_may_fail|intros _].
    apply preserves_bind; [done|intros w0].
    destruct (Worker.get_job id (jobs w0)); [apply commit_job_users|apply preserves_ret]. }
  apply keeps_bind; [apply keeps_ledger_preserves, upload_to_s3_preserves|intros up].
  apply keeps_bind; [|intros _; apply keeps_ret].
  apply keeps_ledger_preserves, preserves_if; [|apply preserves_ret].
  apply preserves_try_except; [apply os_remove_users|intros; apply preserves_ret].
Qed.

Lemma cleanup_keeps_ledger cfg F now :
  keeps ledger_inv (Worker.cleanup_local_storage cfg F now).
Proof.
  intros w Hw. rewrite cleanup_unfold.
  destruct (int_to_float _) as [secs|e]; [|done].
  destruct (storage_dir w); [|done].
  destruct (fault_db_query F); [done|].
  by apply sweep_fold_ledger_ok.
Qed.

(** X1. Over any succession of sweeps and of processings of tasks with
    fresh identifiers, whatever the environment refuses, the counters of
    the user table stay non-negative. *)
Theorem ledger_invariant_over_steps (w w' : World) :
  rtc step w w' → ledger_ok (users w) → ledger_ok (users w').
Proof.
  induction 1 as [w|w1 w2 w3 H12 _ IH]; [done|]. intros Hok. apply IH.
  destruct H12 as [cfg F now w0|cfg F now isoformat text id owner w0 Hfresh].
  - pose proof (cleanup_keeps_ledger cfg F now w0 Hok) as H.
    by destruct (Worker.cleanup_local_storage cfg F now w0) as [[d|e] w'].
  - pose proof (process_task_keeps_ledger cfg F now isoformat text id owner w0 Hok) as H.
    by destruct (Worker.process_task cfg F now isoformat text id owner w0) as [[d|e] w'].
Qed.

Lemma ledger_invariant_over_steps_witness :
  ledger_ok (users (snd (Worker.cleanup_local_storage default_config no_faults
                           (100 * day) life_world))).
Proof.
  apply (ledger_invariant_over_steps life_world).
  - apply rtc_once. apply step_sweep.
  - apply (bool_decide_unpack _). vm_compute. exact I.
Defined.

(** ** Sweeps that remove nothing *)

Lemma sweep_step_not_removable F cutoff j w n :
  removable F cutoff (fs w) j = false → sweep_step F cutoff j (w, n) = (w, n).
Proof. intros H. unfold sweep_step. by rewrite H. Qed.

Lemma sweep_fold_none_removable F cutoff js : ∀ w n,
  (∀ j, j ∈ js → removable F cutoff (fs w) j = false) →
  sweep_fold F cutoff js (w, n) = (w, n).
Proof.
  induction js as [|j js IH]; intros w n H; [done|].
  rewrite sweep_fold_cons, sweep_step_not_removable
    by (apply H; apply list_elem_of_here).
  apply IH. intros j' Hj'. apply H. by apply elem_of_cons; right.
Qed.

Lemma sweep_fold_count_mono F cutoff js : ∀ w n,
  n ≤ snd (sweep_fold F cutoff js (w, n)).
Proof.
  induction js as [|j js IH]; intros w n; [simpl; lia|].
  rewrite sweep_fold_cons.
  pose proof (sweep_step_count F cutoff j w n) as E.
  destruct (sweep_step F cutoff j (w, n)) as [w1 n1]. simpl in E.
  specialize (IH w1 n1). destruct (removable _ _ _ _); lia.
Qed.

Lemma sweep_fold_zero F cutoff js : ∀ w n,
  snd (sweep_fold F cutoff js (w, n)) = n → sweep_fold F cutoff js (w, n) = (w, n).
Proof.
  induction js as [|j js IH]; intros w n H; [done|].
  rewrite sweep_fold_cons in *.
  destruct (removable F cutoff (fs w) j) eqn:Hr.
  - pose proof (sweep_step_count F cutoff j w n) as E. rewrite Hr in E.
    destruct (sweep_step F cutoff j (w, n)) as [w1 n1]. simpl in E.
    pose proof (sweep_fold_count_mono F cutoff js w1 n1). lia.
  - rewrite sweep_step_not_removable in * by done. by apply IH.
Qed.

(** X2. Whatever the environment refuses, a sweep of the worker variant
    that does not report a positive number of deletions (it reports
    [deleted: 0], or an error without a count) has changed nothing: no
    file, no counter of the ledger, no row of the job table. *)
Theorem sweep_reporting_zero_changed_nothing
    (cfg : Config) (F : Faults) (now : Z) (w : World) (d : pydict) :
  fst (Worker.cleanup_local_storage cfg F now w) = Ret d →
  dict_get d "deleted" = Some (PInt 0) ∨ dict_get d "deleted" = None →
  snd (Worker.cleanup_local_storage cfg F now w) = w.
Proof.
  rewrite cleanup_unfold.
  destruct (int_to_float _) as [secs|e]; [|done].
  destruct (storage_dir w); [|done].
  destruct (fault_db_query F); [done|]. simpl.
  intros [= <-] [H|H]; [|discriminate H]. simpl in H.
  injection H as H. unfold sweep_all in *.
  by rewrite sweep_fold_zero.
Qed.

Lemma sweep_reporting_zero_changed_nothing_witness :
  snd (Worker.cleanup_local_storage default_config no_faults (100 * day)
         threshold_world) = threshold_world.
Proof.
  apply (sweep_reporting_zero_changed_nothing default_config no_faults (100 * day)
           threshold_world [("deleted", PInt 0)]).
  - vm_compute. reflexivity.
  - left. reflexivity.
Defined.





(** ** The processing step when nothing is refused *)

Lemma get_job_app_fresh id (js : list Job) row :
  Worker.get_job id js = None → job_id row = id →
  Worker.get_job id (js ++ [row]) = Some row.
Proof.
  intros Hf Hid. apply get_job_None in Hf. unfold Worker.get_job.
  induction Hf as [|j js Hj _ IH]; simpl.
  - by rewrite Hid, String.eqb_refl.
  - destruct (String.eqb_spec (job_id j) id); [done|]. exact IH.
Qed.

Lemma update_job_app_fresh id f (js : list Job) row :
  Worker.get_job id js = None → job_id row = id →
  Worker.update_job id f (js ++ [row]) = js ++ [f row].
Proof.
  intros Hf Hid. apply get_job_None in Hf. unfold Worker.update_job.
  rewrite map_app. fold (Worker.update_job id f js). rewrite update_job_fresh by done.
  simpl. by rewrite Hid, String.eqb_refl.
Qed.

Lemma uploaded_no_faults cfg p o w f :
  fs w !! p = Some f → is_reg f = true →
  ∃ up, Worker.upload_to_s3 cfg no_faults p o w = (Ret up, w)
        ∧ Worker.uploaded up = Worker.s3_configured cfg.
Proof.
  intros Hf Hr. unfold Worker.upload_to_s3.
  destruct (Worker.s3_configured cfg); simpl; [|by eexists].
  unfold_prog. simpl. rewrite Hf, Hr. simpl. by eexists.
Qed.

(** What [process_task] leaves when nothing is refused, for a task with
    an owner and a fresh identifier. *)
Lemma process_task_no_faults cfg now isoformat text id owner w :
  Worker.get_job id (jobs w) = None → truthy_int owner = true →
  let r := Worker.process_task cfg no_faults now isoformat text id owner w in
  (∃ res, fst r = Ret res)
  ∧ fs (snd r)
    = (if removes_local cfg then delete (job_file cfg id) else λ m, m)
        (<[job_file cfg id := regular (task_content isoformat now id text) now]> (fs w))
  ∧ users (snd r)
    = Worker.sql_inc (default 0 owner) (task_size isoformat now id text) (users w)
  ∧ jobs (snd r) = jobs w ++ [done_row cfg isoformat now id text owner]
  ∧ storage_dir (snd r) = true.
Proof.
  intros Hfresh Hown r. unfold r, Worker.process_task, removes_local. cbv zeta.
  rewrite Hown.
  fold (job_file cfg id). fold (processing_row cfg now id owner).
  unfold Worker.os_makedirs, Worker.insert_job, Worker._inc_user_storage,
    Worker.commit_job, Worker.upload_to_s3, open_w, file_write.
  destruct (Worker.s3_configured cfg); cbn [negb andb];
    unfold_prog; simpl; rewrite Hfresh; simpl;
    rewrite !lookup_insert_eq; simpl;
    rewrite (get_job_app_fresh id (jobs w) (processing_row cfg now id owner)) by done;
    simpl;
    rewrite (update_job_app_fresh id _ (jobs w) (processing_row cfg now id owner))
      by done;
    rewrite ?insert_insert_eq, ?lookup_insert_eq;
    unfold done_row, task_size, task_content, st_size; simpl.
  - destruct (REMOVE_LOCAL_AFTER_UPLOAD cfg); simpl.
    + rewrite ?lookup_insert_eq. simpl. repeat split; eauto.
    + repeat split; eauto.
  - repeat split; eauto.
Qed.

Lemma string_length_app (a b : string) :
  String.length (a +:+ b) = (String.length a + String.length b)%nat.
Proof. induction a as [|c a IH]; simpl; [done|]. by rewrite IH. Qed.

Lemma string_app_assoc (a b c : string) : (a +:+ b) +:+ c = a +:+ (b +:+ c).
Proof.
  induction a as [|x a IH]; [done|].
  change (String x ((a +:+ b) +:+ c) = String x (a +:+ (b +:+ c))).
  by rewrite IH.
Qed.

Lemma task_content_eq isoformat now id text :
  task_content isoformat now id text
  = "job_id: " +:+ id +:+ nl +:+ "timestamp: " +:+ isoformat now
    +:+ nl +:+ nl +:+ text +:+ nl.
Proof.
  unfold task_content. generalize (isoformat now). intros ts.
  change ("" +:+ ("job_id: " +:+ id +:+ nl)) with ("job_id: " +:+ id +:+ nl).
  by rewrite !string_app_assoc.
Qed.

Lemma task_size_eq isoformat now id text :
  task_size isoformat now id text
  = Z.of_nat (String.length text) + Z.of_nat (String.length id)
    + Z.of_nat (String.length (isoformat now)) + 23.
Proof.
  unfold task_size, task_content. rewrite !string_length_app. simpl. lia.
Qed.

Lemma balance_sql_inc (us : gmap Z User) o d uid :
  is_Some (us !! uid) →
  Worker.balance (Worker.sql_inc o d us) uid =
  if o =? uid then Worker.balance us uid + d else Worker.balance us uid.
Proof.
  intros [u Hu]. unfold Worker.balance, Worker.sql_inc.
  destruct (Z.eqb_spec o uid) as [->|Hne].
  - rewrite lookup_alter_eq, Hu. done.
  - by rewrite lookup_alter_ne.
Qed.

Lemma truthy_int_Some uid : uid ≠ 0 → truthy_int (Some uid) = true.
Proof. intros H. simpl. by destruct (Z.eqb_spec uid 0). Qed.

(** X4. When nothing is refused, a task processed for an owner with a
    fresh identifier is accounted consistently: the size recorded in its
    job row, the increase of the owner's counter and, unless the local copy
    is removed after an upload, the size of the file on disk are one and
    the same number, the length of the text plus the lengths of the
    identifier and of the timestamp plus 23 bytes of envelope; the row is
    done and the file holds the text after its two header lines. *)
Theorem processed_task_is_accounted_consistently
    (cfg : Config) (now : Z) (isoformat : Z → string) (text id : string)
    (uid : Z) (w : World) :
  Worker.get_job id (jobs w) = None → uid ≠ 0 → is_Some (users w !! uid) →
  let w' := snd (Worker.process_task cfg no_faults now isoformat text id (Some uid) w) in
  let size := Z.of_nat (String.length text) + Z.of_nat (String.length id)
              + Z.of_nat (String.length (isoformat now)) + 23 in
  (∃ row, Worker.get_job id (jobs w') = Some row
          ∧ status row = Done ∧ size_bytes row = Some size
          ∧ processed_at row = Some (now + 1) ∧ owner_id row = Some uid
          ∧ filename row = Some (job_file cfg id))
  ∧ Worker.balance (users w') uid = Worker.balance (users w) uid + size
  ∧ (∀ other, other ≠ uid → users w' !! other = users w !! other)
  ∧ (removes_local cfg = false →
     ∃ f, fs w' !! job_file cfg id = Some f ∧ st_size f = size
          ∧ content f = "job_id: " +:+ id +:+ nl +:+ "timestamp: " +:+ isoformat now
                        +:+ nl +:+ nl +:+ text +:+ nl)
  ∧ (removes_local cfg = true → fs w' !! job_file cfg id = None).
Proof.
  intros Hfresh Hne Hu w' size.
  destruct (process_task_no_faults cfg now isoformat text id (Some uid) w Hfresh
              (truthy_int_Some uid Hne)) as (_ & Hfs & Hus & Hjs & _).
  fold w' in Hfs, Hus, Hjs.
  assert (Hsize : task_size isoformat now id text = size) by apply task_size_eq.
  split; [|split; [|split; [|split]]].
  - exists (done_row cfg isoformat now id text (Some uid)). rewrite Hjs.
    split; [by apply get_job_app_fresh|]. simpl. by rewrite Hsize.
  - rewrite Hus. simpl. rewrite balance_sql_inc by done.
    rewrite Z.eqb_refl. by rewrite Hsize.
  - intros other Ho. rewrite Hus. unfold Worker.sql_inc. simpl.
    by rewrite lookup_alter_ne.
  - intros Hrm. rewrite Hfs, Hrm, lookup_insert_eq. eexists. split; [done|].
    split; [exact Hsize|]. apply task_content_eq.
  - intros Hrm. rewrite Hfs, Hrm. apply lookup_delete_eq.
Qed.

Lemma processed_task_is_accounted_consistently_witness :
  let w' := snd (Worker.process_task default_config no_faults 1000 iso_example
                   "hello" "j1" (Some 7) owner_world) in
  Worker.balance (users w') 7 = 100 + (5 + 2 + 25 + 23)
  ∧ (size_bytes <$> Worker.get_job "j1" (jobs w')) = Some (Some 55).
Proof.
  destruct (processed_task_is_accounted_consistently default_config 1000 iso_example
              "hello" "j1" 7 owner_world) as ((row & Hrow & _ & Hsz & _) & Hbal & _).
  - reflexivity.
  - discriminate.
  - vm_compute. eauto.
  - split; [exact Hbal|]. rewrite Hrow. simpl. rewrite Hsz. reflexivity.
Defined.

(** ** Intake against the quota *)

(** X5. The estimate of [enqueue] covers the envelope [process_task]
    adds: when a request is admitted for a user as the table holds it and
    the task it queued is then processed with nothing refused, the
    owner's counter is still within the quota of the plan, as long as
    identifier and timestamp take no more than 1001 bytes together (a
    UUID and an ISO timestamp take 68). *)
Theorem admitted_intake_stays_within_quota
    (cfg : Config) (now : Z) (isoformat : Z → string) (text uuid : string)
    (uid : Z) (user : User) (w : World) (resp : pydict) (task : Worker.Task) :
  users w !! uid = Some user →
  Worker.enqueue cfg text uid user uuid = Ret (resp, task) →
  Worker.get_job uuid (jobs w) = None →
  Z.of_nat (String.length uuid) + Z.of_nat (String.length (isoformat now)) + 23 ≤ 1024 →
  let w' := snd (Worker.process_task cfg no_faults now isoformat
                   (Worker.task_text task) (Worker.task_job_id task)
                   (Worker.task_owner_id task) w) in
  Worker.balance (users w') uid ≤ Worker.plan_quota cfg user.
Proof.
  intros Hu Henq Hfresh Hover w'.
  unfold Worker.enqueue in Henq.
  destruct (Worker.quota_exceeded cfg user (Worker.estimated_size text)) eqn:Hq;
    [discriminate Henq|].
  injection Henq as _ <-. simpl in w'.
  unfold Worker.quota_exceeded in Hq. rewrite int_or_0 in Hq.
  apply Z.ltb_ge in Hq. unfold Worker.estimated_size in Hq.
  assert (Hb : Worker.balance (users w) uid = COALESCE (storage_used_bytes user) 0).
  { unfold Worker.balance. by rewrite Hu. }
  destruct (Z.eq_dec uid 0) as [->|Hne].
  - destruct (process_task_anonymous cfg no_faults now isoformat text uuid (Some 0) w
                eq_refl) as [_ Hus].
    fold w' in Hus. rewrite Hus, Hb. lia.
  - destruct (process_task_no_faults cfg now isoformat text uuid (Some uid) w Hfresh
                (truthy_int_Some uid Hne)) as (_ & _ & Hus & _).
    fold w' in Hus. rewrite Hus. simpl. rewrite balance_sql_inc by (by rewrite Hu).
    rewrite Z.eqb_refl, Hb, task_size_eq. lia.
Qed.

Lemma admitted_intake_stays_within_quota_witness :
  Worker.balance
    (users (snd (Worker.process_task default_config no_faults 1000 iso_example
                   "hello" "j1" (Some 7) owner_world))) 7
  ≤ Worker.plan_quota default_config (user_with (Some "free") (Some 100)).
Proof.
  apply (admitted_intake_stays_within_quota default_config 1000 iso_example "hello"
           "j1" 7 (user_with (Some "free") (Some 100)) owner_world
           [("enqueued", PBool true); ("job_id", PStr "j1"); ("rq_id", PStr "j1")]
           {| Worker.task_text := "hello"; Worker.task_job_id := "j1";
              Worker.task_owner_id := Some 7 |}).
  - vm_compute. reflexivity.
  - vm_compute. reflexivity.
  - reflexivity.
  - vm_compute. discriminate.
Defined.

(** ** A task and the sweep that reclaims it *)

Lemma job_file_nonempty cfg id : job_file cfg id ≠ "".
Proof.
  unfold job_file, os_path_join.
  assert (Hb : id +:+ ".txt" ≠ "") by (by destruct id).
  destruct (starts_with_slash _); [done|].
  destruct (String.eqb_spec (STORAGE_DIR cfg) ""); [done|].
  destruct (ends_with_slash _); by destruct (STORAGE_DIR cfg).
Qed.

Lemma removable_other_file F cutoff (m : gmap string File) p f j :
  filename j ≠ Some p →
  removable F cutoff (<[p := f]> m) j = removable F cutoff m j
  ∧ removable F cutoff (delete p (<[p := f]> m)) j = removable F cutoff (delete p m) j.
Proof.
  intros Hne. unfold removable, truthy_str.
  destruct (filename j) as [q|]; simpl; [|done].
  assert (p ≠ q) by congruence.
  rewrite lookup_insert_ne by done.
  by rewrite !lookup_delete_ne, lookup_insert_ne by done.
Qed.

Lemma sweep_fold_app F cutoff js1 js2 st :
  sweep_fold F cutoff (js1 ++ js2) st
  = sweep_fold F cutoff js2 (sweep_fold F cutoff js1 st).
Proof. unfold sweep_fold. apply fold_left_app. Qed.

(** X6. Round trip of the accounting: a task processed for an owner
    and then swept once its file has outlived the retention period,
    nothing being refused and no other done job waiting for the sweep,
    leaves the owner's counter where it was before the task; the file is
    gone, the sweep reports one deletion and the row of the job is kept,
    marked deleted. *)
Theorem task_then_sweep_restores_ledger
    (cfg : Config) (now later : Z) (isoformat : Z → string) (text id : string)
    (uid : Z) (w : World) :
  Worker.get_job id (jobs w) = None → uid ≠ 0 → is_Some (users w !! uid) →
  0 ≤ Worker.balance (users w) uid →
  removes_local cfg = false →
  no_done_job_names (job_file cfg id) (jobs w) →
  (∀ j, j ∈ candidates w → removable no_faults (cutoff_ts cfg later) (fs w) j = false) →
  int_to_float (RETENTION_DAYS cfg * 86400) = Ret (RETENTION_DAYS cfg * 86400) →
  RETENTION_DAYS cfg * 86400 < later - now →
  let w1 := snd (Worker.process_task cfg no_faults now isoformat text id (Some uid) w) in
  let r := Worker.cleanup_local_storage cfg no_faults later w1 in
  fst r = Ret [("deleted", PInt 1)]
  ∧ fs (snd r) !! job_file cfg id = None
  ∧ Worker.balance (users (snd r)) uid = Worker.balance (users w) uid
  ∧ jobs (snd r)
    = jobs w ++ [set_status Deleted (done_row cfg isoformat now id text (Some uid))].
Proof.
  intros Hfresh Hne Hu Hbal Hrm Hnames Hnone Hfloat Hold w1 r.
  destruct (process_task_no_faults cfg now isoformat text id (Some uid) w Hfresh
              (truthy_int_Some uid Hne)) as (_ & Hfs & Hus & Hjs & Hdir).
  fold w1 in Hfs, Hus, Hjs, Hdir. rewrite Hrm in Hfs.
  assert (Hok : sweep_level_ok cfg no_faults w1) by done.
  unfold r. rewrite (cleanup_ok cfg no_faults later w1 Hok). simpl.
  unfold sweep_all.
  assert (Hcand : filter (λ j, status j = Done) (jobs w1)
                  = candidates w ++ [done_row cfg isoformat now id text (Some uid)]).
  { rewrite Hjs, filter_app. done. }
  rewrite Hcand, sweep_fold_app.
  rewrite sweep_fold_none_removable.
  2: { intros j Hj. rewrite Hfs.
       destruct (removable_other_file no_faults (cutoff_ts cfg later) (fs w)
                   (job_file cfg id)
                   (regular (task_content isoformat now id text) now) j) as [-> _].
       - apply list_elem_of_filter in Hj as [Hd Hj]. by apply Hnames.
       - by apply Hnone. }
  unfold sweep_fold. cbn [fold_left]. rewrite sweep_step_no_faults.
  assert (Hstale : stale (cutoff_ts cfg later) (fs w1)
                     (done_row cfg isoformat now id text (Some uid)) = true).
  { apply stale_spec. eexists _, _. split; [reflexivity|].
    split; [apply job_file_nonempty|]. rewrite Hfs, lookup_insert_eq.
    split; [reflexivity|]. split; [reflexivity|]. unfold cutoff_ts. simpl. lia. }
  rewrite Hstale. cbn [fst snd owner_id done_row Worker.set_processed processing_row].
  rewrite (truthy_int_Some uid Hne). simpl.
  split; [done|]. split; [apply lookup_delete_eq|]. split.
  - unfold size_of. simpl. rewrite Hfs, lookup_insert_eq, Hus. simpl.
    rewrite balance_sql_dec by (unfold st_size; lia).
    rewrite Z.eqb_refl, balance_sql_inc, Z.eqb_refl by done.
    unfold task_size, st_size. simpl. lia.
  - rewrite Hjs. by apply update_job_app_fresh.
Qed.

Lemma task_then_sweep_restores_ledger_witness :
  let w1 := snd (Worker.process_task default_config no_faults 1000 iso_example
                   "hello" "j1" (Some 7) owner_world) in
  let r := Worker.cleanup_local_storage default_config no_faults (1000 + 30 * day) w1 in
  fst r = Ret [("deleted", PInt 1)]
  ∧ fs (snd r) !! job_file default_config "j1" = None
  ∧ Worker.balance (users (snd r)) 7 = Worker.balance (users owner_world) 7
  ∧ jobs (snd r)
    = jobs owner_world
      ++ [set_status Deleted (done_row default_config iso_example 1000 "j1" "hello"
                                (Some 7))].
Proof.
  apply (task_then_sweep_restores_ledger default_config 1000 (1000 + 30 * day)
           iso_example "hello" "j1" 7 owner_world).
  - reflexivity.
  - discriminate.
  - vm_compute. eauto.
  - vm_compute. discriminate.
  - reflexivity.
  - intros j Hj. by apply elem_of_nil in Hj.
  - intros j Hj. by apply elem_of_nil in Hj.
  - vm_compute. reflexivity.
  - vm_compute. reflexivity.
Defined.

(** ** Bytes no sweep releases *)

Lemma removable_gone F cutoff (m : gmap string File) j :
  m !! default "" (filename j) = None → removable F cutoff m j = false.
Proof. intros H. unfold removable. rewrite H. apply andb_false_r. Qed.

Lemma cleanup_done_files_gone cfg F now w :
  done_files_gone w → snd (Worker.cleanup_local_storage cfg F now w) = w.
Proof.
  intros Hgone. rewrite cleanup_unfold.
  destruct (int_to_float _) as [secs|e]; [|done].
  destruct (storage_dir w); [|done].
  destruct (fault_db_query F); [done|]. simpl.
  unfold sweep_all. rewrite sweep_fold_none_removable; [done|].
  intros j Hj. apply removable_gone. by apply Hgone.
Qed.

Lemma run_sweeps_done_files_gone sweeps w :
  done_files_gone w → run_sweeps sweeps w = w.
Proof.
  intros Hgone. induction sweeps as [|[[cfg F] now] l IH]; [done|].
  simpl. by rewrite cleanup_done_files_gone.
Qed.

(** X7. Where the local copy is removed after a successful upload, the
    bytes of the task stay on the owner's counter for good: after the
    task the file is gone and the counter has grown by its size, and as
    the sweep skips a done job whose file is missing, no succession of
    sweeps, at whatever time, changes the world again (provided no other
    done job still has its file). *)
Theorem uploaded_task_bytes_stay_counted
    (cfg : Config) (now : Z) (isoformat : Z → string) (text id : string)
    (uid : Z) (w : World) (sweeps : list (Config * Faults * Z)) :
  Worker.get_job id (jobs w) = None → uid ≠ 0 → is_Some (users w !! uid) →
  removes_local cfg = true →
  done_files_gone w →
  let w1 := snd (Worker.process_task cfg no_faults now isoformat text id (Some uid) w) in
  fs w1 !! job_file cfg id = None
  ∧ (status <$> Worker.get_job id (jobs w1)) = Some Done
  ∧ Worker.balance (users w1) uid
    = Worker.balance (users w) uid + task_size isoformat now id text
  ∧ run_sweeps sweeps w1 = w1.
Proof.
  intros Hfresh Hne Hu Hrm Hgone w1.
  destruct (process_task_no_faults cfg now isoformat text id (Some uid) w Hfresh
              (truthy_int_Some uid Hne)) as (_ & Hfs & Hus & Hjs & _).
  fold w1 in Hfs, Hus, Hjs. rewrite Hrm in Hfs.
  split; [rewrite Hfs; apply lookup_delete_eq|]. split.
  { rewrite Hjs, (get_job_app_fresh id (jobs w)
                    (done_row cfg isoformat now id text (Some uid))); done. }
  split.
  { rewrite Hus. simpl. rewrite balance_sql_inc by done. by rewrite Z.eqb_refl. }
  apply run_sweeps_done_files_gone. intros j Hj. unfold candidates in Hj.
  rewrite Hjs, filter_app in Hj. rewrite Hfs.
  destruct (decide (default "" (filename j) = job_file cfg id)) as [->|Hother];
    [apply lookup_delete_eq|].
  rewrite lookup_delete_ne, lookup_insert_ne by done.
  apply elem_of_app in Hj as [Hj|Hj]; [by apply Hgone|].
  apply list_elem_of_filter in Hj as [_ Hj]. apply list_elem_of_singleton in Hj.
  subst j. done.
Qed.

Lemma uploaded_task_bytes_stay_counted_witness :
  let w1 := snd (Worker.process_task s3_config no_faults 1000 iso_example
                   "hello" "j1" (Some 7) owner_world) in
  fs w1 !! job_file s3_config "j1" = None
  ∧ (status <$> Worker.get_job "j1" (jobs w1)) = Some Done
  ∧ Worker.balance (users w1) 7
    = Worker.balance (users owner_world) 7 + task_size iso_example 1000 "j1" "hello"
  ∧ run_sweeps [(s3_config, no_faults, 1000 + 30 * day);
                (s3_config, b_vanished, 1000 + 60 * day)] w1 = w1.
Proof.
  apply (uploaded_task_bytes_stay_counted s3_config 1000 iso_example "hello" "j1" 7
           owner_world).
  - reflexivity.
  - discriminate.
  - vm_compute. eauto.
  - reflexivity.
  - intros j Hj. by apply elem_of_nil in Hj.
Defined.

(** ** Deletion by the owner ([delete_file]) *)

(** X8. [delete_file] answers 404 and touches nothing when the job does
    not exist or is not owned by the caller; a job without owner can be
    deleted by nobody. *)
Theorem delete_file_needs_the_owner (F : Faults) (id : string) (uid : Z) (w : World) :
  fault_db_session F = None →
  (∀ job, Worker.get_job id (jobs w) = Some job → owner_id job ≠ Some uid) →
  WorkerApi.delete_file F id uid w = (Raise (HTTPException 404 "File not found"), w).
Proof.
  intros Hs Hown. unfold WorkerApi.delete_file. unfold_prog. rewrite Hs. simpl.
  destruct (Worker.get_job id (jobs w)) as [job|] eqn:Ej; [|done].
  rewrite bool_decide_false by (by apply Hown). done.
Qed.

Lemma delete_file_needs_the_owner_witness :
  WorkerApi.delete_file no_faults "c" 1 delete_world
  = (Raise (HTTPException 404 "File not found"), delete_world)
  ∧ WorkerApi.delete_file no_faults "anon" 1 delete_world
    = (Raise (HTTPException 404 "File not found"), delete_world)
  ∧ WorkerApi.delete_file no_faults "nope" 1 delete_world
    = (Raise (HTTPException 404 "File not found"), delete_world).
Proof.
  split; [|split]; apply delete_file_needs_the_owner; try reflexivity;
    intros job Hjob; vm_compute in Hjob; try discriminate Hjob;
    injection Hjob as <-; discriminate.
Defined.

(** X9. Whatever the environment refuses once the session is there,
    [delete_file] ends in one of three ways: the success response, the
    404 of a missing or foreign job, or the 500 "Could not delete file";
    and whenever it fails, the ledger and the job table are exactly as
    before (the decrement and the status travel in one transaction),
    although the file may already be gone. *)
Theorem delete_file_fails_without_bookkeeping
    (F : Faults) (id : string) (uid : Z) (w : World) :
  fault_db_session F = None →
  (fst (WorkerApi.delete_file F id uid w) = Ret (deleted_response id)
   ∨ fst (WorkerApi.delete_file F id uid w) = Raise WorkerApi.not_found
   ∨ fst (WorkerApi.delete_file F id uid w) = Raise WorkerApi.could_not_delete)
  ∧ (∀ e, fst (WorkerApi.delete_file F id uid w) = Raise e →
          users (snd (WorkerApi.delete_file F id uid w)) = users w
          ∧ jobs (snd (WorkerApi.delete_file F id uid w)) = jobs w
          ∧ (∀ p, fs (snd (WorkerApi.delete_file F id uid w)) !! p = None
                  ∨ fs (snd (WorkerApi.delete_file F id uid w)) !! p = fs w !! p)).
Proof.
  intros Hs. unfold WorkerApi.delete_file, deleted_response. unfold_prog.
  rewrite Hs. simpl.
  destruct (Worker.get_job id (jobs w)) as [job|] eqn:Ej; [|by eauto 10].
  destruct (bool_decide (owner_id job = Some uid)); simpl; [|by eauto 10].
  destruct (truthy_str (filename job)); simpl.
  - destruct (fs w !! default "" (filename job)) as [f|] eqn:Ef; simpl.
    + destruct (is_reg f); simpl.
      * destruct (fault_stat F _); simpl; [by eauto 10|]. rewrite Ef. simpl.
        destruct (fault_unlink F _); simpl; [by eauto 10|]. rewrite Ef. simpl.
        assert (Hmono : ∀ p, delete (default "" (filename job)) (fs w) !! p = None
                             ∨ delete (default "" (filename job)) (fs w) !! p
                               = fs w !! p).
        { intros p. destruct (decide (default "" (filename job) = p)) as [<-|Hne];
            [left; apply lookup_delete_eq|right; by apply lookup_delete_ne]. }
        destruct (fault_db_ledger F uid); simpl; [by eauto 10|].
        destruct (fault_db_commit F id); simpl; [by eauto 10|].
        split; [by left|]. intros e He. discriminate He.
      * destruct (fault_db_commit F id); simpl; [by eauto 10|].
        split; [by left|]. intros e He. discriminate He.
    + destruct (fault_db_commit F id); simpl; [by eauto 10|].
      split; [by left|]. intros e He. discriminate He.
  - destruct (fault_db_commit F id); simpl; [by eauto 10|].
    split; [by left|]. intros e He. discriminate He.
Qed.

Lemma delete_file_fails_without_bookkeeping_witness :
  fst (WorkerApi.delete_file db_ledger_down "b" 1 delete_world)
  = Raise WorkerApi.could_not_delete
  ∧ users (snd (WorkerApi.delete_file db_ledger_down "b" 1 delete_world))
    = users delete_world
  ∧ jobs (snd (WorkerApi.delete_file db_ledger_down "b" 1 delete_world))
    = jobs delete_world
  ∧ fs (snd (WorkerApi.delete_file db_ledger_down "b" 1 delete_world))
       !! job_file default_config "b" = None.
Proof.
  destruct (delete_file_fails_without_bookkeeping db_ledger_down "b" 1 delete_world
              eq_refl) as [_ H].
  destruct (H WorkerApi.could_not_delete) as (Hu & Hj & _);
    [vm_compute; reflexivity|].
  split; [vm_compute; reflexivity|]. split; [exact Hu|]. split; [exact Hj|].
  vm_compute. reflexivity.
Defined.

Lemma update_job_idem id (js : list Job) :
  Worker.update_job id (set_status Deleted) (Worker.update_job id (set_status Deleted) js)
  = Worker.update_job id (set_status Deleted) js.
Proof.
  unfold Worker.update_job. rewrite map_map. apply map_ext. intros j.
  destruct (String.eqb (job_id j) id) eqn:E; simpl; by rewrite E.
Qed.

Lemma get_job_update id f (js : list Job) job :
  (∀ j, job_id (f j) = job_id j) →
  Worker.get_job id js = Some job →
  Worker.get_job id (Worker.update_job id f js) = Some (f job).
Proof.
  intros Hf. unfold Worker.get_job, Worker.update_job.
  induction js as [|j js IH]; simpl; [done|].
  destruct (String.eqb (job_id j) id) eqn:E; simpl.
  - rewrite Hf, E. by intros [= ->].
  - rewrite E. exact IH.
Qed.

Lemma set_jobs_same w : set_jobs (jobs w) w = w.
Proof. by destruct w. Qed.

Lemma delete_file_without_file F id uid w job :
  fault_db_session F = None → fault_db_commit F id = None →
  Worker.get_job id (jobs w) = Some job → owner_id job = Some uid →
  job_regular_file (fs w) job = None →
  WorkerApi.delete_file F id uid w
  = (Ret (deleted_response id),
     set_jobs (Worker.update_job id (set_status Deleted) (jobs w)) w).
Proof.
  intros Hs Hc Hjob Hown Hnone. unfold WorkerApi.delete_file. unfold_prog.
  rewrite Hs. simpl. rewrite Hjob. simpl. rewrite bool_decide_true by done. simpl.
  unfold job_regular_file in Hnone.
  destruct (truthy_str (filename job)); simpl.
  - destruct (fs w !! default "" (filename job)) as [f|]; simpl.
    + destruct (is_reg f); [done|]. simpl. by rewrite Hc.
    + by rewrite Hc.
  - by rewrite Hc.
Qed.

(** X10. When the database refuses the UPDATE of the counter (as the
    library does for the SQL it is handed as a plain string),
    [delete_file] by the owner of a job whose file is there answers 500
    after it has removed the file, the counter and the job row being as
    before. A second call then succeeds: it marks the job deleted and
    leaves the counter alone, so the bytes of the removed file stay
    counted. *)
Theorem delete_file_refused_update_keeps_bytes_counted
    (F : Faults) (id : string) (uid : Z) (w : World) (job : Job) (f : File) (e : exn) :
  fault_db_session F = None →
  Worker.get_job id (jobs w) = Some job → owner_id job = Some uid →
  job_regular_file (fs w) job = Some f →
  fault_stat F (default "" (filename job)) = None →
  fault_unlink F (default "" (filename job)) = None →
  fault_db_ledger F uid = Some e → fault_db_commit F id = None →
  let r1 := WorkerApi.delete_file F id uid w in
  let r2 := WorkerApi.delete_file F id uid (snd r1) in
  fst r1 = Raise WorkerApi.could_not_delete
  ∧ fs (snd r1) = delete (default "" (filename job)) (fs w)
  ∧ users (snd r1) = users w ∧ jobs (snd r1) = jobs w
  ∧ fst r2 = Ret (deleted_response id)
  ∧ fs (snd r2) = fs (snd r1) ∧ users (snd r2) = users w
  ∧ Worker.get_job id (jobs (snd r2)) = Some (set_status Deleted job).
Proof.
  intros Hs Hjob Hown Hfile Hstat Hunlink Hledger Hcommit r1 r2.
  assert (H1 : r1 = (Raise WorkerApi.could_not_delete,
                     set_fs (delete (default "" (filename job)) (fs w)) w)).
  { unfold r1, WorkerApi.delete_file. unfold_prog. rewrite Hs. simpl.
    rewrite Hjob. simpl. rewrite bool_decide_true by done. simpl.
    unfold job_regular_file in Hfile.
    destruct (truthy_str (filename job)); [|done]. simpl.
    destruct (fs w !! default "" (filename job)) as [f0|] eqn:Ef; [|done]. simpl.
    destruct (is_reg f0); [|done]. simpl.
    rewrite Hstat, Ef. simpl. rewrite Hunlink, Ef. simpl. by rewrite Hledger. }
  assert (H2 : r2 = (Ret (deleted_response id),
                     set_jobs (Worker.update_job id (set_status Deleted) (jobs w))
                       (set_fs (delete (default "" (filename job)) (fs w)) w))).
  { unfold r2. rewrite H1. cbn [snd].
    rewrite (delete_file_without_file F id uid
               (set_fs (delete (default "" (filename job)) (fs w)) w) job);
      try done.
    unfold job_regular_file. simpl. rewrite lookup_delete_eq.
    by destruct (truthy_str (filename job)). }
  clearbody r2 r1. subst r1 r2. cbn [fst snd]. simpl.
  repeat (split; [done|]). by apply get_job_update.
Qed.

Lemma delete_file_refused_update_keeps_bytes_counted_witness :
  let r1 := WorkerApi.delete_file db_ledger_down "b" 1 delete_world in
  let r2 := WorkerApi.delete_file db_ledger_down "b" 1 (snd r1) in
  fst r1 = Raise (HTTPException 500 "Could not delete file")
  ∧ fs (snd r1) !! job_file default_config "b" = None
  ∧ Worker.balance (users (snd r1)) 1 = 10
  ∧ fst r2 = Ret (deleted_response "b")
  ∧ Worker.balance (users (snd r2)) 1 = 10
  ∧ (status <$> Worker.get_job "b" (jobs (snd r2))) = Some Deleted.
Proof.
  destruct (delete_file_refused_update_keeps_bytes_counted db_ledger_down "b" 1
              delete_world (job_row "b" (Some 1) Done) (regular "bb" 0)
              OperationalError)
    as (H1 & H2 & H3 & _ & H5 & _ & H7 & H8); try reflexivity.
  intros r1 r2. split; [exact H1|]. split.
  { unfold r1. rewrite H2. apply lookup_delete_eq. }
  split; [unfold r1; by rewrite H3|]. split; [exact H5|].
  split; [unfold r2, r1; by rewrite H7|].
  unfold r2, r1. by rewrite H8.
Defined.

(** ** Listing ([list_files]) and storage information ([storage_info]) *)

Lemma list_files_ids F db_order isoformat uid w :
  fault_db_query F = None → rearranges db_order →
  ∃ entries, WorkerApi.list_files F db_order isoformat uid w = (Ret entries, w)
             ∧ map WorkerApi.e_job_id entries ≡ₚ listed_ids uid w.
Proof.
  intros Hq Hord. unfold WorkerApi.list_files. unfold_prog. rewrite Hq. simpl.
  eexists. split; [reflexivity|]. unfold listed_ids. rewrite map_map. simpl.
  apply Permutation_map, Hord.
Qed.

Lemma kept_filter_owner uid (js js' : list Job) :
  Forall2 kept_or_deleted js js' →
  map job_id (filter (λ j, owner_id j = Some uid) js')
  = map job_id (filter (λ j, owner_id j = Some uid) js).
Proof.
  induction 1 as [|j j' js js' Hk _ IH]; [done|].
  rewrite !filter_cons.
  assert (Ho : owner_id j' = owner_id j) by (by destruct Hk as [->| ->]).
  assert (Hi : job_id j' = job_id j) by (by destruct Hk as [->| ->]).
  rewrite Ho. destruct (decide (owner_id j = Some uid)); simpl; [|done].
  by rewrite Hi, IH.
Qed.

(** X11. The listing of a user never loses a job: over any succession
    of sweeps and of processings of tasks with fresh identifiers, whatever
    the environment refuses, every identifier [list_files] showed before
    is still shown, as often as before, in whatever order the database
    hands out the rows; a job the sweep deleted stays in the listing. *)
Theorem listing_never_loses_a_job
    (F : Faults) (db_order db_order' : list Job → list Job) (isoformat : Z → string)
    (uid : Z) (w w' : World) :
  rtc step w w' → fault_db_query F = None →
  rearranges db_order → rearranges db_order' →
  ∃ before after more,
    WorkerApi.list_files F db_order isoformat uid w = (Ret before, w)
    ∧ WorkerApi.list_files F db_order' isoformat uid w' = (Ret after, w')
    ∧ map WorkerApi.e_job_id after ≡ₚ map WorkerApi.e_job_id before ++ more.
Proof.
  intros Hsteps Hq Hord Hord'.
  destruct (list_files_ids F db_order isoformat uid w Hq Hord) as (before & Hb & Hbi).
  destruct (list_files_ids F db_order' isoformat uid w' Hq Hord') as (after & Ha & Hai).
  destruct (steps_table_forward w w' Hsteps) as (old & new & Hw' & Hold).
  exists before, after, (map job_id (filter (λ j, owner_id j = Some uid) new)).
  split; [done|]. split; [done|].
  rewrite Hai, Hbi. unfold listed_ids. rewrite Hw', filter_app, map_app.
  by rewrite (kept_filter_owner uid _ _ Hold).
Qed.

Lemma listing_never_loses_a_job_witness :
  ∃ before after more,
    WorkerApi.list_files no_faults (λ l, l) iso_example 1 life_world
    = (Ret before, life_world)
    ∧ WorkerApi.list_files no_faults (@rev Job) iso_example 1
        (snd (Worker.cleanup_local_storage default_config no_faults (100 * day)
                life_world))
      = (Ret after,
         snd (Worker.cleanup_local_storage default_config no_faults (100 * day)
                life_world))
    ∧ map WorkerApi.e_job_id after ≡ₚ map WorkerApi.e_job_id before ++ more.
Proof.
  apply listing_never_loses_a_job; [|reflexivity|by intros l|].
  - apply rtc_once. apply step_sweep.
  - intros l. symmetry. apply Permutation_rev.
Defined.

(** X12. When nothing is refused, a processed task with a fresh
    identifier shows up as exactly one more entry in its owner's listing:
    that of the job, done, with its file name and the size of its file.
    The listing of every other user holds the same entries as before. *)
Theorem processed_task_is_listed_once
    (cfg : Config) (now : Z) (isoformat render : Z → string)
    (db_order db_order' : list Job → list Job) (text id : string)
    (uid : Z) (w : World) :
  Worker.get_job id (jobs w) = None → uid ≠ 0 →
  rearranges db_order → rearranges db_order' →
  let w' := snd (Worker.process_task cfg no_faults now isoformat text id (Some uid) w) in
  (∃ before after entry,
     WorkerApi.list_files no_faults db_order render uid w = (Ret before, w)
     ∧ WorkerApi.list_files no_faults db_order' render uid w' = (Ret after, w')
     ∧ after ≡ₚ before ++ [entry]
     ∧ WorkerApi.e_job_id entry = id
     ∧ WorkerApi.e_filename entry = Some (job_file cfg id)
     ∧ WorkerApi.e_size_bytes entry = Some (task_size isoformat now id text)
     ∧ WorkerApi.e_status entry = Done)
  ∧ (∀ other, other ≠ uid →
       ∃ before after,
         WorkerApi.list_files no_faults db_order render other w = (Ret before, w)
         ∧ WorkerApi.list_files no_faults db_order' render other w' = (Ret after, w')
         ∧ after ≡ₚ before).
Proof.
  intros Hfresh Hne Hord Hord' w'.
  destruct (process_task_no_faults cfg now isoformat text id (Some uid) w Hfresh
              (truthy_int_Some uid Hne)) as (_ & _ & _ & Hjs & _).
  fold w' in Hjs. unfold WorkerApi.list_files. unfold_prog. simpl. split.
  - eexists _, _, (WorkerApi.file_entry render
                     (done_row cfg isoformat now id text (Some uid))).
    split; [reflexivity|]. split; [reflexivity|]. split; [|done].
    rewrite Hjs, filter_app, filter_cons, decide_True by done.
    rewrite filter_nil.
    change [WorkerApi.file_entry render (done_row cfg isoformat now id text (Some uid))]
      with (map (WorkerApi.file_entry render)
              [done_row cfg isoformat now id text (Some uid)]).
    rewrite <- map_app. apply Permutation_map.
    etrans; [apply Hord'|]. apply Permutation_app_tail. symmetry. apply Hord.
  - intros other Ho. eexists _, _. split; [reflexivity|]. split; [reflexivity|].
    rewrite Hjs, filter_app, filter_cons, decide_False by (simpl; congruence).
    rewrite filter_nil, app_nil_r. apply Permutation_map.
    etrans; [apply Hord'|]. symmetry. apply Hord.
Qed.

Lemma processed_task_is_listed_once_witness :
  ∃ before after entry,
    WorkerApi.list_files no_faults (λ l, l) iso_example 7 owner_world
    = (Ret before, owner_world)
    ∧ WorkerApi.list_files no_faults (@rev Job) iso_example 7
        (snd (Worker.process_task default_config no_faults 1000 iso_example "hello"
                "j1" (Some 7) owner_world))
      = (Ret after,
         snd (Worker.process_task default_config no_faults 1000 iso_example "hello"
                "j1" (Some 7) owner_world))
    ∧ after ≡ₚ before ++ [entry]
    ∧ WorkerApi.e_job_id entry = "j1"
    ∧ WorkerApi.e_filename entry = Some (job_file default_config "j1")
    ∧ WorkerApi.e_size_bytes entry = Some (task_size iso_example 1000 "j1" "hello")
    ∧ WorkerApi.e_status entry = Done.
Proof.
  apply (processed_task_is_listed_once default_config 1000 iso_example iso_example
           (λ l, l) (@rev Job) "hello" "j1" 7 owner_world);
    [reflexivity|discriminate|by intros l|].
  intros l. symmetry. apply Permutation_rev.
Defined.



(** ** Attribution of a saved payload ([save_job_payload], lines 87-104) *)

Lemma attribute_usage_users have_db F owner size w :
  users (snd (Backend.attribute_usage have_db F owner size w))
  = if attributed have_db F owner
    then Backend.add_usage (default 0 owner) size (users w)
    else users w.
Proof.
  unfold Backend.attribute_usage, Backend._safe_db_session, attributed.
  destruct have_db; unfold_prog; simpl; [|done].
  destruct (truthy_int owner), (fault_db_session F); simpl; try done.
  by destruct (fault_db_ledger F (default 0 owner)).
Qed.

Lemma balance_add_usage (us : gmap Z User) o size uid :
  is_Some (us !! uid) →
  Worker.balance (Backend.add_usage o size us) uid =
  Worker.balance us uid + (if bool_decide (o = uid) then size else 0).
Proof.
  intros [u Hu]. unfold Worker.balance, Backend.add_usage.
  destruct (decide (o = uid)) as [->|Hne].
  - rewrite bool_decide_true, lookup_alter_eq, Hu by done. simpl. by rewrite int_or_0.
  - rewrite bool_decide_false, lookup_alter_ne by done. lia.
Qed.

Lemma save_job_payload_users cfg have_db F now uuid payload owner prefix w s :
  fst (Backend.save_job_payload cfg have_db F now uuid payload owner prefix w) = Ret s →
  Backend.s_size_bytes s = Z.of_nat (String.length payload)
  ∧ users (snd (Backend.save_job_payload cfg have_db F now uuid payload owner prefix w))
    = if attributed have_db F owner
      then Backend.add_usage (default 0 owner) (Z.of_nat (String.length payload))
             (users w)
      else users w.
Proof.
  rewrite save_job_payload_unfold. cbv zeta.
  destruct (write_then_rename_states F now (Backend.tmp_path cfg (str_or prefix uuid))
              (Backend.final_path cfg (str_or prefix uuid)) payload w
              (tmp_path_ne_final_path cfg (str_or prefix uuid)))
    as (news & _ & _ & Hus & _ & Hres).
  destruct (Backend.write_then_rename _ _ _ _ _ w) as [[[]|e] w1]; simpl in *; [|done].
  destruct Hres as (_ & _ & _ & Ht & _).
  destruct (fault_stat F _); simpl; [done|]. rewrite Ht. simpl.
  intros [= <-]. simpl. split; [done|].
  rewrite attribute_usage_users, Hus. done.
Qed.

(** X14. A payload [save_job_payload] saved is attributed to its owner
    when the database takes it: the counter of an existing owner grows by
    exactly the number of bytes of the payload, which is the size
    returned; every other counter is unchanged; without a database,
    without an owner (none, or the id 0) or when the database refuses the
    session or the update, no counter changes. *)
Theorem saved_payload_is_attributed_to_its_owner
    (cfg : Config) (have_db : bool) (F : Faults) (now : Z) (uuid payload : string)
    (owner : option Z) (prefix : option string) (w : World) (s : Backend.Saved) :
  let r := Backend.save_job_payload cfg have_db F now uuid payload owner prefix w in
  fst r = Ret s →
  Backend.s_size_bytes s = Z.of_nat (String.length payload)
  ∧ (∀ uid, is_Some (users w !! uid) →
       Worker.balance (users (snd r)) uid
       = Worker.balance (users w) uid
         + (if attributed have_db F owner && bool_decide (owner = Some uid)
            then Backend.s_size_bytes s else 0))
  ∧ (∀ uid, users w !! uid = None → users (snd r) !! uid = None)
  ∧ (attributed have_db F owner = false → users (snd r) = users w).
Proof.
  intros r Hret. unfold r in *.
  destruct (save_job_payload_users _ _ _ _ _ _ _ _ _ _ Hret) as [Hsz Hus].
  split; [done|]. rewrite Hus, Hsz. clear Hus Hret.
  destruct (attributed have_db F owner) eqn:Hat; simpl.
  - split; [|split; [|done]].
    + intros uid Hu. rewrite balance_add_usage by done.
      unfold attributed in Hat. destruct owner as [o|]; simpl in *.
      * destruct (decide (o = uid)) as [->|Hne].
        -- by rewrite !bool_decide_true.
        -- rewrite !bool_decide_false; [done|congruence|done].
      * by rewrite andb_false_r in Hat.
    + intros uid Hu. unfold Backend.add_usage.
      destruct (decide (default 0 owner = uid)) as [<-|Hne].
      * by rewrite lookup_alter_eq, Hu.
      * by rewrite lookup_alter_ne.
  - split; [intros; lia|]. done.
Qed.

Lemma saved_payload_is_attributed_to_its_owner_witness :
  Worker.balance
    (users (snd (Backend.save_job_payload default_config true no_faults 1000 "u1"
                   "hello" (Some 7) None owner_world))) 7
  = 105.
Proof.
  destruct (saved_payload_is_attributed_to_its_owner default_config true no_faults 1000
              "u1" "hello" (Some 7) None owner_world
              {| Backend.s_job_id := "u1"; Backend.s_filename := "u1.txt";
                 Backend.s_size_bytes := 5 |}) as (_ & Hb & _).
  { vm_compute. reflexivity. }
  rewrite (Hb 7); [reflexivity|]. vm_compute. eauto.
Defined.

Lemma write_then_rename_faults F F' now tmp target payload w :
  fault_open F tmp = fault_open F' tmp → fault_write F tmp = fault_write F' tmp →
  fault_replace F tmp = fault_replace F' tmp →
  Backend.write_then_rename F now tmp target payload w
  = Backend.write_then_rename F' now tmp target payload w.
Proof.
  intros Ho Hw Hr.
  unfold Backend.write_then_rename, open_w, file_write, path_replace. unfold_prog.
  rewrite Ho, Hw, Hr. done.
Qed.

(** X15. The database cannot fail a save: the outcome of
    [save_job_payload] (the result or the error raised) and every state of
    the file store are the same whether or not there is a database, and
    whatever the database refuses, in two environments that refuse the
    same calls on the files. *)
Theorem database_cannot_fail_a_save
    (cfg : Config) (have_db have_db' : bool) (F F' : Faults) (now : Z)
    (uuid payload : string) (owner : option Z) (prefix : option string) (w : World) :
  same_storage_faults F F' (Backend.tmp_path cfg (str_or prefix uuid))
    (Backend.final_path cfg (str_or prefix uuid)) →
  let r := Backend.save_job_payload cfg have_db F now uuid payload owner prefix w in
  let r' := Backend.save_job_payload cfg have_db' F' now uuid payload owner prefix w in
  fst r = fst r' ∧ observed (snd r) = observed (snd r') ∧ jobs (snd r) = jobs (snd r').
Proof.
  intros (Ho & Hw & Hr & Hs) r r'. unfold r, r'.
  rewrite !save_job_payload_unfold. cbv zeta.
  rewrite (write_then_rename_faults F F') by done. rewrite Hs.
  destruct (Backend.write_then_rename F' _ _ _ _ w) as [[[]|e] w1]; [|done].
  destruct (fault_stat F' _); [done|].
  destruct (fs w1 !! _) as [st|]; [|done]. simpl.
  rewrite !attribute_usage_fs. split; [done|]. split; [done|].
  assert (Hj : ∀ hd G, jobs (snd (Backend.attribute_usage hd G owner (st_size st) w1))
                       = jobs w1).
  { intros hd G. unfold Backend.attribute_usage, Backend._safe_db_session.
    destruct hd; unfold_prog; simpl; [|done].
    destruct (truthy_int owner), (fault_db_session G); simpl; try done.
    by destruct (fault_db_ledger G (default 0 owner)). }
  by rewrite !Hj.
Qed.

Lemma database_cannot_fail_a_save_witness :
  fst (Backend.save_job_payload default_config true db_down 1000 "u1" "hello" (Some 7)
         None owner_world)
  = Ret {| Backend.s_job_id := "u1"; Backend.s_filename := "u1.txt";
           Backend.s_size_bytes := 5 |}.
Proof.
  destruct (database_cannot_fail_a_save default_config true false db_down no_faults
              1000 "u1" "hello" (Some 7) None owner_world) as (Hr & _).
  { repeat split. }
  rewrite Hr. vm_compute. reflexivity.
Defined.

(** ** Reconciliation of the job table by the sweep of the current variant
       ([cleanup_local_storage], lines 139-156) *)

Lemma split_slash_no_slash f : has_slash f = false → Backend.split_slash f = [f].
Proof.
  induction f as [|c f IH]; [done|]. simpl. intros H.
  apply orb_false_iff in H as [Hc Hf]. rewrite Hc, (IH Hf). done.
Qed.

Lemma strip_prefix_app pre rest : Backend.strip_prefix pre (pre ++ rest) = Some rest.
Proof.
  induction pre as [|x pre IH]; [done|]. simpl. by rewrite String.eqb_refl.
Qed.

Lemma entry_name_place cfg f :
  entry_name f = true →
  Backend.place_of cfg (Backend.path_under cfg f)
  = Backend.Key (os_path_join (STORAGE_DIR cfg) f).
Proof.
  unfold entry_name. intros H.
  apply andb_true_iff in H as [H Hdd]. apply andb_true_iff in H as [H Hd].
  apply andb_true_iff in H as [Hs He].
  apply negb_true_iff in Hs, He, Hd, Hdd.
  apply String.eqb_neq in He, Hd.
  assert (Hstart : starts_with_slash f = false).
  { destruct f as [|c f]; [done|]. simpl in *. by apply orb_false_iff in Hs as [? _]. }
  assert (Hparts : Backend.parts f = [f]).
  { unfold Backend.parts. rewrite (split_slash_no_slash f Hs).
    rewrite filter_cons, decide_True by done. done. }
  unfold Backend.path_under, Backend.place_of. rewrite Hstart, Hparts. cbn [fst snd].
  rewrite Bool.eqb_reflx, strip_prefix_app. cbn [negb forallb].
  by rewrite String.eqb_sym, Hdd.
Qed.

Lemma path_exists_entry cfg F f w :
  entry_name f = true →
  Backend.path_exists cfg F f w
  = match fault_stat F (os_path_join (STORAGE_DIR cfg) f) with
    | Some e => if Backend.ignored_by_exists e then (Ret false, w) else (Raise e, w)
    | None => (Ret (bool_decide (is_Some (fs w !! os_path_join (STORAGE_DIR cfg) f))), w)
    end.
Proof.
  intros Hn. unfold Backend.path_exists. cbv zeta. rewrite (entry_name_place cfg f Hn).
  destruct (fault_stat F _) as [e|]; [|done]. by destruct (Backend.ignored_by_exists e).
Qed.

Lemma map_m_ret {A B} (f : A → M World B) (g : A → B) l w :
  Forall (λ x, f x w = (Ret (g x), w)) l →
  Backend.map_m f l w = (Ret (map g l), w).
Proof.
  induction 1 as [|x l Hx _ IH]; [done|].
  cbn [Backend.map_m map]. unfold bind at 1. rewrite Hx.
  unfold bind at 1. rewrite IH. done.
Qed.

Lemma map_m_raise {A B} (f : A → M World B) l w :
  (∀ x w', snd (f x w') = w') →
  Exists (λ x, ∃ e, f x w = (Raise e, w)) l →
  ∃ e, Backend.map_m f l w = (Raise e, w).
Proof.
  intros Hsame. induction 1 as [x l [e Hx]|x l _ [e IH]].
  - exists e. cbn [Backend.map_m]. unfold bind at 1. by rewrite Hx.
  - cbn [Backend.map_m]. unfold bind at 1. specialize (Hsame x w).
    destruct (f x w) as [[y|e'] w1]; simpl in Hsame; subst w1; [|by exists e'].
    unfold bind at 1. rewrite IH. by exists e.
Qed.

(** The rows after the loop over them, when every [stat] answers. *)
Lemma reconcile_rows_answer cfg F js w :
  names_entries js → stats_answer cfg F js →
  Backend.map_m
    (λ r, match filename r with
          | Some f =>
              let* there := Backend.path_exists cfg F f in
              ret (if negb there then set_status Deleted r else r)
          | None => ret r
          end) js w
  = (Ret (map (λ r, match filename r with
                    | Some f =>
                        if bool_decide
                             (is_Some (fs w !! os_path_join (STORAGE_DIR cfg) f))
                        then r else set_status Deleted r
                    | None => r
                    end) js), w).
Proof.
  intros Hn Hs. apply map_m_ret.
  apply Forall_forall. intros j Hj.
  pose proof (proj1 (Forall_forall _ _) Hn j Hj) as Hnj.
  pose proof (proj1 (Forall_forall _ _) Hs j Hj) as Hsj.
  cbv beta in Hnj, Hsj. destruct (filename j) as [f|]; [|done].
  unfold bind. rewrite (path_exists_entry cfg F f w Hnj), Hsj.
  by destruct (bool_decide _).
Qed.

(** The loop over the rows raises when a [stat] is refused with an error
    [Path.exists()] does not take for an absent file. *)
Lemma reconcile_rows_forbidden cfg F js w :
  names_entries js → stat_forbidden cfg F js →
  ∃ e, Backend.map_m
         (λ r, match filename r with
               | Some f =>
                   let* there := Backend.path_exists cfg F f in
                   ret (if negb there then set_status Deleted r else r)
               | None => ret r
               end) js w = (Raise e, w).
Proof.
  intros Hn Hs. apply map_m_raise.
  - intros r w0. destruct (filename r) as [f|]; [|done].
    unfold bind. pose proof (path_exists_same cfg F f w0) as H.
    by destruct (Backend.path_exists cfg F f w0) as [[b|e] w1].
  - apply Exists_exists in Hs as (j & Hj & Hbad). apply Exists_exists.
    exists j. split; [done|].
    pose proof (proj1 (Forall_forall _ _) Hn j Hj) as Hnj. cbv beta in Hnj.
    destruct (filename j) as [f|]; [|done]. destruct Hbad as (e & He & Hi).
    exists e. unfold bind. by rewrite (path_exists_entry cfg F f w Hnj), He, Hi.
Qed.

Lemma reconcile_jobs_unfold cfg have_db F w :
  Backend.reconcile_jobs cfg have_db F w
  = (Ret tt,
     if have_db && negb (refused (fault_db_session F))
        && negb (refused (fault_db_query F))
     then match Backend.map_m
                  (λ r, match filename r with
                        | Some f =>
                            let* there := Backend.path_exists cfg F f in
                            ret (if negb there then set_status Deleted r else r)
                        | None => ret r
                        end) (jobs w) w with
          | (Ret rows, _) =>
              if refused (fault_db_commit_all F) then w else set_jobs rows w
          | (Raise _, _) => w
          end
     else w).
Proof.
  unfold Backend.reconcile_jobs, Backend._safe_db_session.
  destruct have_db; [|done]. cbn [negb andb].
  unfold try_except at 1. unfold bind at 1. unfold bind at 1.
  destruct (fault_db_session F); [done|]. cbn [may_fail ret refused negb andb].
  unfold try_except at 1. unfold bind at 1.
  destruct (fault_db_query F); [done|]. cbn [may_fail ret refused negb andb].
  unfold bind at 1. cbn [get]. unfold bind at 1.
  pose proof (reconcile_rows_same cfg F (jobs w) w) as Hsame.
  destruct (Backend.map_m _ (jobs w) w) as [[rows|e] w1]; simpl in Hsame; subst w1;
    [|done].
  unfold bind. by destruct (fault_db_commit_all F).
Qed.

(** X16. A sweep of the current variant that ran through its loop (the
    cutoff is representable, the directory can be listed, single entries
    fail at most as vanished or forbidden) returns its count and
    reconciles the job table, the rows naming entries of the storage
    directory. When the database takes it and no [stat] of a named file
    is refused, every row that names a file absent from the store after
    the sweep is marked deleted, whatever its status was, and every other
    row is unchanged; rows are neither added nor dropped. Without a
    database, when the database refuses the session, the query or the
    commit, or when the [stat] of a named file is refused with an error
    [Path.exists()] raises, the table is left as it was. *)
Theorem backend_sweep_reconciles_job_table
    (cfg : Config) (have_db : bool) (F : Faults) (now cutoff : Z) (w : World) :
  cutoff_is cfg now cutoff → fault_iterdir F = None →
  benign F → mtimes_in_range (fs w) → names_entries (jobs w) →
  let r := Backend.cleanup_local_storage cfg have_db F now w in
  (∃ n, fst r = Ret [("deleted", PInt n)])
  ∧ (db_reconciles have_db F = true → stats_answer cfg F (jobs w) →
     Forall2 (reconciled cfg (fs (snd r))) (jobs w) (jobs (snd r)))
  ∧ (db_reconciles have_db F = false → jobs (snd r) = jobs w)
  ∧ (stat_forbidden cfg F (jobs w) → jobs (snd r) = jobs w).
Proof.
  intros Hcut Hit Hb Hr Hnames r.
  destruct (backend_cleanup_benign cfg have_db F now cutoff w Hcut Hit Hb Hr)
    as (n & Hret & _).
  fold r in Hret. split; [by exists n|].
  destruct Hcut as (delta & Hd & Hc).
  assert (Hw : ∃ w1, snd r = snd (Backend.reconcile_jobs cfg have_db F w1)
                     ∧ jobs w1 = jobs w).
  { unfold r. rewrite backend_cleanup_unfold, Hd, Hc, Hit, entry_loop by done.
    pose proof (entry_fold_frame F cutoff (map fst (map_to_list (fs w))) w 0) as [_ Hj].
    destruct (entry_fold _ _ _ _) as [w1 n1]. simpl in *. by exists w1. }
  destruct Hw as (w1 & -> & Hj).
  rewrite reconcile_jobs_unfold. cbn [snd]. unfold db_reconciles.
  rewrite Hj.
  destruct (have_db && negb (refused (fault_db_session F))
            && negb (refused (fault_db_query F))) eqn:Hdb; cbn [andb].
  - split; [|split].
    + intros Hcommit Hstats. rewrite (reconcile_rows_answer cfg F (jobs w) w1) by done.
      rewrite (negb_true_iff _) in Hcommit. rewrite Hcommit. simpl.
      apply Forall2_fmap_r, Forall_Forall2_diag, Forall_forall. intros j _.
      unfold reconciled, compose. cbv beta. destruct (filename j); [|done].
      by destruct (bool_decide _).
    + intros Hcommit. apply negb_false_iff in Hcommit. rewrite Hcommit.
      destruct (Backend.map_m _ _ _) as [[rows|e] w2]; by rewrite ?Hj.
    + intros Hforb.
      destruct (reconcile_rows_forbidden cfg F (jobs w) w1 Hnames Hforb) as [e ->].
      done.
  - split; [done|]. split; [done|]. done.
Qed.

Lemma backend_sweep_reconciles_job_table_witness :
  map status
    (jobs (snd (Backend.cleanup_local_storage default_config true no_faults (100 * day)
                  reconcile_world)))
  = [Done; Deleted; Created].
Proof.
  destruct (backend_sweep_reconciles_job_table default_config true no_faults (100 * day)
              (93 * day) reconcile_world) as (_ & H & _).
  - eexists. split; reflexivity.
  - reflexivity.
  - apply no_faults_benign.
  - apply (bool_decide_unpack _). vm_compute. exact I.
  - apply (bool_decide_unpack _). vm_compute. exact I.
  - assert (Hs : stats_answer default_config no_faults (jobs reconcile_world)).
    { repeat constructor. }
    specialize (H eq_refl Hs). vm_compute. reflexivity.
Defined.

(** ** The owner of a request ([_get_owner_from_auth], lines 124-137) *)

Lemma ascii_lower_space c :
  Ascii.eqb (BackendApi.ascii_lower c) BackendApi.space = Ascii.eqb c BackendApi.space.
Proof. destruct c as [[] [] [] [] [] [] [] []]; reflexivity. Qed.

Lemma has_space_lower s : has_space (BackendApi.lower s) = has_space s.
Proof.
  induction s as [|c s IH]; [done|]. simpl. by rewrite ascii_lower_space, IH.
Qed.

Lemma lower_app a b :
  BackendApi.lower (a +:+ b) = BackendApi.lower a +:+ BackendApi.lower b.
Proof. induction a as [|c a IH]; [done|]. simpl. by rewrite IH. Qed.

Lemma lower_split p : ∀ s r,
  BackendApi.lower s = p +:+ r →
  ∃ s1 s2, s = s1 +:+ s2 ∧ BackendApi.lower s1 = p ∧ BackendApi.lower s2 = r.
Proof.
  induction p as [|c p IH]; intros s r H.
  - by exists "", s.
  - destruct s as [|d s]; [discriminate H|]. simpl in H. injection H as Hc Hs.
    destruct (IH s r Hs) as (s1 & s2 & -> & H1 & H2).
    exists (String d s1), s2. simpl. by rewrite Hc, H1.
Qed.

Lemma prefix_app p r : String.prefix p (p +:+ r) = true.
Proof.
  induction p as [|c p IH]; simpl; [by destruct r|].
  by destruct (Ascii.ascii_dec c c).
Qed.

Lemma prefix_inv p : ∀ s, String.prefix p s = true → ∃ r, s = p +:+ r.
Proof.
  induction p as [|c p IH]; intros s H; [by exists s|].
  destruct s as [|d s]; [discriminate H|]. simpl in H.
  destruct (Ascii.ascii_dec c d) as [->|]; [|discriminate H].
  destruct (IH s H) as [r ->]. by exists r.
Qed.

Lemma split_space_once_app h t :
  has_space h = false →
  BackendApi.split_space_once (h +:+ String BackendApi.space t) = [h; t].
Proof.
  induction h as [|c h IH]; intros H; [done|].
  simpl in H. apply orb_false_iff in H as [Hc Hh]. simpl. rewrite Hc.
  by rewrite (IH Hh).
Qed.

Lemma bearer_header scheme token :
  BackendApi.lower scheme = "bearer" →
  BackendApi._get_owner_from_auth (Some (scheme +:+ String BackendApi.space token))
  = if BackendApi.startswith token "devtoken-"
    then BackendApi.Owner (Some 1) else BackendApi.Owner None.
Proof.
  intros Hl. unfold BackendApi._get_owner_from_auth.
  assert (Hne : truthy_str (Some (scheme +:+ String BackendApi.space token)) = true).
  { destruct scheme; [discriminate Hl|done]. }
  rewrite Hne. cbn [negb default from_option id]. unfold BackendApi.startswith at 1.
  rewrite lower_app, Hl.
  change (BackendApi.lower (String BackendApi.space token))
    with (String BackendApi.space (BackendApi.lower token)).
  change ("bearer" +:+ String BackendApi.space (BackendApi.lower token))
    with ("bearer " +:+ BackendApi.lower token).
  rewrite prefix_app, split_space_once_app; [done|].
  by rewrite <- has_space_lower, Hl.
Qed.

Lemma owner_from_auth_cases authorization :
  BackendApi._get_owner_from_auth authorization = BackendApi.Owner None
  ∨ (BackendApi._get_owner_from_auth authorization = BackendApi.Owner (Some 1)
     ∧ ∃ scheme rest, authorization = Some (scheme +:+ " devtoken-" +:+ rest)
                      ∧ BackendApi.lower scheme = "bearer").
Proof.
  unfold BackendApi._get_owner_from_auth.
  destruct (truthy_str authorization) eqn:Ht; cbn [negb]; [|by left].
  destruct authorization as [a|]; [|discriminate Ht]. cbn [default from_option id].
  destruct (BackendApi.startswith (BackendApi.lower a) "bearer ") eqn:Hp; [|by left].
  apply prefix_inv in Hp as [r Hr].
  change ("bearer " +:+ r) with ("bearer" +:+ String BackendApi.space r) in Hr.
  apply lower_split in Hr as (s1 & s2 & -> & H1 & H2).
  destruct s2 as [|c s2]; [discriminate H2|]. simpl in H2. injection H2 as Hc _.
  assert (c = BackendApi.space) as ->.
  { apply Ascii.eqb_eq. rewrite <- ascii_lower_space, Hc. reflexivity. }
  rewrite split_space_once_app by (by rewrite <- has_space_lower, H1).
  cbn [lookup list_lookup].
  destruct (BackendApi.startswith s2 "devtoken-") eqn:Hd; [|by left].
  right. split; [done|]. apply prefix_inv in Hd as [rest ->].
  by exists s1, rest.
Qed.

(** X17. [_get_owner_from_auth] never fails with an index out of the
    list of the split; it gives the owner 1 exactly for the headers made
    of the scheme [bearer], in any mix of capitals, one space and a token
    that starts with [devtoken-], whatever follows; every other header,
    and no header, gives no owner. No header gives another owner than 1. *)
Theorem dev_token_is_the_only_way_to_owner_one (authorization : option string) :
  (BackendApi._get_owner_from_auth authorization = BackendApi.Owner (Some 1)
   ↔ ∃ scheme rest, authorization = Some (scheme +:+ " devtoken-" +:+ rest)
                    ∧ BackendApi.lower scheme = "bearer")
  ∧ (BackendApi._get_owner_from_auth authorization ≠ BackendApi.Owner (Some 1)
     ↔ BackendApi._get_owner_from_auth authorization = BackendApi.Owner None).
Proof.
  split; split.
  - destruct (owner_from_auth_cases authorization) as [H|[_ H]]; [|done].
    rewrite H. discriminate.
  - intros (scheme & rest & -> & Hl).
    change (scheme +:+ " devtoken-" +:+ rest)
      with (scheme +:+ String BackendApi.space ("devtoken-" +:+ rest)).
    rewrite bearer_header by done.
    unfold BackendApi.startswith. by rewrite prefix_app.
  - destruct (owner_from_auth_cases authorization) as [H|[H _]]; [done|].
    intros Hn. by destruct Hn.
  - intros ->. discriminate.
Qed.

Lemma dev_token_is_the_only_way_to_owner_one_witness :
  BackendApi._get_owner_from_auth (Some "BeArEr devtoken-0af3")
  = BackendApi.Owner (Some 1)
  ∧ BackendApi._get_owner_from_auth (Some "Bearer  devtoken-0af3")
    = BackendApi.Owner None.
Proof.
  split.
  - apply (proj2 (proj1 (dev_token_is_the_only_way_to_owner_one _))).
    exists "BeArEr", "0af3". split; reflexivity.
  - apply (proj1 (proj2 (dev_token_is_the_only_way_to_owner_one _))).
    vm_compute. discriminate.
Defined.

(** ** [POST /api/enqueue] ([api_enqueue], lines 139-151) *)

(** X18. [api_enqueue] always answers, whatever the header and whatever
    the environment refuses. When the write of the payload and the reading
    of its size go through, the answer is 200 with the identifier drawn
    for the job, and the final location holds the complete payload, the
    temporary file being gone: no refusal of the database turns it into
    an error. Otherwise the answer is 500, no counter and no job row has
    changed, and either the storage refused the write and the final
    location holds what it held, or only the reading of the size was
    refused and the payload is in place although the request failed. *)
Theorem api_enqueue_always_answers
    (cfg : Config) (have_db : bool) (F : Faults) (now : Z) (uuid text : string)
    (authorization : option string) (w : World) :
  let tmp := Backend.tmp_path cfg uuid in
  let target := Backend.final_path cfg uuid in
  let r := BackendApi.api_enqueue cfg have_db F now uuid text authorization w in
  (storage_ok F tmp target = true
   ∧ fst r = BackendApi.Responded 200 (enqueued_response uuid)
   ∧ fs (snd r) !! target = Some (regular text now)
   ∧ fs (snd r) !! tmp = None)
  ∨ (storage_ok F tmp target = false
     ∧ fst r = BackendApi.internal_server_error
     ∧ users (snd r) = users w ∧ jobs (snd r) = jobs w
     ∧ ((∃ e, unwritable F tmp e) ∧ fs (snd r) !! target = fs w !! target
        ∨ (refused (fault_stat F target) = true
           ∧ fs (snd r) !! target = Some (regular text now)))).
Proof.
  intros tmp target r. unfold r, BackendApi.api_enqueue.
  assert (Ho : ∃ owner, BackendApi._get_owner_from_auth authorization
                        = BackendApi.Owner owner).
  { destruct (owner_from_auth_cases authorization) as [->|[-> _]]; eauto. }
  destruct Ho as [owner ->].
  rewrite save_job_payload_unfold. cbv zeta.
  assert (Hs : ∀ u : string, str_or None u = u) by done.
  rewrite !Hs. fold tmp. fold target.
  destruct (write_then_rename_states F now tmp target text w
              (tmp_path_ne_final_path cfg uuid))
    as (news & _ & _ & Hus & Hjs & Hres).
  unfold storage_ok.
  destruct (Backend.write_then_rename F now tmp target text w) as [[[]|e] w1];
    simpl in Hus, Hjs, Hres.
  - destruct Hres as (-> & -> & -> & Ht & Htmp). simpl.
    destruct (fault_stat F target) eqn:Est; simpl.
    + right. repeat split; try done. right. done.
    + rewrite Ht. simpl. left.
      pose proof (attribute_usage_fs have_db F owner
                    (st_size (regular text now)) w1) as Hfs.
      unfold observed in Hfs. injection Hfs as Hfs _. rewrite Hfs. done.
  - destruct Hres as (Hun & Ht & _). simpl. right.
    split; [|split; [done|]; split; [done|]; split; [done|]; left; eauto].
    destruct Hun as [->|[[-> [k ->]]|(-> & -> & ->)]]; simpl; try done.
Qed.

Lemma api_enqueue_always_answers_witness :
  BackendApi.api_enqueue default_config true read_only 1000 "u1" "hello"
    (Some "Bearer devtoken-0af3") owner_world
  = (BackendApi.internal_server_error, owner_world)
  ∧ fst (BackendApi.api_enqueue default_config true db_down 1000 "u1" "hello"
           (Some "Bearer devtoken-0af3") owner_world)
    = BackendApi.Responded 200 (enqueued_response "u1").
Proof.
  split.
  - destruct (api_enqueue_always_answers default_config true read_only 1000 "u1"
                "hello" (Some "Bearer devtoken-0af3") owner_world)
      as [(H & _)|(_ & H & _)]; [discriminate H|].
    vm_compute. reflexivity.
  - destruct (api_enqueue_always_answers default_config true db_down 1000 "u1"
                "hello" (Some "Bearer devtoken-0af3") owner_world)
      as [(_ & H & _)|(H & _)]; [exact H|discriminate H].
Defined.

(** ** The S3 client of a task ([_s3_client], [upload_to_s3], [process_task]) *)

(** X19. [upload_to_s3] builds its client before its [try]: when S3 is
    configured and the library refuses the client, the exception leaves
    [upload_to_s3] and [process_task], after the task was accounted: the
    file is written, the owner's counter has grown by its size and the job
    is done. A refused transfer is reported in the result instead: the
    task returns, and the local copy stays even where it is to be removed
    after an upload. *)
Theorem refused_s3_client_fails_the_accounted_task
    (cfg : Config) (now : Z) (isoformat : Z → string) (text id : string)
    (uid : Z) (w : World) (e : exn) :
  Worker.get_job id (jobs w) = None → uid ≠ 0 → Worker.s3_configured cfg = true →
  let r := Worker.process_task cfg (s3_client_refused e) now isoformat text id
             (Some uid) w in
  let r' := Worker.process_task cfg (s3_transfer_refused e) now isoformat text id
              (Some uid) w in
  (fst r = Raise e
   ∧ fs (snd r) !! job_file cfg id
     = Some (regular (task_content isoformat now id text) now)
   ∧ users (snd r)
     = Worker.sql_inc uid (task_size isoformat now id text) (users w)
   ∧ jobs (snd r) = jobs w ++ [done_row cfg isoformat now id text (Some uid)])
  ∧ (fst r' = Ret {| Worker.r_job_id := id; Worker.r_local_path := job_file cfg id;
                     Worker.r_s3 := {| Worker.uploaded := false;
                                       Worker.upload_info := str_exn e |} |}
     ∧ snd r' = snd r).
Proof.
  intros Hfresh Hne Hcfg r r'.
  assert (Hown : truthy_int (Some uid) = true) by (by apply truthy_int_Some).
  unfold r, r', Worker.process_task. cbv zeta. rewrite Hown.
  fold (job_file cfg id). fold (processing_row cfg now id (Some uid)).
  unfold Worker.os_makedirs, Worker.insert_job, Worker._inc_user_storage,
    Worker.commit_job, Worker.upload_to_s3, open_w, file_write.
  rewrite Hcfg. cbn [negb].
  unfold_prog. simpl. rewrite Hfresh. simpl.
  rewrite !lookup_insert_eq. simpl.
  rewrite (get_job_app_fresh id (jobs w) (processing_row cfg now id (Some uid)))
    by done.
  simpl.
  rewrite (update_job_app_fresh id _ (jobs w) (processing_row cfg now id (Some uid)))
    by done.
  rewrite ?insert_insert_eq, ?lookup_insert_eq.
  unfold done_row, task_size, task_content, st_size. simpl.
  rewrite ?lookup_insert_eq. simpl. done.
Qed.

Lemma refused_s3_client_fails_the_accounted_task_witness :
  let r := Worker.process_task s3_config (s3_client_refused ValueError) 1000
             iso_example "hello" "j1" (Some 7) owner_world in
  fst r = Raise ValueError
  ∧ is_Some (fs (snd r) !! job_file s3_config "j1")
  ∧ Worker.balance (users (snd r)) 7
    = 100 + task_size iso_example 1000 "j1" "hello".
Proof.
  destruct (refused_s3_client_fails_the_accounted_task s3_config 1000 iso_example
              "hello" "j1" 7 owner_world ValueError) as [(H1 & H2 & H3 & _) _];
    [reflexivity|discriminate|reflexivity|].
  intros r. split; [exact H1|]. split; [unfold r; rewrite H2; eauto|].
  unfold r. rewrite H3. vm_compute. reflexivity.
Defined.
